(** * ccal essentiality pipeline (ccal/computational_cancer_biology/imv.py)

    A shallow embedding of [get_amp_mut_del], [make_essentiality_matrix],
    [fit_essentiality] and the index-curve computation of
    [_plot_essentiality], with the properties of the specification that
    concern them.

    Conventions of the embedding.
    - A float64 cell is a [num]: an exact rational or [NaN], the missing
      value of pandas.  Arithmetic on rationals is exact (no rounding, no
      infinities); [NaN] propagates as in IEEE arithmetic and every
      comparison with [NaN] is false.  Where a property depends on the
      rounding (the points of the grid, the grid point nearest to a
      score), [make_essentiality_matrix] is modelled a second time, in
      IEEE binary64, in the module [Binary64].
    - A pandas DataFrame is its column labels and its labelled rows, in
      order; a label may occur more than once.
    - A Python exception is a [Raise] in the [result] monad.
    - [print_log] calls only write to the console and are left out.
    - statsmodels' [ACSkewT_gen] (its [pdf] and [fit]), numpy's [histogram]
      and the row order chosen by pandas' [sort_values] are library code:
      they are section variables.  The two helpers of
      ccal/mathematics/equation.py are section variables of the pipeline as
      well, and are also given a model that follows the specification. *)

From Stdlib Require Import QArith Qabs ZArith Lia Lqa Permutation Sorted SpecFloat.
From stdpp Require Import base list strings gmap.

Open Scope Q_scope.

(** ** Numbers *)

Inductive num : Type :=
| NaN
| Fin (q : Q).

Definition isnan (x : num) : bool :=
  match x with NaN => true | Fin _ => false end.

Definition notnan (x : num) : bool := negb (isnan x).

(** Equality of cells as numbers: [NaN] only with [NaN], rationals up to
    [Qeq]. *)
Definition num_eq (x y : num) : Prop :=
  match x, y with
  | NaN, NaN => True
  | Fin p, Fin q => p == q
  | _, _ => False
  end.

Definition nadd (x y : num) : num :=
  match x, y with Fin p, Fin q => Fin (Qred (p + q)) | _, _ => NaN end.

Definition nsub (x y : num) : num :=
  match x, y with Fin p, Fin q => Fin (Qred (p - q)) | _, _ => NaN end.

Definition nmul (x y : num) : num :=
  match x, y with Fin p, Fin q => Fin (Qred (p * q)) | _, _ => NaN end.

(** Division by zero has no finite result: it is [NaN] here. *)
Definition ndiv (x y : num) : num :=
  match x, y with
  | Fin p, Fin q => if Qeq_bool q 0 then NaN else Fin (Qred (p / q))
  | _, _ => NaN
  end.

Definition nabs (x : num) : num :=
  match x with Fin p => Fin (Qabs p) | NaN => NaN end.

(** [x < y], [x <= y], [x >= y], [x > y]: false as soon as one side is NaN. *)
Definition nlt (x y : num) : bool :=
  match x, y with Fin p, Fin q => negb (Qle_bool q p) | _, _ => false end.

Definition nle (x y : num) : bool :=
  match x, y with Fin p, Fin q => Qle_bool p q | _, _ => false end.

Definition nge (x y : num) : bool := nle y x.
Definition ngt (x y : num) : bool := nlt y x.

(** numpy.sign: -1, 0 or 1, and NaN for NaN. *)
Definition sign (x : num) : num :=
  match x with
  | NaN => NaN
  | Fin q => Fin (inject_Z (Z.sgn (Qnum q)))
  end.

Definition of_Z (z : Z) : num := Fin (inject_Z z).
Definition of_nat (n : nat) : num := of_Z (Z.of_nat n).

(** ** Exceptions *)

(** [NotModelled] marks a run that leaves the data model: a scalar label
    lookup that meets a repeated label, where pandas hands back a
    two-dimensional object. *)
Inductive exn : Type :=
| ValueError (msg : string)
| KeyError
| IndexError
| NotModelled.

Inductive result (A : Type) : Type :=
| Ok (a : A)
| Raise (e : exn).
Arguments Ok {A} a.
Arguments Raise {A} e.

Definition bind {A B} (r : result A) (k : A -> result B) : result B :=
  match r with Ok a => k a | Raise e => Raise e end.

Declare Scope result_scope.
Delimit Scope result_scope with result.
Notation "'let*' x := r 'in' k" := (bind r (fun x => k))
  (at level 10, x pattern, r at level 100, k at level 200) : result_scope.
Open Scope result_scope.

(** ** Tables *)

Definition row : Type := string * list num.

Record DataFrame : Type := mkDataFrame {
  columns : list string;
  rows : list row
}.

Definition index (df : DataFrame) : list string := (rows df).*1.

Record Series : Type := mkSeries {
  name : option string;
  labels : list string;
  data : list num
}.

Definition has_label (l : string) (r : row) : bool := bool_decide (r.1 = l).

(** [df.ix[label, :]] for one label. *)
Definition ix_row (df : DataFrame) (l : string) : result Series :=
  match List.filter (has_label l) (rows df) with
  | [] => Raise KeyError
  | [r] => Ok (mkSeries (Some l) (columns df) r.2)
  | _ => Raise NotModelled
  end.

(** [df.ix[labels, :]] for a list of labels: each label selects the rows
    that carry it; a label that no row carries yields a row of NaN. *)
Definition nan_row (df : DataFrame) : list num :=
  List.map (fun _ => NaN) (columns df).

Definition ix_label (df : DataFrame) (l : string) : list row :=
  match List.filter (has_label l) (rows df) with
  | [] => [(l, nan_row df)]
  | rs => rs
  end.

Definition ix_rows (df : DataFrame) (ls : list string) : DataFrame :=
  mkDataFrame (columns df) (List.flat_map (ix_label df) ls).

(** [df.dropna(how='all')]: a row stays when one of its cells is present. *)
Definition dropna_all (df : DataFrame) : DataFrame :=
  mkDataFrame (columns df) (List.filter (fun r : row => existsb notnan r.2) (rows df)).

(** [series.dropna()] on the values. *)
Definition dropna (v : list num) : list num := List.filter notnan v.

(** Truth value of a label, as Python's [any] sees it. *)
Definition truthy (s : string) : bool := negb (bool_decide (s = ""%string)).

Definition any (ls : list string) : bool := existsb truthy ls.

(** ** get_amp_mut_del *)

(** Series are objects: a variable holds a reference into the store, and
    setting [.name] through one variable is seen through every other
    variable that holds the same reference. *)
Module Heap.

Definition ref : Type := nat.

Record store : Type := mkStore {
  objs : gmap ref Series;
  next : ref
}.

Definition empty : store := mkStore ∅ 0%nat.

Definition St (A : Type) : Type := store -> result (A * store).

Definition ret {A} (a : A) : St A := fun s => Ok (a, s).

Definition bindS {A B} (m : St A) (k : A -> St B) : St B :=
  fun s => match m s with Ok (a, s') => k a s' | Raise e => Raise e end.

Definition alloc (v : Series) : St ref :=
  fun s => Ok (next s, mkStore (<[next s := v]> (objs s)) (S (next s))).

Definition set_name (r : ref) (n : string) : St unit :=
  fun s =>
    Ok (tt, mkStore (alter (fun v => mkSeries (Some n) (labels v) (data v)) r (objs s))
                    (next s)).

Definition deref (r : ref) : St Series :=
  fun s => match objs s !! r with
           | Some v => Ok (v, s)
           | None => Raise NotModelled
           end.

(** [try: x = df.ix[label, :]  except KeyError: handler] *)
Definition try_ix (df : DataFrame) (l : string) (handler : St ref) : St ref :=
  match ix_row df l with
  | Ok v => alloc v
  | Raise KeyError => handler
  | Raise e => fun _ => Raise e
  end.

End Heap.

Declare Scope heap_scope.
Delimit Scope heap_scope with heap.
Notation "x <- m ;; k" := (Heap.bindS m (fun x => k))
  (at level 100, m at next level, right associativity) : heap_scope.

(** [concat([a, b, c], axis=1).T] of series over the same labels: one row
    per series, labelled by the series' name. *)
Definition concat_T (cols : list string) (ss : list Series) : result DataFrame :=
  let* rs := List.fold_right
               (fun s acc =>
                  let* tl := acc in
                  match name s with
                  | Some n => Ok ((n, data s) :: tl)
                  | None => Raise NotModelled
                  end)
               (Ok []) ss in
  Ok (mkDataFrame cols rs).

Definition get_amp_mut_del_prog (gene_x_samples : DataFrame) (gene : string)
  : Heap.St DataFrame :=
  (null <- Heap.alloc (mkSeries None (columns gene_x_samples) (nan_row gene_x_samples)) ;;
   amplifications <-
     Heap.try_ix gene_x_samples (gene +:+ "_AMP")
       (_ <- Heap.set_name null (gene +:+ "_AMP") ;; Heap.ret null) ;;
   mutations <-
     Heap.try_ix gene_x_samples (gene +:+ "_MUT")
       (_ <- Heap.set_name null (gene +:+ "_MUT") ;; Heap.ret null) ;;
   deletions <-
     Heap.try_ix gene_x_samples (gene +:+ "_DEL")
       (_ <- Heap.set_name null (gene +:+ "_DEL") ;; Heap.ret null) ;;
   a <- Heap.deref amplifications ;;
   m <- Heap.deref mutations ;;
   d <- Heap.deref deletions ;;
   fun s => let* df := concat_T (columns gene_x_samples) [a; m; d] in Ok (df, s))%heap.

Definition get_amp_mut_del (gene_x_samples : DataFrame) (gene : string)
  : result DataFrame :=
  let* r := get_amp_mut_del_prog gene_x_samples gene Heap.empty in Ok r.1.

(** ** numpy *)

(** [numpy.minimum] and [numpy.maximum] of two cells: NaN wins. *)
Definition minimum (a b : num) : num :=
  if isnan a then a else if isnan b then b else if nlt b a then b else a.

Definition maximum (a b : num) : num :=
  if isnan a then a else if isnan b then b else if nlt a b then b else a.

(** [a.min()] and [a.max()] of an array: NaN as soon as a cell is NaN, and
    a ValueError on an array of size zero. *)
Definition array_min (a : list num) : result num :=
  match a with
  | [] => Raise (ValueError "zero-size array to reduction operation minimum which has no identity")
  | x :: a' => Ok (List.fold_left minimum a' x)
  end.

Definition array_max (a : list num) : result num :=
  match a with
  | [] => Raise (ValueError "zero-size array to reduction operation maximum which has no identity")
  | x :: a' => Ok (List.fold_left maximum a' x)
  end.

(** [numpy.linspace(start, stop, num)]: [y = arange(0, num) * step + start]
    with [step = (stop - start) / (num - 1)], and [y[-1] = stop] when
    [num > 1].  (numpy's branch for [step == 0] computes the same numbers
    in exact arithmetic.) *)
Definition linspace (start stop : num) (n : Z) : result (list num) :=
  if (n <? 0)%Z then Raise (ValueError "Number of samples must be non-negative")
  else
    let delta := nsub stop start in
    match Z.to_nat n with
    | O => Ok []
    | S O => Ok [nadd (nmul (of_nat 0) delta) start]
    | S d =>
        let step := ndiv delta (of_nat d) in
        Ok (List.map (fun i => nadd (nmul (of_nat i) step) start) (seq 0 d) ++ [stop])
    end.

(** [numpy.argmin]: the first cell that is NaN if there is one, the first
    occurrence of the least cell otherwise. *)
Fixpoint argmin_from (mp : num) (min_ind i : nat) (a : list num) : nat :=
  match a with
  | [] => min_ind
  | x :: a' =>
      if negb (nge x mp)
      then if isnan x then i else argmin_from x i (S i) a'
      else argmin_from mp min_ind (S i) a'
  end.

Definition argmin (a : list num) : result nat :=
  match a with
  | [] => Raise (ValueError "attempt to get argmin of an empty sequence")
  | x :: a' => Ok (if isnan x then 0%nat else argmin_from x 0 1 a')
  end.

(** [numpy.argmax], likewise. *)
Fixpoint argmax_from (mp : num) (max_ind i : nat) (a : list num) : nat :=
  match a with
  | [] => max_ind
  | x :: a' =>
      if negb (nle x mp)
      then if isnan x then i else argmax_from x i (S i) a'
      else argmax_from mp max_ind (S i) a'
  end.

Definition argmax (a : list num) : result nat :=
  match a with
  | [] => Raise (ValueError "attempt to get argmax of an empty sequence")
  | x :: a' => Ok (if isnan x then 0%nat else argmax_from x 0 1 a')
  end.

(** [a[j]] *)
Definition getitem (a : list num) (j : nat) : result num :=
  match a !! j with
  | Some x => Ok x
  | None => Raise IndexError
  end.

(** [numpy.empty((n_rows, n_columns))]: the cells are whatever the memory
    held, here [uninit i j]. *)
Definition empty (uninit : nat -> nat -> num) (n_rows n_columns : nat) : list (list num) :=
  List.map (fun i => List.map (uninit i) (seq 0 n_columns)) (seq 0 n_rows).

(** [a[i, :] = r] *)
Definition setitem_row (a : list (list num)) (i : nat) (r : list num)
  : result (list (list num)) :=
  match a !! i with
  | None => Raise IndexError
  | Some old =>
      if (length r =? length old)%nat then Ok (<[i := r]> a)
      else match r with
           | [x] => Ok (<[i := List.map (fun _ => x) old]> a)
           | _ => Raise (ValueError "could not broadcast input array")
           end
  end.

(** [[f(v) for v in vector]] with a body that can raise. *)
Fixpoint mapM {A B} (f : A -> result B) (l : list A) : result (list B) :=
  match l with
  | [] => Ok []
  | x :: l' => let* y := f x in let* ys := mapM f l' in Ok (y :: ys)
  end.

(** ** ccal/mathematics/equation.py, from the specification *)

Inductive direction : Type := Plus | Minus.

(** Modelled from the spec: [define_x_coordinates_for_reflection] of
    ccal/mathematics/equation.py is not among the sources.  The mode is the
    grid point at the first maximum of the curve, and every grid point [x]
    is sent to [2 * mode - x]. *)
Definition spec_define_x_coordinates_for_reflection (curve grid : list num)
  : result (list num) :=
  let* i := argmax curve in
  let* mode := getitem grid i in
  Ok (List.map (fun x => nsub (nmul (Fin 2) mode) x) grid).

(** Modelled from the spec: the running sum of
    [define_cumulative_area_ratio_function], the area under [curve] from
    the start of the grid, nothing yet at the first grid point (left
    Riemann sum). *)
Fixpoint cumulative_area (acc : num) (curve grid : list num) : list num :=
  match curve, grid with
  | c :: curve', g :: grid' =>
      acc :: match grid' with
             | [] => []
             | g' :: _ => cumulative_area (nadd acc (nmul c (nsub g' g))) curve' grid'
             end
  | _, _ => []
  end.

Definition is_zero (x : num) : bool :=
  match x with Fin q => Qeq_bool q 0 | NaN => false end.

(** Modelled from the spec: Ratio(i) of
    [define_cumulative_area_ratio_function], 0 when both areas are 0. *)
Definition area_ratio (a b : num) : num :=
  if is_zero a && is_zero b then Fin 0 else ndiv a (nadd a b).

Definition zip_with_num (f : num -> num -> num) (l k : list num) : list num :=
  List.map (fun p : num * num => f p.1 p.2) (List.combine l k).

(** Modelled from the spec: [define_cumulative_area_ratio_function] of
    ccal/mathematics/equation.py is not among the sources.  Ratio(i) =
    cumA(i) / (cumA(i) + cumB(i)), 0 when both areas are 0; direction "+"
    reports Ratio(i) and direction "-" reports 1 - Ratio(i). *)
Definition spec_define_cumulative_area_ratio_function
  (curveA curveB grid : list num) (d : direction) : result (list num) :=
  let ratio := zip_with_num area_ratio
                 (cumulative_area (Fin 0) curveA grid)
                 (cumulative_area (Fin 0) curveB grid) in
  Ok (match d with
      | Plus => ratio
      | Minus => List.map (fun r => nsub (Fin 1) r) ratio
      end).

(** ** The essentiality pipeline *)

Section Pipeline.

(** [ACSkewT_gen().pdf(x, df, shape, loc=location, scale=scale)] at one
    point [x]; on an array it is applied cell by cell. *)
Variable pdf : num -> num -> num -> num -> num -> num.

(** [ACSkewT_gen().fit(f_v)]: (df, shape, location, scale), or an
    exception. *)
Variable skew_t_fit : list num -> result (num * num * num * num).

(** [histogram(vector, bins=n_bins)[0].max()] *)
Variable histogram_max : list num -> nat -> result num.

(** [feature_x_fit.sort_values('Shape')] on the rows of the table. *)
Variable sort_values_Shape : list row -> list row.

(** ccal/mathematics/equation.py *)
Variable define_x_coordinates_for_reflection :
  list num -> list num -> result (list num).
Variable define_cumulative_area_ratio_function :
  list num -> list num -> list num -> direction -> result (list num).

Definition skew_t_pdf (x : list num) (df shape location scale : num) : list num :=
  List.map (fun x_i => pdf x_i df shape location scale) x.

(** [['+', '-'][shape > 0]] *)
Definition direction_of_shape (shape : num) : direction :=
  List.nth (Nat.b2n (ngt shape (Fin 0))) [Plus; Minus] Plus.

(** *** make_essentiality_matrix *)

(** Lines 377-387: the grid and the curve of essentiality indices of one
    feature. *)
Definition make_x_grids (vector : list num) (n_x_grids : Z) : result (list num) :=
  let* lo := array_min vector in
  let* hi := array_max vector in
  linspace lo hi n_x_grids.

Definition make_essentiality_indices (x_grids : list num)
  (df shape location scale : num) : result (list num) :=
  let pdf_ := skew_t_pdf x_grids df shape location scale in
  let* x_grids_for_reflection := define_x_coordinates_for_reflection pdf_ x_grids in
  let pdf_reflected := skew_t_pdf x_grids_for_reflection df shape location scale in
  define_cumulative_area_ratio_function pdf_ pdf_reflected x_grids
    (direction_of_shape shape).

(** Lines 389-390: one cell of the output. *)
Definition nearest (x_grids : list num) (v : num) : result nat :=
  argmin (List.map (fun g => nabs (nsub g v)) x_grids).

Definition essentiality_cell (factor shape : num)
  (x_grids essentiality_indices : list num) (v : num) : result num :=
  let* j := nearest x_grids v in
  let* e := getitem essentiality_indices j in
  Ok (nmul (nmul factor (sign shape)) e).

Definition essentiality_row (n_x_grids : Z) (factor : num) (vector : list num)
  (df shape location scale : num) : result (list num) :=
  let* x_grids := make_x_grids vector n_x_grids in
  let* essentiality_indices :=
    make_essentiality_indices x_grids df shape location scale in
  mapM (essentiality_cell factor shape x_grids essentiality_indices) vector.

(** Lines 375-390 for one row [(g, (n, df, shape, location, scale))] of
    [gene_x_fit.iterrows()]. *)
Definition feature_row (n_x_grids : Z) (factor : num) (gene_x_sample : DataFrame)
  (fit : row) : result (list num) :=
  match fit.2 with
  | [n; df; shape; location; scale] =>
      let* s := ix_row gene_x_sample fit.1 in
      essentiality_row n_x_grids factor (data s) df shape location scale
  | _ => Raise (ValueError "not enough or too many values to unpack (expected 5)")
  end.

(** The loop over [enumerate(gene_x_fit.iterrows())], writing row [i] of
    the preallocated matrix. *)
Fixpoint fill_rows (n_x_grids : Z) (factor : num) (gene_x_sample : DataFrame)
  (i : nat) (fits : list row) (essentiality_matrix : list (list num))
  : result (list (list num)) :=
  match fits with
  | [] => Ok essentiality_matrix
  | fit :: fits' =>
      let* r := feature_row n_x_grids factor gene_x_sample fit in
      let* m := setitem_row essentiality_matrix i r in
      fill_rows n_x_grids factor gene_x_sample (S i) fits' m
  end.

(** [feature_x_sample.index & feature_x_fit.index]: the labels of the
    fit table that the score matrix carries too, in the order of the fit
    table. *)
Definition common_indices (feature_x_sample feature_x_fit : DataFrame) : list string :=
  List.filter (fun l => bool_decide (l ∈ index feature_x_sample)) (index feature_x_fit).

Definition make_essentiality_matrix (uninit : nat -> nat -> num)
  (feature_x_sample feature_x_fit : DataFrame) (n_x_grids : Z) (factor : num)
  : result DataFrame :=
  let common := common_indices feature_x_sample feature_x_fit in
  let gene_x_sample := ix_rows feature_x_sample common in
  let gene_x_fit := ix_rows feature_x_fit common in
  let essentiality_matrix :=
    empty uninit (length (rows gene_x_sample)) (length (columns gene_x_sample)) in
  let* filled :=
    fill_rows n_x_grids factor gene_x_sample 0 (rows gene_x_fit) essentiality_matrix in
  Ok (mkDataFrame (columns gene_x_sample) (List.combine (index gene_x_sample) filled)).

(** *** _plot_essentiality *)

(** [vector.min()] and [vector.max()] of a pandas Series skip NaN. *)
Definition series_min (v : list num) : num :=
  match dropna v with [] => NaN | x :: v' => List.fold_left minimum v' x end.

Definition series_max (v : list num) : num :=
  match dropna v with [] => NaN | x :: v' => List.fold_left maximum v' x end.

(** Lines 229-262: the curve of essentiality indices that the figure
    shows; the drawing itself is left out. *)
Definition _plot_essentiality (vector : list num) (df shape location scale : num)
  (n_bins : nat) (n_xgrids : Z) : result (list num) :=
  let* x_grids := linspace (series_min vector) (series_max vector) n_xgrids in
  let pdf_ := skew_t_pdf x_grids df shape location scale in
  let* histogram_max_ := histogram_max vector n_bins in
  let* pdf_max := array_max pdf_ in
  let scale_factor := ndiv histogram_max_ pdf_max in
  let pdf_ := List.map (fun y => nmul y scale_factor) pdf_ in
  let* x_grids_for_reflection := define_x_coordinates_for_reflection pdf_ x_grids in
  let pdf_reflected :=
    List.map (fun y => nmul y scale_factor)
      (skew_t_pdf x_grids_for_reflection df shape location scale) in
  define_cumulative_area_ratio_function pdf_ pdf_reflected x_grids
    (direction_of_shape shape).

(** *** fit_essentiality *)

(** The [features] argument: [None], one label, or a list of labels.
    Labels are strings, and the tables are given in memory, not as paths. *)
Inductive selection : Type :=
| SelNone
| SelOne (f : string)
| SelMany (fs : list string).

(** [if features:] *)
Definition selection_truth (features : selection) : bool :=
  match features with
  | SelNone => false
  | SelOne f => truthy f
  | SelMany fs => match fs with [] => false | _ => true end
  end.

Definition selection_list (features : selection) : list string :=
  match features with
  | SelNone => []
  | SelOne f => [f]
  | SelMany fs => fs
  end.

Definition SelectionError : exn :=
  ValueError "All of the selected features are not in the feature_x_sample indices.".

(** Lines 47-59. *)
Definition select_features (feature_x_sample : DataFrame) (features : selection)
  : result DataFrame :=
  if selection_truth features then
    let selected := dropna_all (ix_rows feature_x_sample (selection_list features)) in
    if any (index selected) then Ok selected else Raise SelectionError
  else Ok feature_x_sample.

(** [feature_x_fit.ix[f_i, :] = n, df, shape, location, scale] *)
Definition set_fit (f_i : string) (params : list num) (feature_x_fit : list row)
  : list row :=
  List.map (fun r : row => if has_label f_i r then (r.1, params) else r) feature_x_fit.

Definition fit_columns : list string :=
  ["N"; "DF"; "Shape"; "Location"; "Scale"]%string.

(** The loop of lines 64-86 over [feature_x_sample.iterrows()]. *)
Fixpoint fit_rows (feature_x_sample bar_df : DataFrame) (plot : bool) (n_xgrids : Z)
  (todo : list row) (feature_x_fit : list row) : result (list row) :=
  match todo with
  | [] => Ok feature_x_fit
  | (f_i, f_v) :: todo' =>
      let cleaned := dropna f_v in
      let n := of_nat (length cleaned) in
      let* fitted := skew_t_fit cleaned in
      let '(df, shape, location, scale) := fitted in
      let feature_x_fit := set_fit f_i [n; df; shape; location; scale] feature_x_fit in
      let* _ :=
        if plot then
          let* vector := ix_row feature_x_sample f_i in
          let* bars := get_amp_mut_del bar_df f_i in
          let* curve :=
            _plot_essentiality (data vector) df shape location scale 50 n_xgrids in
          Ok tt
        else Ok tt in
      fit_rows feature_x_sample bar_df plot n_xgrids todo' feature_x_fit
  end.

(** Lines 61-96 with [directory_path=None] (nothing is saved), on the
    matrix that the selection left. *)
Definition fit_features (feature_x_sample bar_df : DataFrame)
  (n_xgrids : Z) (plot : bool) : result DataFrame :=
  let feature_x_fit :=
    List.map (fun f => (f, List.map (fun _ => NaN) fit_columns)) (index feature_x_sample) in
  let* feature_x_fit :=
    fit_rows feature_x_sample bar_df plot n_xgrids (rows feature_x_sample) feature_x_fit in
  Ok (mkDataFrame fit_columns (sort_values_Shape feature_x_fit)).

Definition fit_essentiality (feature_x_sample bar_df : DataFrame)
  (features : selection) (n_xgrids : Z) (plot : bool) : result DataFrame :=
  let* feature_x_sample := select_features feature_x_sample features in
  fit_features feature_x_sample bar_df n_xgrids plot.

End Pipeline.

(** ** Notions used by the statements *)

(** Every row has one cell per column. *)
Definition rectangular (df : DataFrame) : Prop :=
  Forall (fun r : row => length r.2 = length (columns df)) (rows df).

(** The rows of [df] that carry the label [f] hold no value at all. *)
Definition all_missing (df : DataFrame) (f : string) : Prop :=
  forall v, (f, v) ∈ rows df -> dropna v = [].

(** [df] without the rows labelled [f]. *)
Definition drop_feature (f : string) (df : DataFrame) : DataFrame :=
  mkDataFrame (columns df) (List.filter (fun r => negb (has_label f r)) (rows df)).

(** What [get_amp_mut_del] returns for one suffix: the values of the row
    if the table has it and missing values otherwise; the name of the row
    if the table has it, and otherwise the name given last to the one
    substitute series, that of the last suffix without a row. *)
Definition present (tbl : DataFrame) (l : string) : bool :=
  bool_decide (l ∈ index tbl).

Definition values_of (tbl : DataFrame) (l : string) : list num :=
  match ix_row tbl l with Ok s => data s | Raise _ => nan_row tbl end.

Definition substitute_name (tbl : DataFrame) (gene : string) : string :=
  if negb (present tbl (gene +:+ "_DEL")) then gene +:+ "_DEL"
  else if negb (present tbl (gene +:+ "_MUT")) then gene +:+ "_MUT"
  else gene +:+ "_AMP".

Definition row_name (tbl : DataFrame) (gene suffix : string) : string :=
  if present tbl (gene +:+ suffix) then gene +:+ suffix else substitute_name tbl gene.

(** The row of the fit table for a score vector [v] fitted with the
    parameters [p] = (df, shape, location, scale). *)
Definition record_of (v : list num) (p : num * num * num * num) : list num :=
  [of_nat (length (dropna v)); p.1.1.1; p.1.1.2; p.1.2; p.2].

(** The Shape cell of a row of the fit table. *)
Definition Shape (r : row) : num := List.nth 2 r.2 NaN.

(** Ascending order of Shape, missing values last. *)
Definition shape_le (a b : num) : bool := isnan b || nle a b.

Definition sorted_by_Shape (t : list row) : Prop :=
  forall i j r1 r2, (i < j)%nat -> t !! i = Some r1 -> t !! j = Some r2 ->
                    shape_le (Shape r1) (Shape r2) = true.

(** What the library promises of [sort_values]: the same rows, in
    ascending order of the key.  The default [kind='quicksort'] promises
    nothing on the order of rows with equal keys. *)
Definition sort_values_contract (sort : list row -> list row) : Prop :=
  forall t, Permutation (sort t) t /\ sorted_by_Shape (sort t).

(** ** Instances for the examples *)

(** A bell-shaped curve around [location]: 1 / (1 + ((x - location) / scale)^2). *)
Definition bell_pdf (x df shape location scale : num) : num :=
  let z := ndiv (nsub x location) scale in
  ndiv (Fin 1) (nadd (Fin 1) (nmul z z)).

(** A fitter that reads the parameters off the data: the shape is the
    first value. *)
Definition first_value_fit (v : list num) : result (num * num * num * num) :=
  match v with
  | [] => Raise (ValueError "fit of an empty vector")
  | x :: _ => Ok (Fin 1, x, Fin 0, Fin 1)
  end.

Definition count_histogram_max (v : list num) (n_bins : nat) : result num :=
  Ok (of_nat (length (dropna v))).

(** Insertion sorts on Shape.  [insert_after] puts a row behind the rows
    of equal Shape, [insert_before] in front of them. *)
Fixpoint insert_after (r : row) (t : list row) : list row :=
  match t with
  | [] => [r]
  | r' :: t' =>
      if shape_le (Shape r') (Shape r) then r' :: insert_after r t' else r :: t
  end.

Fixpoint insert_before (r : row) (t : list row) : list row :=
  match t with
  | [] => [r]
  | r' :: t' =>
      if shape_le (Shape r) (Shape r') then r :: t else r' :: insert_before r t'
  end.

Definition sort_keeping_ties (t : list row) : list row :=
  List.fold_left (fun acc r => insert_after r acc) t [].

Definition sort_reversing_ties (t : list row) : list row :=
  List.fold_left (fun acc r => insert_before r acc) t [].

Definition zeros (i j : nat) : num := Fin 0.
Definition sevens (i j : nat) : num := Fin 7.

Definition no_bars : DataFrame := mkDataFrame ["s1"; "s2"; "s3"]%string [].

Definition genex_table : DataFrame :=
  mkDataFrame ["s1"; "s2"]%string [("GENEX_MUT"%string, [Fin 1; Fin 0])].

(** Three samples of two genes, and fits for [A] and for a gene [C] that
    the scores do not have. *)
Definition scores : DataFrame :=
  mkDataFrame ["s1"; "s2"; "s3"]%string
    [("A"%string, [Fin 0; Fin 1; Fin 2]); ("B"%string, [Fin (-1); Fin 0; Fin 4])].

Definition fits : DataFrame :=
  mkDataFrame ["N"; "DF"; "Shape"; "Location"; "Scale"]%string
    [("C"%string, [Fin 3; Fin 1; Fin (-1); Fin 0; Fin 1]);
     ("A"%string, [Fin 3; Fin 1; Fin 2; Fin 1; Fin 1])].

Definition fits_of_C : DataFrame :=
  mkDataFrame ["N"; "DF"; "Shape"; "Location"; "Scale"]%string
    [("C"%string, [Fin 3; Fin 1; Fin (-1); Fin 0; Fin 1])].

(** One gene, fitted with Shape 0; and the same with a Scale of 0, where
    the density is not defined. *)
Definition scores_of_A : DataFrame :=
  mkDataFrame ["s1"; "s2"; "s3"]%string [("A"%string, [Fin 0; Fin 1; Fin 2])].

Definition flat_fit_of_A : DataFrame :=
  mkDataFrame ["N"; "DF"; "Shape"; "Location"; "Scale"]%string
    [("A"%string, [Fin 3; Fin 1; Fin 0; Fin 1; Fin 1])].

Definition degenerate_fit_of_A : DataFrame :=
  mkDataFrame ["N"; "DF"; "Shape"; "Location"; "Scale"]%string
    [("A"%string, [Fin 3; Fin 1; Fin 0; Fin 1; Fin 0])].

(** A gene without any score, next to one with scores. *)
Definition scores_with_empty_G : DataFrame :=
  mkDataFrame ["s1"; "s2"]%string
    [("G"%string, [NaN; NaN]); ("H"%string, [Fin 1; Fin 3])].

(** Four genes whose first scores, the shapes that [first_value_fit]
    returns, are 0.5, -0.2, 0.5 and -0.9. *)
Definition scores_with_ties : DataFrame :=
  mkDataFrame ["s1"; "s2"]%string
    [("f1"%string, [Fin (1 # 2); Fin 1]); ("f2"%string, [Fin (-1 # 5); Fin 1]);
     ("f3"%string, [Fin (1 # 2); Fin 2]); ("f4"%string, [Fin (-9 # 10); Fin 1])].

(** Eighteen genes with the same first score, 0.5. *)
Definition scores_all_tied : DataFrame :=
  mkDataFrame ["s1"; "s2"]%string
    [("g01"%string, [Fin (1 # 2); Fin 1]);
     ("g02"%string, [Fin (1 # 2); Fin 2]);
     ("g03"%string, [Fin (1 # 2); Fin 3]);
     ("g04"%string, [Fin (1 # 2); Fin 4]);
     ("g05"%string, [Fin (1 # 2); Fin 5]);
     ("g06"%string, [Fin (1 # 2); Fin 6]);
     ("g07"%string, [Fin (1 # 2); Fin 7]);
     ("g08"%string, [Fin (1 # 2); Fin 8]);
     ("g09"%string, [Fin (1 # 2); Fin 9]);
     ("g10"%string, [Fin (1 # 2); Fin 10]);
     ("g11"%string, [Fin (1 # 2); Fin 11]);
     ("g12"%string, [Fin (1 # 2); Fin 12]);
     ("g13"%string, [Fin (1 # 2); Fin 13]);
     ("g14"%string, [Fin (1 # 2); Fin 14]);
     ("g15"%string, [Fin (1 # 2); Fin 15]);
     ("g16"%string, [Fin (1 # 2); Fin 16]);
     ("g17"%string, [Fin (1 # 2); Fin 17]);
     ("g18"%string, [Fin (1 # 2); Fin 18])].

Definition build := make_essentiality_matrix bell_pdf
  spec_define_x_coordinates_for_reflection spec_define_cumulative_area_ratio_function.

Definition fitAll (sort : list row -> list row) :=
  fit_essentiality bell_pdf first_value_fit count_histogram_max sort
    spec_define_x_coordinates_for_reflection spec_define_cumulative_area_ratio_function.

(** * More of the code *)

(** ** plot_essentiality *)

Section Plotting.

Variable pdf : num -> num -> num -> num -> num -> num.
Variable histogram_max : list num -> nat -> result num.
Variable define_x_coordinates_for_reflection :
  list num -> list num -> result (list num).
Variable define_cumulative_area_ratio_function :
  list num -> list num -> list num -> direction -> result (list num).

(** Lines 126-141 for one row [(f_i, fit)] of
    [feature_x_fit.ix[features, :].iterrows()]: the label of the figure and
    the curve of essentiality indices it shows. *)
Definition plot_feature (feature_x_sample bar_df : DataFrame) (n_xgrids : Z)
  (fit : row) : result (string * list num) :=
  match fit.2 with
  | [n; df; shape; location; scale] =>
      let* vector := ix_row feature_x_sample fit.1 in
      let* bars := get_amp_mut_del bar_df fit.1 in
      let* curve :=
        _plot_essentiality pdf histogram_max define_x_coordinates_for_reflection
          define_cumulative_area_ratio_function
          (data vector) df shape location scale 50 n_xgrids in
      Ok (fit.1, curve)
  | _ => Raise (ValueError "not enough or too many values to unpack (expected 5)")
  end.

(** [if features is None: features = feature_x_sample.index], and one
    label becomes a list of one. *)
Definition features_to_plot (feature_x_sample : DataFrame) (features : selection)
  : list string :=
  match features with
  | SelNone => index feature_x_sample
  | SelOne f => [f]
  | SelMany fs => fs
  end.

(** [plot_essentiality] with [directory_path=None]: the figures, in the
    order they are drawn. *)
Definition plot_essentiality (feature_x_sample feature_x_fit bar_df : DataFrame)
  (features : selection) (n_xgrids : Z) : result (list (string * list num)) :=
  mapM (plot_feature feature_x_sample bar_df n_xgrids)
    (rows (ix_rows feature_x_fit (features_to_plot feature_x_sample features))).

End Plotting.

(** Some row of [df] labelled [f] holds a score. *)
Definition has_scores (df : DataFrame) (f : string) : bool :=
  existsb (fun r : row => has_label f r && existsb notnan r.2) (rows df).

(** The cells of [out] are those of [unit], times [factor]. *)
Definition scaled_by (factor : num) (unit out : DataFrame) : Prop :=
  columns out = columns unit /\
  Forall2 (fun r1 r : row =>
             r.1 = r1.1 /\ Forall2 (fun c1 c => num_eq c (nmul factor c1)) r1.2 r.2)
    (rows unit) (rows out).

(** ** ccal/support/d2.py *)

(** [a[mask]] for a boolean array [mask]: the cells of [a] where [mask]
    holds; the two must have the same length. *)
Fixpoint select {A} (mask : list bool) (a : list A) : list A :=
  match mask, a with
  | b :: mask', x :: a' => if b then x :: select mask' a' else select mask' a'
  | _, _ => []
  end.

Definition getitem_mask {A} (a : list A) (mask : list bool) : result (list A) :=
  if (length mask =? length a)%nat then Ok (select mask a) else Raise IndexError.

(** *** drop_nan_columns *)

(** [not_nan_filter &= mask], in place: [mask] has the length of the
    filter, or one cell, which numpy broadcasts. *)
Definition iand (not_nan_filter mask : list bool) : result (list bool) :=
  if (length mask =? length not_nan_filter)%nat
  then Ok (List.map (fun p : bool * bool => p.1 && p.2) (List.combine not_nan_filter mask))
  else match mask with
       | [b] => Ok (List.map (fun x => x && b) not_nan_filter)
       | _ => Raise (ValueError "operands could not be broadcast together")
       end.

(** The loop [for a in arrays: not_nan_filter &= ~isnan(a)]. *)
Fixpoint and_not_nan (not_nan_filter : list bool) (arrays : list (list num))
  : result (list bool) :=
  match arrays with
  | [] => Ok not_nan_filter
  | a :: arrays' =>
      let* not_nan_filter := iand not_nan_filter (List.map notnan a) in
      and_not_nan not_nan_filter arrays'
  end.

Definition drop_nan_columns (arrays : list (list num)) : result (list (list num)) :=
  match arrays with
  | [] => Raise IndexError
  | a0 :: _ =>
      let* not_nan_filter := and_not_nan (List.map (fun _ => true) a0) arrays in
      mapM (fun a => getitem_mask a not_nan_filter) arrays
  end.

(** *** split_dataframe *)

(** [df.iloc[start:stop, :]] *)
Definition iloc_rows (df : DataFrame) (start stop : nat) : DataFrame :=
  mkDataFrame (columns df) (take (stop - start) (drop start (rows df))).

(** The messages are given without the numbers that the code prints in
    them.  [df.ix[i:]] slices by position, the row labels being strings. *)
Definition split_dataframe (df : DataFrame) (n_split : Z) : result (list DataFrame) :=
  let n_rows := Z.of_nat (length (rows df)) in
  if (n_rows <? n_split)%Z
  then Raise (ValueError "n_split ({}) can't be greater than the number of rows ({}).")
  else if (n_split <=? 0)%Z
  then Raise (ValueError "n_split ({}) can't be less than 0.")
  else
    let n := Z.to_nat (n_rows / n_split) in
    let splits :=
      List.map (fun i => iloc_rows df (i * n) ((i + 1) * n)) (seq 0 (Z.to_nat n_split)) in
    let i := (n * Z.to_nat n_split)%nat in
    Ok (if (i <? length (rows df))%nat
        then splits ++ [mkDataFrame (columns df) (drop i (rows df))]
        else splits).

(** *** drop_uniform_slice_from_dataframe *)

(** [x == value] on cells: NaN equals nothing. *)
Definition cell_eqb (x value : num) : bool :=
  match x, value with
  | Fin p, Fin q => Qeq_bool p q
  | _, _ => false
  end.

Definition column_cells (df : DataFrame) (j : nat) : list num :=
  List.map (fun r : row => List.nth j r.2 NaN) (rows df).

(** [(df == value).all(axis=0)], one truth value per column, and
    [(df == value).all(axis=1)], one per row. *)
Definition all_axis0 (df : DataFrame) (value : num) : list bool :=
  List.map (fun j => forallb (fun x => cell_eqb x value) (column_cells df j))
    (seq 0 (length (columns df))).

Definition all_axis1 (df : DataFrame) (value : num) : list bool :=
  List.map (fun r : row => forallb (fun x => cell_eqb x value) r.2) (rows df).

(** [None] stands for Python's [None], returned for any other axis. *)
Definition drop_uniform_slice_from_dataframe (df : DataFrame) (value : num) (axis : Z)
  : option DataFrame :=
  if (axis =? 0)%Z then
    let dropped := all_axis0 df value in
    let kept := List.map negb dropped in
    Some (mkDataFrame (select kept (columns df))
            (List.map (fun r : row => (r.1, select kept r.2)) (rows df)))
  else if (axis =? 1)%Z then
    let dropped := all_axis1 df value in
    Some (mkDataFrame (columns df) (select (List.map negb dropped) (rows df)))
  else None.

(** *** get_top_and_bottom_indices *)

(** A threshold is a Python int or a float that is a number. *)
Inductive number : Type :=
| Int (z : Z)
| Float (q : Q).

Definition number_value (t : number) : num :=
  match t with Int z => of_Z z | Float q => Fin q end.

(** [df.ix[:, column_name]] *)
Definition ix_column (df : DataFrame) (column_name : string) : result (list num) :=
  match List.filter (fun p : nat * string => bool_decide (p.2 = column_name))
          (List.combine (seq 0 (length (columns df))) (columns df)) with
  | [] => Raise KeyError
  | [p] => Ok (column_cells df p.1)
  | _ => Raise NotModelled
  end.

Section TopAndBottom.

(** [column.quantile(q)] of pandas. *)
Variable quantile : list num -> num -> result num.

(** Lines 50-59, the body of [if threshold < 1:]: the labels picked by
    the quantiles and the threshold, changed or not. *)
Definition quantile_selection (df : DataFrame) (column_name : string)
  (threshold : number) (max_n : option Z) : result (list string * number) :=
  let* column := ix_column df column_name in
  let* q_top := quantile column (number_value threshold) in
  let is_top := List.map (fun x => nge x q_top) column in
  let* q_bottom := quantile column (nsub (Fin 1) (number_value threshold)) in
  let is_bottom := List.map (fun x => nle x q_bottom) column in
  let mask := List.map (fun p : bool * bool => p.1 || p.2) (List.combine is_top is_bottom) in
  let* top_and_bottom := getitem_mask (index df) mask in
  let threshold :=
    match max_n with
    | Some k =>
        if negb (k =? 0)%Z && (k <? Z.of_nat (length top_and_bottom))%Z
        then Int (k / 2) else threshold
    | None => threshold
    end in
  Ok (top_and_bottom, threshold).

(** [get_top_and_bottom_indices].  A float threshold of 1 or more makes
    the slices of lines 63 fail with a TypeError, which is not among the
    exceptions here: that run is [NotModelled]. *)
Definition get_top_and_bottom_indices (df : DataFrame) (column_name : string)
  (threshold : number) (max_n : option Z) : result (list string) :=
  let lt_one := match threshold with
                | Int z => (z <? 1)%Z
                | Float q => nlt (Fin q) (Fin 1)
                end in
  let* state :=
    if lt_one then quantile_selection df column_name threshold max_n
    else Ok ([], threshold) in
  let '(top_and_bottom, threshold) := state in
  let n_rows := Z.of_nat (length (rows df)) in
  match threshold with
  | Int k =>
      if (1 <=? k)%Z then
        if (2 * k <=? n_rows)%Z
        then Ok (take (Z.to_nat k) (index df)
                 ++ drop (length (rows df) - Z.to_nat k) (index df))
        else Ok (index df)
      else Ok top_and_bottom
  | Float q =>
      if nle (Fin 1) (Fin q) then
        if nle (nmul (Fin 2) (Fin q)) (of_Z n_rows) then Raise NotModelled
        else Ok (index df)
      else Ok top_and_bottom
  end.

End TopAndBottom.

(** Position [j] holds a value in every one of the arrays. *)
Definition present_at (arrays : list (list num)) (j : nat) : bool :=
  forallb (fun a => notnan (List.nth j a NaN)) arrays.

(** ** ccal/single_sample_gseas.py *)

(** [enumerate(l)] *)
Definition enumerate {A} (l : list A) : list (nat * A) :=
  List.combine (seq 0 (length l)) l.

(** [df.items()]: the columns, each as a Series over the row labels. *)
Definition items (df : DataFrame) : list (string * Series) :=
  List.map (fun p : nat * string =>
              (p.2, mkSeries (Some p.2) (index df) (column_cells df p.1)))
    (enumerate (columns df)).

(** [numpy.full((n_rows, n_columns), fill_value)] *)
Definition full (n_rows n_columns : nat) (fill_value : num) : list (list num) :=
  replicate n_rows (replicate n_columns fill_value).

(** [a[i, j] = v] *)
Definition setitem_cell (a : list (list num)) (i j : nat) (v : num)
  : result (list (list num)) :=
  match a !! i with
  | None => Raise IndexError
  | Some r =>
      if (j <? length r)%nat then Ok (<[i := <[j := v]> r]> a) else Raise IndexError
  end.

Section SingleSampleGSEAs.

(** A row of the gene-set table and the statistic are handed on as they
    are to [single_sample_gsea] of ccal/single_sample_gsea.py. *)
Context {gene_set : Type} {statistic : Type}.
Variable single_sample_gsea : Series -> gene_set -> statistic -> result num.

(** The inner loop, over the gene sets, for one sample. *)
Fixpoint score_gene_sets (score : list (list num)) (sample_index : nat)
  (gene_score : Series) (gene_sets : list (nat * (string * gene_set)))
  (st : statistic) : result (list (list num)) :=
  match gene_sets with
  | [] => Ok score
  | (gene_set_index, (_, gene_set_genes)) :: gene_sets' =>
      let* v := single_sample_gsea gene_score gene_set_genes st in
      let* score := setitem_cell score gene_set_index sample_index v in
      score_gene_sets score sample_index gene_score gene_sets' st
  end.

(** The outer loop, over the samples. *)
Fixpoint score_samples (score : list (list num)) (samples : list (nat * (string * Series)))
  (gene_sets : list (string * gene_set)) (st : statistic) : result (list (list num)) :=
  match samples with
  | [] => Ok score
  | (sample_index, (_, gene_score)) :: samples' =>
      let* score := score_gene_sets score sample_index gene_score (enumerate gene_sets) st in
      score_samples score samples' gene_sets st
  end.

Definition _single_sample_gseas (gene_x_sample : DataFrame)
  (gene_sets : list (string * gene_set)) (st : statistic) : result DataFrame :=
  let score := full (length gene_sets) (length (columns gene_x_sample)) NaN in
  let* score := score_samples score (enumerate (items gene_x_sample)) gene_sets st in
  Ok (mkDataFrame (columns gene_x_sample) (List.combine gene_sets.*1 score)).

(** The table of scores written without the loops and the array: the
    scores of each sample on every gene set, sample after sample, and the
    table whose row [i] holds the [i]-th score of each sample. *)
Definition sample_scores (gene_sets : list (string * gene_set)) (st : statistic)
  (sample : string * Series) : result (list num) :=
  mapM (fun s : string * gene_set => single_sample_gsea sample.2 s.2 st) gene_sets.

Definition score_table (gene_x_sample : DataFrame)
  (gene_sets : list (string * gene_set)) (st : statistic) : result DataFrame :=
  let* by_sample := mapM (sample_scores gene_sets st) (items gene_x_sample) in
  Ok (mkDataFrame (columns gene_x_sample)
        (List.combine gene_sets.*1
           (List.map (fun i => List.map (fun vs => List.nth i vs NaN) by_sample)
              (seq 0 (length gene_sets))))).

End SingleSampleGSEAs.

(** [score] after the scores [vs] of sample [j], one per row, are written
    into it, and after those of the samples from [j] on. *)
Definition write_column (j : nat) (score : list (list num)) (vs : list num)
  : list (list num) :=
  zip_with (fun old v => <[j := v]> old) score vs.

Fixpoint write_columns (j : nat) (score : list (list num)) (by_sample : list (list num))
  : list (list num) :=
  match by_sample with
  | [] => score
  | vs :: by_sample' => write_columns (S j) (write_column j score vs) by_sample'
  end.

(** The threshold is read as a quantile: it is below 1. *)
Definition is_quantile (t : number) : Prop :=
  match t with Int z => (z < 1)%Z | Float q => q < 1 end.

(** ** Instances for the examples of d2.py *)

(** [Series.quantile] by linear interpolation between the sorted values
    that are present. *)
Fixpoint insert_sorted (x : Q) (l : list Q) : list Q :=
  match l with
  | [] => [x]
  | y :: l' => if Qle_bool x y then x :: l else y :: insert_sorted x l'
  end.

Definition present_values (column : list num) : list Q :=
  flat_map (fun x => match x with Fin q => [q] | NaN => [] end) column.

Definition linear_quantile (column : list num) (q : num) : result num :=
  match q with
  | NaN => Raise (ValueError "percentiles should all be in the interval [0, 1]")
  | Fin q =>
      if Qle_bool 0 q && Qle_bool q 1 then
        match foldr insert_sorted [] (present_values column) with
        | [] => Ok NaN
        | v =>
            let pos := q * inject_Z (Z.of_nat (length v - 1)) in
            let floor := (Qnum pos / Z.pos (Qden pos))%Z in
            let lo := Z.to_nat floor in
            let below := List.nth lo v 0 in
            let above := List.nth (lo + 1) v below in
            Ok (Fin (Qred (below + (pos - inject_Z floor) * (above - below))))
        end
      else Raise (ValueError "percentiles should all be in the interval [0, 1]")
  end.

(** Five genes with a score each, one of them missing. *)
Definition ranking : DataFrame :=
  mkDataFrame ["score"]%string
    [("g1"%string, [Fin 5]); ("g2"%string, [Fin 1]); ("g3"%string, [NaN]);
     ("g4"%string, [Fin 3]); ("g5"%string, [Fin 2])].

(** Three measurements of four positions. *)
Definition measurements : list (list num) :=
  [[Fin 1; NaN; Fin 3; Fin 4]; [Fin 5; Fin 6; Fin 7; NaN]; [Fin 0; Fin 0; Fin 1; Fin 1]].

(** A table with a row and a column of zeros. *)
Definition with_zeros : DataFrame :=
  mkDataFrame ["s1"; "s2"; "s3"]%string
    [("a"%string, [Fin 0; Fin 1; Fin 2]); ("b"%string, [Fin 0; Fin 0; Fin 0]);
     ("c"%string, [Fin 0; NaN; Fin 4])].

(** Fits for the two genes of [scores_with_empty_G]. *)
Definition fits_of_G_and_H : DataFrame :=
  mkDataFrame ["N"; "DF"; "Shape"; "Location"; "Scale"]%string
    [("G"%string, [Fin 2; Fin 1; Fin 2; Fin 1; Fin 1]);
     ("H"%string, [Fin 2; Fin 1; Fin 2; Fin 1; Fin 1])].

Definition plotAll := plot_essentiality bell_pdf count_histogram_max
  spec_define_x_coordinates_for_reflection spec_define_cumulative_area_ratio_function.


(** * The grid and the nearest grid point in binary64 *)

(** The cells of the tables are float64 numbers, and numpy computes the
    grid and the distances to its points in IEEE 754 binary64, rounding to
    nearest, ties to even.  Where a property depends on the rounding,
    [make_essentiality_matrix] is modelled again with [spec_float], the
    specification of binary floating-point numbers of the Standard
    Library: signed zeros, infinities, NaN and finite numbers
    [(-1)^s * m * 2^e]. *)
Module Binary64.

Definition float : Type := spec_float.

Definition prec : Z := 53.
Definition emax : Z := 1024.

Definition add : float -> float -> float := SFadd prec emax.
Definition sub : float -> float -> float := SFsub prec emax.
Definition mul : float -> float -> float := SFmul prec emax.
Definition div : float -> float -> float := SFdiv prec emax.
Definition abs : float -> float := SFabs.

(** [x < y], [x <= y], [x == y]: false as soon as one side is NaN. *)
Definition ltb : float -> float -> bool := SFltb.
Definition leb : float -> float -> bool := SFleb.
Definition eqb : float -> float -> bool := SFeqb.

Definition isnan (x : float) : bool :=
  match x with S754_nan => true | _ => false end.

(** The float [m * 2^e], rounded if it has to be; [of_Z z] is [float(z)]. *)
Definition ldexp (m e : Z) : float := binary_normalize prec emax m e false.
Definition of_Z (z : Z) : float := ldexp z 0.
Definition of_nat (n : nat) : float := of_Z (Z.of_nat n).

Definition zero : float := S754_zero false.

(** [numpy.sign]: -1, 0 or 1, and NaN for NaN. *)
Definition sign (x : float) : float :=
  if ltb zero x then of_Z 1
  else if ltb x zero then of_Z (-1)
  else if eqb x zero then zero
  else x.

(** *** Tables of floats *)

Definition row : Type := string * list float.

Record DataFrame : Type := mkDataFrame {
  columns : list string;
  rows : list row
}.

Definition index (df : DataFrame) : list string := (rows df).*1.

Definition has_label (l : string) (r : row) : bool := bool_decide (r.1 = l).

(** [asarray(df.ix[label, :])] for one label. *)
Definition ix_row (df : DataFrame) (l : string) : result (list float) :=
  match List.filter (has_label l) (rows df) with
  | [] => Raise KeyError
  | [r] => Ok r.2
  | _ => Raise NotModelled
  end.

(** [df.ix[labels, :]] for a list of labels. *)
Definition nan_row (df : DataFrame) : list float :=
  List.map (fun _ => S754_nan) (columns df).

Definition ix_label (df : DataFrame) (l : string) : list row :=
  match List.filter (has_label l) (rows df) with
  | [] => [(l, nan_row df)]
  | rs => rs
  end.

Definition ix_rows (df : DataFrame) (ls : list string) : DataFrame :=
  mkDataFrame (columns df) (List.flat_map (ix_label df) ls).

(** *** numpy *)

Definition minimum (a b : float) : float :=
  if isnan a then a else if isnan b then b else if ltb b a then b else a.

Definition maximum (a b : float) : float :=
  if isnan a then a else if isnan b then b else if ltb a b then b else a.

Definition array_min (a : list float) : result float :=
  match a with
  | [] => Raise (ValueError "zero-size array to reduction operation minimum which has no identity")
  | x :: a' => Ok (List.fold_left minimum a' x)
  end.

Definition array_max (a : list float) : result float :=
  match a with
  | [] => Raise (ValueError "zero-size array to reduction operation maximum which has no identity")
  | x :: a' => Ok (List.fold_left maximum a' x)
  end.

(** [numpy.linspace(start, stop, num)]:
    [y = arange(0, num); delta = stop - start];
    for [num > 1], [step = delta / (num - 1)] and [y = y * step], or
    [y = (y / (num - 1)) * delta] when [step == 0], otherwise
    [y = y * delta]; then [y += start], and [y[-1] = stop] for [num > 1]. *)
Definition linspace (start stop : float) (n : Z) : result (list float) :=
  if (n <? 0)%Z then Raise (ValueError "Number of samples must be non-negative")
  else
    let num := Z.to_nat n in
    let d := of_nat (num - 1) in
    let y := List.map of_nat (seq 0 num) in
    let delta := sub stop start in
    let y :=
      if (1 <? num)%nat then
        let step := div delta d in
        if eqb step zero
        then List.map (fun y_i => mul (div y_i d) delta) y
        else List.map (fun y_i => mul y_i step) y
      else List.map (fun y_i => mul y_i delta) y in
    let y := List.map (fun y_i => add y_i start) y in
    Ok (if (1 <? num)%nat then <[(num - 1)%nat := stop]> y else y).

(** [numpy.argmin]: the first cell that is NaN if there is one, the first
    occurrence of the least cell otherwise. *)
Fixpoint argmin_from (mp : float) (min_ind i : nat) (a : list float) : nat :=
  match a with
  | [] => min_ind
  | x :: a' =>
      if negb (leb mp x)
      then if isnan x then i else argmin_from x i (S i) a'
      else argmin_from mp min_ind (S i) a'
  end.

Definition argmin (a : list float) : result nat :=
  match a with
  | [] => Raise (ValueError "attempt to get argmin of an empty sequence")
  | x :: a' => Ok (if isnan x then 0%nat else argmin_from x 0 1 a')
  end.

(** [numpy.argmax], likewise. *)
Fixpoint argmax_from (mp : float) (max_ind i : nat) (a : list float) : nat :=
  match a with
  | [] => max_ind
  | x :: a' =>
      if negb (leb x mp)
      then if isnan x then i else argmax_from x i (S i) a'
      else argmax_from mp max_ind (S i) a'
  end.

Definition argmax (a : list float) : result nat :=
  match a with
  | [] => Raise (ValueError "attempt to get argmax of an empty sequence")
  | x :: a' => Ok (if isnan x then 0%nat else argmax_from x 0 1 a')
  end.

Definition getitem (a : list float) (j : nat) : result float :=
  match a !! j with
  | Some x => Ok x
  | None => Raise IndexError
  end.

Definition empty (uninit : nat -> nat -> float) (n_rows n_columns : nat)
  : list (list float) :=
  List.map (fun i => List.map (uninit i) (seq 0 n_columns)) (seq 0 n_rows).

(** [a[i, :] = r] *)
Definition setitem_row (a : list (list float)) (i : nat) (r : list float)
  : result (list (list float)) :=
  match a !! i with
  | None => Raise IndexError
  | Some old =>
      if (length r =? length old)%nat then Ok (<[i := r]> a)
      else match r with
           | [x] => Ok (<[i := List.map (fun _ => x) old]> a)
           | _ => Raise (ValueError "could not broadcast input array")
           end
  end.

(** *** make_essentiality_matrix *)

Section Pipeline.

(** statsmodels' density and the two helpers of
    ccal/mathematics/equation.py, on floats. *)
Variable pdf : float -> float -> float -> float -> float -> float.
Variable define_x_coordinates_for_reflection :
  list float -> list float -> result (list float).
Variable define_cumulative_area_ratio_function :
  list float -> list float -> list float -> direction -> result (list float).

Definition skew_t_pdf (x : list float) (df shape location scale : float) : list float :=
  List.map (fun x_i => pdf x_i df shape location scale) x.

(** [['+', '-'][shape > 0]] *)
Definition direction_of_shape (shape : float) : direction :=
  List.nth (Nat.b2n (ltb zero shape)) [Plus; Minus] Plus.

(** Line 378. *)
Definition make_x_grids (vector : list float) (n_x_grids : Z) : result (list float) :=
  let* lo := array_min vector in
  let* hi := array_max vector in
  linspace lo hi n_x_grids.

(** Lines 379-387. *)
Definition make_essentiality_indices (x_grids : list float)
  (df shape location scale : float) : result (list float) :=
  let pdf_ := skew_t_pdf x_grids df shape location scale in
  let* x_grids_for_reflection := define_x_coordinates_for_reflection pdf_ x_grids in
  let pdf_reflected := skew_t_pdf x_grids_for_reflection df shape location scale in
  define_cumulative_area_ratio_function pdf_ pdf_reflected x_grids
    (direction_of_shape shape).

(** Lines 389-390: [argmin(abs(x_grids - v))] and one cell of the row,
    [factor * sign(shape) * essentiality_indices[...]]. *)
Definition distances (x_grids : list float) (v : float) : list float :=
  List.map (fun g => abs (sub g v)) x_grids.

Definition nearest (x_grids : list float) (v : float) : result nat :=
  argmin (distances x_grids v).

Definition essentiality_cell (factor shape : float)
  (x_grids essentiality_indices : list float) (v : float) : result float :=
  let* j := nearest x_grids v in
  let* e := getitem essentiality_indices j in
  Ok (mul (mul factor (sign shape)) e).

Definition essentiality_row (n_x_grids : Z) (factor : float) (vector : list float)
  (df shape location scale : float) : result (list float) :=
  let* x_grids := make_x_grids vector n_x_grids in
  let* essentiality_indices :=
    make_essentiality_indices x_grids df shape location scale in
  mapM (essentiality_cell factor shape x_grids essentiality_indices) vector.

(** Lines 375-390 for one row [(g, (n, df, shape, location, scale))] of
    [gene_x_fit.iterrows()]. *)
Definition feature_row (n_x_grids : Z) (factor : float) (gene_x_sample : DataFrame)
  (fit : row) : result (list float) :=
  match fit.2 with
  | [n; df; shape; location; scale] =>
      let* vector := ix_row gene_x_sample fit.1 in
      essentiality_row n_x_grids factor vector df shape location scale
  | _ => Raise (ValueError "not enough or too many values to unpack (expected 5)")
  end.

Fixpoint fill_rows (n_x_grids : Z) (factor : float) (gene_x_sample : DataFrame)
  (i : nat) (fits : list row) (essentiality_matrix : list (list float))
  : result (list (list float)) :=
  match fits with
  | [] => Ok essentiality_matrix
  | fit :: fits' =>
      let* r := feature_row n_x_grids factor gene_x_sample fit in
      let* m := setitem_row essentiality_matrix i r in
      fill_rows n_x_grids factor gene_x_sample (S i) fits' m
  end.

Definition common_indices (feature_x_sample feature_x_fit : DataFrame) : list string :=
  List.filter (fun l => bool_decide (l ∈ index feature_x_sample)) (index feature_x_fit).

Definition make_essentiality_matrix (uninit : nat -> nat -> float)
  (feature_x_sample feature_x_fit : DataFrame) (n_x_grids : Z) (factor : float)
  : result DataFrame :=
  let common := common_indices feature_x_sample feature_x_fit in
  let gene_x_sample := ix_rows feature_x_sample common in
  let gene_x_fit := ix_rows feature_x_fit common in
  let essentiality_matrix :=
    empty uninit (length (rows gene_x_sample)) (length (columns gene_x_sample)) in
  let* filled :=
    fill_rows n_x_grids factor gene_x_sample 0 (rows gene_x_fit) essentiality_matrix in
  Ok (mkDataFrame (columns gene_x_sample) (List.combine (index gene_x_sample) filled)).

End Pipeline.

(** *** ccal/mathematics/equation.py, from the specification *)

(** Modelled from the spec: [define_x_coordinates_for_reflection] of
    ccal/mathematics/equation.py is not among the sources.  The mode is the
    grid point at the first maximum of the curve, and every grid point [x]
    is sent to [2 * mode - x]. *)
Definition spec_define_x_coordinates_for_reflection (curve grid : list float)
  : result (list float) :=
  let* i := argmax curve in
  let* mode := getitem grid i in
  Ok (List.map (fun x => sub (mul (of_Z 2) mode) x) grid).

(** Modelled from the spec: the running sum of
    [define_cumulative_area_ratio_function], the area under [curve] from
    the start of the grid, nothing yet at the first grid point. *)
Fixpoint cumulative_area (acc : float) (curve grid : list float) : list float :=
  match curve, grid with
  | c :: curve', g :: grid' =>
      acc :: match grid' with
             | [] => []
             | g' :: _ => cumulative_area (add acc (mul c (sub g' g))) curve' grid'
             end
  | _, _ => []
  end.

(** Modelled from the spec: Ratio(i) of
    [define_cumulative_area_ratio_function], 0 when both areas are 0. *)
Definition area_ratio (a b : float) : float :=
  if eqb a zero && eqb b zero then zero else div a (add a b).

(** Modelled from the spec: [define_cumulative_area_ratio_function] of
    ccal/mathematics/equation.py is not among the sources.  Ratio(i) =
    cumA(i) / (cumA(i) + cumB(i)), 0 when both areas are 0; direction "+"
    reports Ratio(i) and direction "-" reports 1 - Ratio(i). *)
Definition spec_define_cumulative_area_ratio_function
  (curveA curveB grid : list float) (d : direction) : result (list float) :=
  let ratio := List.map (fun p : float * float => area_ratio p.1 p.2)
                 (List.combine (cumulative_area zero curveA grid)
                               (cumulative_area zero curveB grid)) in
  Ok (match d with
      | Plus => ratio
      | Minus => List.map (fun r => sub (of_Z 1) r) ratio
      end).

(** *** Notions used by the statements *)

(** A number: neither NaN nor an infinity. *)
Definition finite (x : float) : bool :=
  match x with S754_zero _ | S754_finite _ _ _ => true | _ => false end.

(** The representation invariant of a float64: the mantissa has at most
    53 bits and is normalised, the exponent is in range. *)
Definition valid (x : float) : bool := valid_binary prec emax x.

Definition is_zero (x : float) : bool :=
  match x with S754_zero _ => true | _ => false end.

(** The least exponent, that of the subnormal numbers. *)
Definition emin : Z := SpecFloat.emin prec emax.

(** The rational that a finite float stands for. *)
Definition value (x : float) : Q :=
  match x with
  | S754_finite s m e =>
      let z := if s then Z.neg m else Z.pos m in
      if (0 <=? e)%Z then inject_Z (z * 2 ^ e) else z # (2 ^ Z.to_pos (- e))
  | _ => 0
  end.

Definition rectangular (df : DataFrame) : Prop :=
  Forall (fun r : row => length r.2 = length (columns df)) (rows df).

(** [j] is the first index at which the computed distance to [v] is
    least: no computed distance is below it, and none before [j] is as
    low. *)
Definition first_least (ds : list float) (j : nat) : Prop :=
  exists d_j, ds !! j = Some d_j /\
    (forall k d_k, ds !! k = Some d_k -> ltb d_k d_j = false) /\
    (forall k d_k, (k < j)%nat -> ds !! k = Some d_k -> leb d_k d_j = false).


(** [s] is the sign of [shape] as a float: -1, 0 or 1, or NaN. *)
Definition sign_of (shape s : float) : Prop :=
  (ltb shape zero = true -> s = of_Z (-1)) /\
  (eqb shape zero = true -> s = zero) /\
  (ltb zero shape = true -> s = of_Z 1) /\
  (isnan shape = true -> isnan s = true).



(** *** Instances for the examples *)

(** A bell-shaped curve around [location]: 1 / (1 + ((x - location) / scale)^2). *)
Definition bell_pdf (x df shape location scale : float) : float :=
  let z := div (sub x location) scale in
  div (of_Z 1) (add (of_Z 1) (mul z z)).

Definition build := make_essentiality_matrix bell_pdf
  spec_define_x_coordinates_for_reflection spec_define_cumulative_area_ratio_function.

Definition zeros (i j : nat) : float := zero.

(** The float64 nearest to 1e-300, and the float64 that follows 1.0. *)
Definition tiny : float := ldexp 6032057205060441 (-1049).

(** One gene with the scores -1, 1e-300 and 1, fitted with Shape 2; and
    one gene with the scores 0, 1 and 2, fitted with Shape -2. *)
Definition scores_around_zero : DataFrame :=
  mkDataFrame ["s1"; "s2"; "s3"]%string [("A"%string, [of_Z (-1); tiny; of_Z 1])].

Definition fit_of_A : DataFrame :=
  mkDataFrame ["N"; "DF"; "Shape"; "Location"; "Scale"]%string
    [("A"%string, [of_Z 3; of_Z 1; of_Z 2; of_Z 0; of_Z 1])].

Definition scores : DataFrame :=
  mkDataFrame ["s1"; "s2"; "s3"]%string [("B"%string, [of_Z 0; of_Z 1; of_Z 2])].

Definition fit_of_B : DataFrame :=
  mkDataFrame ["N"; "DF"; "Shape"; "Location"; "Scale"]%string
    [("B"%string, [of_Z 3; of_Z 1; of_Z (-2); of_Z 1; of_Z 1])].

End Binary64.


(** * Properties *)

(** ** Numbers *)

Lemma nlt_Fin p q : nlt (Fin p) (Fin q) = true <-> p < q.
Proof.
  simpl. rewrite negb_true_iff. split.
  - intros H. apply Qnot_le_lt. intros Hle. apply Qle_bool_iff in Hle. congruence.
  - intros H. destruct (Qle_bool q p) eqn:E; [|reflexivity].
    apply Qle_bool_iff in E. exfalso. exact (Qlt_not_le _ _ H E).
Qed.

Lemma nle_Fin p q : nle (Fin p) (Fin q) = true <-> p <= q.
Proof. simpl. apply Qle_bool_iff. Qed.

Lemma nlt_false_Fin p q : nlt (Fin p) (Fin q) = false <-> q <= p.
Proof.
  simpl. rewrite negb_false_iff. apply Qle_bool_iff.
Qed.

Lemma nle_false_Fin p q : nle (Fin p) (Fin q) = false <-> q < p.
Proof.
  rewrite <- nlt_Fin. simpl. destruct (Qle_bool p q); simpl; split; congruence.
Qed.

(** ** Rows by label *)

Lemma filter_has_label_absent (rs : list row) (l : string) :
  l ∉ rs.*1 -> List.filter (has_label l) rs = [].
Proof.
  induction rs as [|[l' v'] rs IH]; intros Hnotin; [reflexivity|].
  simpl. apply not_elem_of_cons in Hnotin as [Hne Hnotin].
  unfold has_label at 1. simpl in Hne.
  rewrite bool_decide_eq_false_2 by (simpl; congruence).
  apply IH, Hnotin.
Qed.

Lemma filter_has_label_unique (rs : list row) (l : string) (v : list num) :
  NoDup rs.*1 -> (l, v) ∈ rs -> List.filter (has_label l) rs = [(l, v)].
Proof.
  induction rs as [|[l' v'] rs IH]; intros Hnd Hin; [inversion Hin|].
  apply NoDup_cons in Hnd as [Hnotin Hnd]. simpl.
  unfold has_label at 1. simpl.
  apply elem_of_cons in Hin as [Heq|Hin].
  - injection Heq as <- <-. rewrite bool_decide_eq_true_2 by reflexivity.
    f_equal. apply filter_has_label_absent, Hnotin.
  - rewrite bool_decide_eq_false_2.
    + apply IH; assumption.
    + intros ->. apply Hnotin. apply (list_elem_of_fmap_2 fst _ _ Hin).
Qed.

(** ** get_amp_mut_del *)

(** C8, at the table that holds only GENEX_MUT: the call returns, the MUT
    row is the row of the table and the two substituted rows hold missing
    values only, but both carry the name GENEX_DEL: the one missing-value
    series is shared, and naming it for DEL renames the AMP row too. *)
Theorem get_amp_mut_del_only_MUT :
  get_amp_mut_del genex_table "GENEX" =
  Ok (mkDataFrame ["s1"; "s2"]%string
        [("GENEX_DEL"%string, [NaN; NaN]);
         ("GENEX_MUT"%string, [Fin 1; Fin 0]);
         ("GENEX_DEL"%string, [NaN; NaN])]).
Proof. vm_compute. reflexivity. Qed.

Lemma ix_row_cases (tbl : DataFrame) (l : string) :
  NoDup (index tbl) ->
  (present tbl l = true /\
   exists v, ix_row tbl l = Ok (mkSeries (Some l) (columns tbl) v)) \/
  (present tbl l = false /\ ix_row tbl l = Raise KeyError).
Proof.
  intros Hnd. unfold ix_row, present.
  destruct (decide (l ∈ index tbl)) as [Hin|Hnotin].
  - left. split; [apply bool_decide_eq_true_2, Hin|].
    apply list_elem_of_fmap in Hin as ([l' v] & Hl & Hin). simpl in Hl. subst l'.
    exists v. rewrite (filter_has_label_unique _ _ _ Hnd Hin). reflexivity.
  - right. split; [apply bool_decide_eq_false_2, Hnotin|].
    rewrite (filter_has_label_absent _ _ Hnotin). reflexivity.
Qed.

(** On a table with one row per name, [get_amp_mut_del] returns three
    rows: the values are those of the row when the table has it and
    missing values otherwise; the name is right for a row of the table,
    and every substituted row bears the name of the last substituted one. *)
Lemma get_amp_mut_del_rows (tbl : DataFrame) (gene : string) :
  NoDup (index tbl) ->
  get_amp_mut_del tbl gene =
  Ok (mkDataFrame (columns tbl)
        [(row_name tbl gene "_AMP", values_of tbl (gene +:+ "_AMP"));
         (row_name tbl gene "_MUT", values_of tbl (gene +:+ "_MUT"));
         (row_name tbl gene "_DEL", values_of tbl (gene +:+ "_DEL"))]).
Proof.
  intros Hnd.
  unfold get_amp_mut_del, get_amp_mut_del_prog, values_of, row_name, substitute_name.
  unfold Heap.bindS, Heap.try_ix, Heap.alloc, Heap.set_name, Heap.ret, Heap.deref,
    Heap.empty.
  destruct (ix_row_cases tbl (gene +:+ "_AMP") Hnd) as [[-> [va ->]]|[-> ->]];
    destruct (ix_row_cases tbl (gene +:+ "_MUT") Hnd) as [[-> [vm ->]]|[-> ->]];
    destruct (ix_row_cases tbl (gene +:+ "_DEL") Hnd) as [[-> [vd ->]]|[-> ->]];
    cbn [Heap.objs Heap.next data name labels negb]; simplify_map_eq; reflexivity.
Qed.

(** ** The direction of the cumulative area ratio *)

Section Direction.

Variable pdf : num -> num -> num -> num -> num -> num.
Variable histogram_max : list num -> nat -> result num.
Variable reflect : list num -> list num -> result (list num).
Variable ratio : list num -> list num -> list num -> direction -> result (list num).

Lemma direction_of_shape_cases shape :
  direction_of_shape shape = if ngt shape (Fin 0) then Minus else Plus.
Proof. unfold direction_of_shape. destruct (ngt shape (Fin 0)); reflexivity. Qed.

(** C1, as the code has it: the direction is "-" for a positive Shape
    and "+" for every other Shape, in [make_essentiality_matrix] and in
    [_plot_essentiality] alike: each computes the curve it would compute
    if the ratio function were always called with that direction.  In the
    ratio function of the specification, "-" reports 1 - Ratio(i) where
    "+" reports Ratio(i). *)
Theorem direction_from_shape (shape : num) :
  let d := if ngt shape (Fin 0) then Minus else Plus in
  (forall x_grids df location scale,
      make_essentiality_indices pdf reflect ratio x_grids df shape location scale =
      make_essentiality_indices pdf reflect (fun a b g _ => ratio a b g d)
        x_grids df shape location scale) /\
  (forall vector df location scale n_bins n_xgrids,
      _plot_essentiality pdf histogram_max reflect ratio
        vector df shape location scale n_bins n_xgrids =
      _plot_essentiality pdf histogram_max reflect (fun a b g _ => ratio a b g d)
        vector df shape location scale n_bins n_xgrids) /\
  (forall a b g,
      spec_define_cumulative_area_ratio_function a b g Minus =
      let* r := spec_define_cumulative_area_ratio_function a b g Plus in
      Ok (List.map (fun x => nsub (Fin 1) x) r)).
Proof.
  intros d. subst d. repeat split.
  - intros. unfold make_essentiality_indices.
    rewrite direction_of_shape_cases. reflexivity.
  - intros. unfold _plot_essentiality.
    rewrite direction_of_shape_cases. reflexivity.
Qed.

End Direction.

(** C1 as stated fails: a positive Shape gives the direction "-", a
    negative Shape the direction "+". *)
Lemma direction_of_positive_shape :
  direction_of_shape (Fin 2) = Minus /\ direction_of_shape (Fin (-2)) = Plus.
Proof. split; reflexivity. Qed.

(** ** make_essentiality_matrix without common features *)

Section NoCommonFeatures.

Variable pdf : num -> num -> num -> num -> num -> num.
Variable reflect : list num -> list num -> result (list num).
Variable ratio : list num -> list num -> list num -> direction -> result (list num).

Lemma common_indices_disjoint (m f : DataFrame) :
  (forall l, l ∈ index m -> l ∉ index f) -> common_indices m f = [].
Proof.
  unfold common_indices. generalize (index f) as ls.
  induction ls as [|l ls IH]; intros Hdis; [reflexivity|].
  simpl. case_bool_decide as Hin.
  - exfalso. apply (Hdis l Hin). left.
  - apply IH. intros l' Hl' Hin'. apply (Hdis l' Hl'). right. exact Hin'.
Qed.

(** C2, as the code has it: when no feature identifier is shared, the
    call does not fail; it returns the matrix with the columns of the
    score matrix and no row. *)
Theorem no_common_features_empty_matrix uninit (m f : DataFrame) n_x_grids factor :
  (forall l, l ∈ index m -> l ∉ index f) ->
  make_essentiality_matrix pdf reflect ratio uninit m f n_x_grids factor =
  Ok (mkDataFrame (columns m) []).
Proof.
  intros Hdis. unfold make_essentiality_matrix.
  rewrite (common_indices_disjoint _ _ Hdis). reflexivity.
Qed.

End NoCommonFeatures.

(** C2 as stated fails: the scores of A and B with fits of C only give an
    empty matrix, not an exception. *)
Lemma no_common_features_no_error :
  build sevens scores fits_of_C 3000 (Fin 1) =
  Ok (mkDataFrame ["s1"; "s2"; "s3"]%string []).
Proof. vm_compute. reflexivity. Qed.

Lemma no_common_features_empty_matrix_witness :
  build zeros scores fits_of_C 3000 (Fin 1) = Ok (mkDataFrame (columns scores) []).
Proof.
  apply (no_common_features_empty_matrix bell_pdf
           spec_define_x_coordinates_for_reflection
           spec_define_cumulative_area_ratio_function zeros scores fits_of_C).
  intros l Hl Hc. vm_compute in Hl, Hc.
  apply list_elem_of_In in Hl, Hc. simpl in Hl, Hc.
  destruct Hc as [<-|[]]. destruct Hl as [H|[H|[]]]; discriminate H.
Defined.

(** ** Lists *)

Lemma lookup_map {A B} (f : A -> B) (l : list A) i :
  List.map f l !! i = f <$> (l !! i).
Proof. exact (list_lookup_fmap f l i). Qed.

(** ** make_essentiality_matrix, row by row *)

(** Inversion of a bind that returned. *)
Ltac bind_inv H :=
  match type of H with
  | bind ?r _ = Ok _ =>
      let E := fresh "E" in
      destruct r eqn:E; simpl in H; [|discriminate H]
  end.

Lemma mapM_Forall2 {A B} (f : A -> result B) (l : list A) (ys : list B) :
  mapM f l = Ok ys -> Forall2 (fun x y => f x = Ok y) l ys.
Proof.
  revert ys. induction l as [|x l IH]; intros ys H; simpl in H.
  - injection H as <-. constructor.
  - bind_inv H. bind_inv H. injection H as <-.
    constructor; [assumption|apply IH; reflexivity].
Qed.

Lemma ix_row_Ok (df : DataFrame) (l : string) (s : Series) :
  ix_row df l = Ok s -> (l, data s) ∈ rows df.
Proof.
  unfold ix_row. destruct (List.filter (has_label l) (rows df)) as [|r [|r' rs]] eqn:E;
    intros H; try discriminate H.
  injection H as <-. simpl.
  assert (Hin : In r (List.filter (has_label l) (rows df))) by (rewrite E; left; reflexivity).
  apply filter_In in Hin as [Hin Hl]. unfold has_label in Hl.
  apply bool_decide_eq_true_1 in Hl. apply list_elem_of_In.
  destruct r as [l' v]. simpl in *. subst l'. exact Hin.
Qed.

Lemma ix_rows_unique (df : DataFrame) (ls : list string) :
  NoDup (index df) -> (forall l, l ∈ ls -> l ∈ index df) ->
  Forall2 (fun l (r : row) => r.1 = l /\ r ∈ rows df) ls (rows (ix_rows df ls)).
Proof.
  intros Hnd. induction ls as [|l ls IH]; intros Hsub; [constructor|].
  simpl. assert (Hl : l ∈ index df) by (apply Hsub; left).
  apply list_elem_of_fmap in Hl as ([l' v] & Heq & Hin). simpl in Heq. subst l'.
  unfold ix_label at 1. rewrite (filter_has_label_unique _ _ _ Hnd Hin). simpl.
  constructor; [split; [reflexivity|exact Hin]|].
  apply IH. intros l' Hl'. apply Hsub. right. exact Hl'.
Qed.

Lemma Forall2_labels (P : row -> Prop) (ls : list string) (rs : list row) :
  Forall2 (fun l (r : row) => r.1 = l /\ P r) ls rs -> rs.*1 = ls /\ Forall P rs.
Proof.
  induction 1 as [|l r ls rs [Hl HP] _ [IH1 IH2]]; [split; [reflexivity|constructor]|].
  split; [rewrite fmap_cons, Hl, IH1; reflexivity|constructor; assumption].
Qed.

Lemma common_indices_in (m f : DataFrame) (l : string) :
  l ∈ common_indices m f -> l ∈ index m /\ l ∈ index f.
Proof.
  unfold common_indices. intros H. apply list_elem_of_In, filter_In in H as [Hf Hm].
  apply bool_decide_eq_true_1 in Hm. split; [exact Hm|apply list_elem_of_In, Hf].
Qed.

Lemma NoDup_common_indices (m f : DataFrame) :
  NoDup (index f) -> NoDup (common_indices m f).
Proof.
  unfold common_indices. generalize (index f) as ls.
  induction ls as [|l ls IH]; intros Hnd; [constructor|].
  apply NoDup_cons in Hnd as [Hnotin Hnd]. simpl.
  destruct (bool_decide (l ∈ index m)); [|apply IH, Hnd].
  apply NoDup_cons. split; [|apply IH, Hnd].
  intros Hin. apply Hnotin. apply list_elem_of_In, filter_In in Hin as [Hin _].
  apply list_elem_of_In, Hin.
Qed.

Lemma setitem_row_same_length (a : list (list num)) (i : nat) (r old : list num) :
  a !! i = Some old -> length r = length old -> setitem_row a i r = Ok (<[i := r]> a).
Proof.
  intros Hold Hlen. unfold setitem_row. rewrite Hold, Hlen, Nat.eqb_refl. reflexivity.
Qed.

Lemma length_empty (uninit : nat -> nat -> num) (n_rows n_columns : nat) :
  length (empty uninit n_rows n_columns) = n_rows /\
  Forall (fun b => length b = n_columns) (empty uninit n_rows n_columns).
Proof.
  unfold empty. split.
  - rewrite length_map, length_seq. reflexivity.
  - apply Forall_forall. intros b Hb. apply list_elem_of_In, in_map_iff in Hb as (i & <- & _).
    rewrite length_map, length_seq. reflexivity.
Qed.

Section Build.

Variable pdf : num -> num -> num -> num -> num -> num.
Variable reflect : list num -> list num -> result (list num).
Variable ratio : list num -> list num -> list num -> direction -> result (list num).

Abbreviation feature_row' := (feature_row pdf reflect ratio).
Abbreviation fill_rows' := (fill_rows pdf reflect ratio).
Abbreviation make_essentiality_matrix' := (make_essentiality_matrix pdf reflect ratio).

Lemma essentiality_row_inv n_x_grids factor vector df shape location scale cells :
  essentiality_row pdf reflect ratio n_x_grids factor vector df shape location scale
    = Ok cells ->
  exists x_grids curve,
    make_x_grids vector n_x_grids = Ok x_grids /\
    make_essentiality_indices pdf reflect ratio x_grids df shape location scale
      = Ok curve /\
    Forall2 (fun v c => essentiality_cell factor shape x_grids curve v = Ok c)
      vector cells.
Proof.
  unfold essentiality_row. intros H. bind_inv H. bind_inv H.
  eexists _, _. split; [reflexivity|]. split; [eassumption|].
  apply mapM_Forall2, H.
Qed.

Lemma feature_row_inv n_x_grids factor (gene_x_sample : DataFrame) (fit : row) cells :
  feature_row' n_x_grids factor gene_x_sample fit = Ok cells ->
  exists vector N df shape location scale,
    fit.2 = [N; df; shape; location; scale] /\
    (fit.1, vector) ∈ rows gene_x_sample /\
    essentiality_row pdf reflect ratio n_x_grids factor vector df shape location scale
      = Ok cells.
Proof.
  unfold feature_row. intros H.
  destruct fit.2 as [|N [|df [|shape [|location [|scale [|]]]]]]; try discriminate H.
  bind_inv H. eexists _, N, df, shape, location, scale.
  split; [reflexivity|]. split; [apply ix_row_Ok; eassumption|exact H].
Qed.

Lemma feature_row_length n_x_grids factor (gene_x_sample : DataFrame) (fit : row) cells :
  rectangular gene_x_sample ->
  feature_row' n_x_grids factor gene_x_sample fit = Ok cells ->
  length cells = length (columns gene_x_sample).
Proof.
  intros Hrect H.
  apply feature_row_inv in H as (vector & N & df & shape & location & scale & _ & Hin & H).
  apply essentiality_row_inv in H as (x_grids & curve & _ & _ & Hcells).
  rewrite <- (Forall2_length _ _ _ Hcells).
  unfold rectangular in Hrect. rewrite Forall_forall in Hrect.
  exact (Hrect _ Hin).
Qed.

(** The loop overwrites rows [i], [i + 1], ... of the matrix with the rows
    it computes, and leaves the others as they were. *)
Lemma fill_rows_eq n_x_grids factor (gene_x_sample : DataFrame) (fs : list row) :
  rectangular gene_x_sample ->
  forall (i : nat) (buf : list (list num)),
    Forall (fun b => length b = length (columns gene_x_sample)) buf ->
    (i + length fs <= length buf)%nat ->
    fill_rows' n_x_grids factor gene_x_sample i fs buf =
    let* rs := mapM (feature_row' n_x_grids factor gene_x_sample) fs in
    Ok (take i buf ++ rs ++ drop (i + length fs) buf).
Proof.
  intros Hrect. induction fs as [|fit fs IH]; intros i buf Hbuf Hlen.
  - simpl. rewrite Nat.add_0_r, take_drop. reflexivity.
  - simpl in Hlen |- *.
    destruct (feature_row' n_x_grids factor gene_x_sample fit) as [r|e] eqn:Er;
      [simpl|reflexivity].
    destruct (lookup_lt_is_Some_2 buf i) as [old Hold]; [lia|].
    rewrite (setitem_row_same_length buf i r old Hold).
    2:{ rewrite (feature_row_length _ _ _ _ _ Hrect Er).
        rewrite Forall_forall in Hbuf. symmetry. apply Hbuf.
        eapply list_elem_of_lookup_2, Hold. }
    simpl. rewrite IH.
    + destruct (mapM (feature_row' n_x_grids factor gene_x_sample) fs) as [rs|e];
        [simpl|reflexivity].
      f_equal. rewrite (take_S_r (<[i:=r]> buf) i r).
      2:{ apply list_lookup_insert_eq. eapply lookup_lt_Some, Hold. }
      rewrite take_insert_ge by lia. rewrite drop_insert_lt by lia.
      rewrite <- app_assoc. simpl.
      replace (i + S (length fs))%nat with (S (i + length fs)) by lia. reflexivity.
    + apply Forall_insert; [exact Hbuf|].
      apply (feature_row_length _ _ _ _ _ Hrect Er).
    + rewrite length_insert. lia.
Qed.

Lemma rectangular_ix_rows (m : DataFrame) (ls : list string) :
  rectangular m -> NoDup (index m) -> (forall l, l ∈ ls -> l ∈ index m) ->
  rectangular (ix_rows m ls).
Proof.
  intros Hrect Hnd Hsub. unfold rectangular.
  destruct (Forall2_labels _ _ _ (ix_rows_unique m ls Hnd Hsub)) as [_ Hin].
  rewrite Forall_forall in Hin |- *. intros r Hr.
  unfold rectangular in Hrect. rewrite Forall_forall in Hrect.
  simpl. apply Hrect, Hin, Hr.
Qed.

(** With one row per feature identifier in both tables, the matrix that
    comes back holds exactly the rows computed for the common features:
    every row of the preallocated matrix has been overwritten. *)
Lemma make_essentiality_matrix_rows uninit (m f : DataFrame) n_x_grids factor :
  rectangular m -> NoDup (index m) -> NoDup (index f) ->
  make_essentiality_matrix' uninit m f n_x_grids factor =
  let common := common_indices m f in
  let* rs := mapM (feature_row' n_x_grids factor (ix_rows m common))
               (rows (ix_rows f common)) in
  Ok (mkDataFrame (columns m) (List.combine common rs)).
Proof.
  intros Hrect Hm Hf. unfold make_essentiality_matrix.
  set (common := common_indices m f).
  assert (Hcm : forall l, l ∈ common -> l ∈ index m)
    by (intros l Hl; apply (common_indices_in m f l Hl)).
  assert (Hcf : forall l, l ∈ common -> l ∈ index f)
    by (intros l Hl; apply (common_indices_in m f l Hl)).
  destruct (Forall2_labels _ _ _ (ix_rows_unique m common Hm Hcm)) as [Him _].
  destruct (Forall2_labels _ _ _ (ix_rows_unique f common Hf Hcf)) as [Hif _].
  assert (Hlm : length (rows (ix_rows m common)) = length common).
  { rewrite <- Him at 2. rewrite length_fmap. reflexivity. }
  assert (Hlf : length (rows (ix_rows f common)) = length common).
  { rewrite <- Hif at 2. rewrite length_fmap. reflexivity. }
  destruct (length_empty uninit (length (rows (ix_rows m common)))
              (length (columns (ix_rows m common)))) as [Hlen Hall].
  rewrite fill_rows_eq.
  - destruct (mapM _ _) as [rs|e] eqn:E; [cbn [bind]|reflexivity].
    rewrite Nat.add_0_l. rewrite drop_ge by (rewrite Hlen, Hlf, Hlm; lia).
    rewrite app_nil_r. cbn [take app]. unfold index. rewrite Him. reflexivity.
  - apply rectangular_ix_rows; assumption.
  - exact Hall.
  - rewrite Hlen. lia.
Qed.

End Build.

(** ** Nearest grid point *)

Lemma fold_minimum_nan (vs : list num) (x : num) :
  isnan x = true \/ Exists (fun v => isnan v = true) vs ->
  List.fold_left minimum vs x = NaN.
Proof.
  revert x. induction vs as [|y vs IH]; intros x H; simpl.
  - destruct H as [H|H]; [destruct x; [reflexivity|discriminate]|inversion H].
  - apply IH. destruct H as [H|H].
    + left. unfold minimum. rewrite H. exact H.
    + apply Exists_cons in H as [H|H]; [left|right; exact H].
      unfold minimum. destruct (isnan x) eqn:E; [exact E|]. rewrite H. exact H.
Qed.

Lemma fold_maximum_nan (vs : list num) (x : num) :
  isnan x = true \/ Exists (fun v => isnan v = true) vs ->
  List.fold_left maximum vs x = NaN.
Proof.
  revert x. induction vs as [|y vs IH]; intros x H; simpl.
  - destruct H as [H|H]; [destruct x; [reflexivity|discriminate]|inversion H].
  - apply IH. destruct H as [H|H].
    + left. unfold maximum. rewrite H. exact H.
    + apply Exists_cons in H as [H|H]; [left|right; exact H].
      unfold maximum. destruct (isnan x) eqn:E; [exact E|]. rewrite H. exact H.
Qed.

(** A missing score makes every grid point missing. *)
Lemma make_x_grids_nan (vector : list num) (n : Z) (g : list num) :
  Exists (fun v => isnan v = true) vector ->
  make_x_grids vector n = Ok g -> Forall (fun x => isnan x = true) g.
Proof.
  intros Hnan. unfold make_x_grids. destruct vector as [|x vs]; [inversion Hnan|].
  simpl. apply Exists_cons in Hnan.
  rewrite fold_minimum_nan, fold_maximum_nan by exact Hnan.
  unfold linspace. destruct (n <? 0)%Z; [discriminate|].
  destruct (Z.to_nat n) as [|[|d]]; intros H; injection H as <-.
  - constructor.
  - repeat constructor.
  - constructor; [reflexivity|].
    apply Forall_app. split; [|repeat constructor].
    apply Forall_forall. intros y Hy.
    apply list_elem_of_In, in_map_iff in Hy as (i & <- & _). reflexivity.
Qed.

(** ** The cells of the essentiality matrix *)

Lemma elem_of_combine {A B} (l : list A) (k : list B) (x : A) (y : B) :
  (x, y) ∈ List.combine l k -> exists i, l !! i = Some x /\ k !! i = Some y.
Proof.
  revert k. induction l as [|a l IH]; intros [|b k] H; try (inversion H; fail).
  simpl in H. apply elem_of_cons in H as [Heq|H].
  - injection Heq as -> ->. exists 0%nat. split; reflexivity.
  - destruct (IH k H) as (i & Hl & Hk). exists (S i). split; assumption.
Qed.

Section Cells.

Variable pdf : num -> num -> num -> num -> num -> num.
Variable reflect : list num -> list num -> result (list num).
Variable ratio : list num -> list num -> list num -> direction -> result (list num).

Abbreviation make_essentiality_matrix' := (make_essentiality_matrix pdf reflect ratio).

Lemma make_essentiality_matrix_cells uninit (m f : DataFrame) n_x_grids factor out :
  rectangular m -> NoDup (index m) -> NoDup (index f) ->
  make_essentiality_matrix' uninit m f n_x_grids factor = Ok out ->
  forall g cells, (g, cells) ∈ rows out ->
  exists vector N df shape location scale x_grids curve,
    (g, vector) ∈ rows m /\ (g, [N; df; shape; location; scale]) ∈ rows f /\
    make_x_grids vector n_x_grids = Ok x_grids /\
    make_essentiality_indices pdf reflect ratio x_grids df shape location scale
      = Ok curve /\
    Forall2 (fun v c => essentiality_cell factor shape x_grids curve v = Ok c)
      vector cells.
Proof.
  intros Hrect Hm Hf H g cells Hin.
  rewrite make_essentiality_matrix_rows in H by assumption.
  cbv zeta in H. bind_inv H. injection H as <-. simpl in Hin.
  set (common := common_indices m f) in *.
  assert (Hcm : forall l, l ∈ common -> l ∈ index m)
    by (intros l Hl; apply (common_indices_in m f l Hl)).
  assert (Hcf : forall l, l ∈ common -> l ∈ index f)
    by (intros l Hl; apply (common_indices_in m f l Hl)).
  apply elem_of_combine in Hin as (i & Hg & Hcells).
  apply mapM_Forall2 in E.
  destruct (Forall2_lookup_r _ _ _ _ _ E Hcells) as (fit & Hfit & Hrow).
  pose proof (ix_rows_unique f common Hf Hcf) as Hfits.
  destruct (Forall2_lookup_lr _ _ _ _ _ _ Hfits Hg Hfit) as [Hlabel Hfitin].
  apply feature_row_inv in Hrow
    as (vector & N & df & shape & location & scale & Hparams & Hvec & Hrow).
  apply essentiality_row_inv in Hrow as (x_grids & curve & Hgrid & Hcurve & Hall).
  exists vector, N, df, shape, location, scale, x_grids, curve.
  destruct fit as [l params]. simpl in Hlabel, Hparams. subst l params.
  split; [|split; [exact Hfitin|auto]].
  destruct (Forall2_labels _ _ _ (ix_rows_unique m common Hm Hcm)) as [_ Hsub].
  rewrite Forall_forall in Hsub. apply Hsub, Hvec.
Qed.

(** C6: the matrix does not depend on what the preallocated array held:
    two calls on the same arguments return the same value, exception or
    matrix, cell for cell. *)
Theorem make_essentiality_matrix_deterministic
  uninit1 uninit2 (m f : DataFrame) n_x_grids factor :
  rectangular m -> NoDup (index m) -> NoDup (index f) ->
  make_essentiality_matrix' uninit1 m f n_x_grids factor =
  make_essentiality_matrix' uninit2 m f n_x_grids factor.
Proof.
  intros Hrect Hm Hf.
  rewrite !make_essentiality_matrix_rows by assumption. reflexivity.
Qed.

Lemma nmul_sign_zero (factor shape e : num) :
  num_eq shape (Fin 0) -> isnan factor = false ->
  if isnan e then nmul (nmul factor (sign shape)) e = NaN
  else num_eq (nmul (nmul factor (sign shape)) e) (Fin 0).
Proof.
  destruct shape as [|s]; [contradiction|]. destruct factor as [|a]; [discriminate|].
  intros Hs _. simpl in Hs.
  assert (Hnum : Qnum s = 0%Z).
  { unfold Qeq in Hs. simpl in Hs. lia. }
  destruct e as [|q]; simpl; [reflexivity|].
  rewrite Hnum. simpl. rewrite !Qred_correct.
  change (inject_Z 0) with 0. lra.
Qed.

(** C9, as the code has it: for a feature fitted with Shape 0 and a scale
    factor that is a number, a cell of the feature's row is 0 when the
    essentiality index looked up for it is a number, and missing when that
    index is missing. *)
Theorem zero_shape_row uninit (m f : DataFrame) n_x_grids factor out :
  rectangular m -> NoDup (index m) -> NoDup (index f) ->
  make_essentiality_matrix' uninit m f n_x_grids factor = Ok out ->
  isnan factor = false ->
  forall g cells N df shape location scale,
    (g, cells) ∈ rows out ->
    (g, [N; df; shape; location; scale]) ∈ rows f ->
    num_eq shape (Fin 0) ->
    exists vector x_grids curve,
      (g, vector) ∈ rows m /\
      make_x_grids vector n_x_grids = Ok x_grids /\
      make_essentiality_indices pdf reflect ratio x_grids df shape location scale
        = Ok curve /\
      Forall2 (fun v c =>
                 exists j e,
                   nearest x_grids v = Ok j /\ curve !! j = Some e /\
                   if isnan e then c = NaN else num_eq c (Fin 0))
        vector cells.
Proof.
  intros Hrect Hm Hf H Hfactor g cells N df shape location scale Hin Hfit Hzero.
  destruct (make_essentiality_matrix_cells _ _ _ _ _ _ Hrect Hm Hf H g cells Hin)
    as (vector & N' & df' & shape' & location' & scale' & x_grids & curve
        & Hvec & Hfit' & Hgrid & Hcurve & Hall).
  assert (Hsame : [N'; df'; shape'; location'; scale'] = [N; df; shape; location; scale]).
  { pose proof (filter_has_label_unique _ _ _ Hf Hfit) as H1.
    pose proof (filter_has_label_unique _ _ _ Hf Hfit') as H2.
    rewrite H1 in H2. congruence. }
  injection Hsame as -> -> -> -> ->.
  exists vector, x_grids, curve. repeat (split; [assumption|]).
  eapply Forall2_impl; [exact Hall|]. clear Hall.
  intros v c Hc. simpl in Hc. unfold essentiality_cell in Hc.
  bind_inv Hc. rename a into j. bind_inv Hc. rename a into e.
  injection Hc as <-. exists j, e. split; [reflexivity|]. split.
  { unfold getitem in E0. destruct (curve !! j); [injection E0 as ->; reflexivity|discriminate]. }
  apply nmul_sign_zero; assumption.
Qed.

End Cells.

(** C9 as stated fails: with Shape 0 and a density that is not defined
    (Scale 0), the index values past the first are missing, and so are the
    cells that look them up; the same at one cell, for a curve with a
    missing value. *)
Lemma zero_shape_missing_cells :
  build zeros scores_of_A degenerate_fit_of_A 3 (Fin 1) =
    Ok (mkDataFrame ["s1"; "s2"; "s3"]%string [("A"%string, [Fin 0; NaN; NaN])]) /\
  essentiality_cell (Fin 1) (Fin 0) [Fin 0; Fin 1; Fin 2] [Fin 0; NaN; NaN] (Fin 1) = Ok NaN.
Proof. split; vm_compute; reflexivity. Qed.

Lemma rectangular_scores_of_A : rectangular scores_of_A.
Proof. repeat constructor. Qed.

Lemma rectangular_scores : rectangular scores.
Proof. repeat constructor. Qed.

Lemma zero_shape_row_witness :
  exists vector x_grids curve,
    ("A"%string, vector) ∈ rows scores_of_A /\
    make_x_grids vector 3 = Ok x_grids /\
    make_essentiality_indices bell_pdf spec_define_x_coordinates_for_reflection
      spec_define_cumulative_area_ratio_function x_grids (Fin 1) (Fin 0) (Fin 1) (Fin 1)
      = Ok curve /\
    Forall2 (fun v c =>
               exists j e,
                 nearest x_grids v = Ok j /\ curve !! j = Some e /\
                 if isnan e then c = NaN else num_eq c (Fin 0))
      vector [Fin 0; Fin 0; Fin 0].
Proof.
  refine (zero_shape_row bell_pdf spec_define_x_coordinates_for_reflection
            spec_define_cumulative_area_ratio_function zeros
            scores_of_A flat_fit_of_A 3 (Fin 1)
            (mkDataFrame ["s1"; "s2"; "s3"]%string [("A"%string, [Fin 0; Fin 0; Fin 0])])
            rectangular_scores_of_A _ _ _ _
            "A"%string [Fin 0; Fin 0; Fin 0] (Fin 3) (Fin 1) (Fin 0) (Fin 1) (Fin 1) _ _ _).
  - apply (bool_decide_unpack _). vm_compute. exact I.
  - apply (bool_decide_unpack _). vm_compute. exact I.
  - vm_compute. reflexivity.
  - reflexivity.
  - left.
  - left.
  - reflexivity.
Defined.

Lemma make_essentiality_matrix_deterministic_witness :
  build zeros scores fits 5 (Fin 1) = build sevens scores fits 5 (Fin 1).
Proof.
  apply (make_essentiality_matrix_deterministic bell_pdf
           spec_define_x_coordinates_for_reflection
           spec_define_cumulative_area_ratio_function zeros sevens scores fits 5 (Fin 1)
           rectangular_scores).
  - apply (bool_decide_unpack _). vm_compute. exact I.
  - apply (bool_decide_unpack _). vm_compute. exact I.
Defined.

(** * Properties of the binary64 model *)

Section Binary64Properties.

(** ** Binary64: the order of floats *)

Import Binary64.

Ltac float_cases :=
  repeat match goal with
         | x : float |- _ => destruct x as [[]|[]| |[] ? ?]
         | x : spec_float |- _ => destruct x as [[]|[]| |[] ? ?]
         end.

Ltac compare_cases :=
  unfold ltb, leb, eqb, SFltb, SFleb, SFeqb, SFcompare in *;
  repeat match goal with
         | H : context [Pos.compare_cont Eq ?a ?b] |- _ =>
             change (Pos.compare_cont Eq a b) with (Pos.compare a b) in H
         | |- context [Pos.compare_cont Eq ?a ?b] =>
             change (Pos.compare_cont Eq a b) with (Pos.compare a b)
         end;
  repeat match goal with
         | H : context [Z.compare ?a ?b] |- _ => destruct (Z.compare_spec a b)
         | |- context [Z.compare ?a ?b] => destruct (Z.compare_spec a b)
         | H : context [Pos.compare ?a ?b] |- _ => destruct (Pos.compare_spec a b)
         | |- context [Pos.compare ?a ?b] => destruct (Pos.compare_spec a b)
         end;
  cbn in *; try discriminate; try reflexivity; try lia.

Lemma ltb_leb (x y : float) : ltb x y = true -> leb x y = true.
Proof. float_cases; compare_cases. Qed.

Lemma leb_not_ltb (x y : float) : leb x y = true -> ltb y x = false.
Proof. float_cases; compare_cases. Qed.

Lemma not_leb_ltb (x y : float) :
  isnan x = false -> isnan y = false -> leb x y = false -> ltb y x = true.
Proof. float_cases; compare_cases. Qed.

Lemma not_ltb_leb (x y : float) :
  isnan x = false -> isnan y = false -> ltb x y = false -> leb y x = true.
Proof. float_cases; compare_cases. Qed.


Lemma ltb_irrefl (x : float) : ltb x x = false.
Proof. float_cases; compare_cases. Qed.


Lemma ltb_leb_trans (x y z : float) : ltb x y = true -> leb y z = true -> ltb x z = true.
Proof. float_cases; compare_cases. Qed.

Lemma leb_ltb_trans (x y z : float) : leb x y = true -> ltb y z = true -> ltb x z = true.
Proof. float_cases; compare_cases. Qed.

Lemma eqb_leb (x y : float) : eqb x y = true -> leb x y = true /\ leb y x = true.
Proof. split; float_cases; compare_cases. Qed.

Lemma leb_antisym (x y : float) : leb x y = true -> leb y x = true -> eqb x y = true.
Proof. float_cases; compare_cases. Qed.

Lemma ltb_NaN_r (x : float) : ltb x S754_nan = false.
Proof. float_cases; reflexivity. Qed.

Lemma leb_NaN_r (x : float) : leb x S754_nan = false.
Proof. float_cases; reflexivity. Qed.

Lemma leb_isnan (x y : float) : leb x y = true -> isnan x = false /\ isnan y = false.
Proof. split; float_cases; compare_cases. Qed.

(** ** Binary64: numpy.argmin *)

Lemma argmin_from_first_least (a : list float) :
  forall (pre : list float) (mp : float) (min_ind : nat),
    pre !! min_ind = Some mp -> isnan mp = false ->
    (forall k x, pre !! k = Some x -> ltb x mp = false) ->
    (forall k x, (k < min_ind)%nat -> pre !! k = Some x -> leb x mp = false) ->
    first_least (pre ++ a) (argmin_from mp min_ind (length pre) a).
Proof.
  induction a as [|x a IH]; intros pre mp min_ind Hmp Hfin Hlt Hle.
  - simpl. rewrite app_nil_r. exists mp. auto.
  - simpl.
    assert (Hmid : (pre ++ x :: a) !! length pre = Some x) by apply list_lookup_middle, eq_refl.
    assert (Hlen : length (pre ++ [x]) = S (length pre)) by (rewrite length_app; simpl; lia).
    assert (Happ : (pre ++ [x]) ++ a = pre ++ x :: a) by (rewrite <- app_assoc; reflexivity).
    destruct (leb mp x) eqn:E; simpl.
    + rewrite <- Hlen, <- Happ. apply IH; try assumption.
      * apply lookup_app_l_Some, Hmp.
      * intros k y Hy. apply lookup_snoc_Some in Hy as [[_ Hy]|[_ <-]]; [eauto|].
        apply leb_not_ltb, E.
      * intros k y Hk Hy. apply lookup_snoc_Some in Hy as [[_ Hy]|[Hk' _]]; [eauto|].
        apply lookup_lt_Some in Hmp. lia.
    + destruct (isnan x) eqn:Ex.
      * destruct x; try discriminate Ex. exists S754_nan. split; [exact Hmid|].
        split; intros; [apply ltb_NaN_r|apply leb_NaN_r].
      * pose proof (not_leb_ltb _ _ Hfin Ex E) as Hxmp.
        rewrite <- Hlen, <- Happ. apply IH; try assumption.
        -- apply list_lookup_middle, eq_refl.
        -- intros k y Hy. apply lookup_snoc_Some in Hy as [[_ Hy]|[_ <-]];
             [|apply ltb_irrefl].
           specialize (Hlt k y Hy). destruct (ltb y x) eqn:Eyx; [|reflexivity].
           rewrite (ltb_leb_trans y x mp Eyx (ltb_leb _ _ Hxmp)) in Hlt. discriminate Hlt.
        -- intros k y Hk Hy. apply lookup_snoc_Some in Hy as [[_ Hy]|[Hk' _]]; [|lia].
           specialize (Hlt k y Hy). destruct (leb y x) eqn:Eyx; [|reflexivity].
           rewrite (leb_ltb_trans y x mp Eyx Hxmp) in Hlt. discriminate Hlt.
Qed.

Lemma argmin_first_least (d : list float) (j : nat) :
  argmin d = Ok j -> first_least d j.
Proof.
  destruct d as [|x a]; [discriminate|]. simpl. intros H. injection H as <-.
  destruct (isnan x) eqn:Ex.
  - destruct x; try discriminate Ex. exists S754_nan. split; [reflexivity|].
    split; intros; [apply ltb_NaN_r|apply leb_NaN_r].
  - apply (argmin_from_first_least a [x] x 0); try reflexivity; try assumption.
    + intros [|k] y Hy; [|destruct k; discriminate Hy].
      injection Hy as <-. apply ltb_irrefl.
    + intros k y Hk. lia.
Qed.

Lemma argmin_in_range (d : list float) (j : nat) :
  argmin d = Ok j -> (j < length d)%nat.
Proof.
  intros H. apply argmin_first_least in H as (d_j & Hj & _).
  eapply lookup_lt_Some, Hj.
Qed.

(** ** Binary64: rounding never loses a difference *)

Lemma digits2_size (m : positive) : digits2_pos m = Pos.size m.
Proof. induction m as [m IH|m IH|]; simpl; try rewrite IH; reflexivity. Qed.

Lemma pow_digits_le (m : positive) : (2 ^ (Z.pos (digits2_pos m) - 1) <= Z.pos m)%Z.
Proof.
  rewrite digits2_size. pose proof (Pos.size_le m) as H.
  apply Pos2Z.pos_le_pos in H. rewrite Pos2Z.inj_pow in H.
  replace (Z.pos (Pos.size m)) with (Z.succ (Z.pos (Pos.size m) - 1)) in H by lia.
  rewrite Z.pow_succ_r in H by lia. cbn in H. lia.
Qed.

Lemma digits2_iter_xO (m d : positive) :
  digits2_pos (Pos.iter xO m d) = (digits2_pos m + d)%positive.
Proof.
  induction d as [|d IH] using Pos.peano_ind.
  - simpl. lia.
  - rewrite Pos.iter_succ. simpl. rewrite IH. lia.
Qed.

Lemma shr_m_shr_1 (mrs : shr_record) :
  (0 <= shr_m mrs)%Z -> shr_m (shr_1 mrs) = Z.div2 (shr_m mrs).
Proof.
  destruct mrs as [m r s]. simpl. intros Hm.
  destruct m as [|[p|p|]|p]; try reflexivity; lia.
Qed.

Lemma shr_m_iter (p : positive) :
  forall mrs, (0 <= shr_m mrs)%Z ->
    shr_m (SpecFloat.iter_pos shr_1 p mrs) = Z.shiftr (shr_m mrs) (Z.pos p).
Proof.
  induction p as [p IH|p IH|]; intros mrs Hm; simpl.
  - assert (H1 : (0 <= shr_m (shr_1 mrs))%Z)
      by (rewrite shr_m_shr_1 by exact Hm; apply Z.div2_nonneg, Hm).
    assert (H2 : (0 <= shr_m (SpecFloat.iter_pos shr_1 p (shr_1 mrs)))%Z)
      by (rewrite IH by exact H1; apply Z.shiftr_nonneg, H1).
    rewrite IH by exact H2. rewrite IH by exact H1. rewrite shr_m_shr_1 by exact Hm.
    rewrite Z.div2_spec, !Z.shiftr_shiftr by lia. f_equal. lia.
  - assert (H2 : (0 <= shr_m (SpecFloat.iter_pos shr_1 p mrs))%Z)
      by (rewrite IH by exact Hm; apply Z.shiftr_nonneg, Hm).
    rewrite IH by exact H2. rewrite IH by exact Hm.
    rewrite Z.shiftr_shiftr by lia. f_equal. lia.
  - rewrite shr_m_shr_1 by exact Hm. apply Z.div2_spec.
Qed.

Lemma shr_m_of_loc (m : Z) (l : location) : shr_m (shr_record_of_loc m l) = m.
Proof. destruct l as [|[]]; reflexivity. Qed.

(** Shifting a mantissa to its place keeps it non-negative, and positive
    if it is positive and the exponent is not below the least one. *)
Lemma shr_fexp_nonneg (m e : Z) (l : location) :
  (0 <= m)%Z -> (0 <= shr_m (shr_fexp prec emax m e l).1)%Z.
Proof.
  intros Hm. unfold shr_fexp, shr.
  destruct (fexp prec emax (Zdigits2 m + e) - e)%Z as [|p|p]; cbn [fst];
    rewrite ?shr_m_iter by (rewrite shr_m_of_loc; exact Hm);
    rewrite ?shr_m_of_loc; try exact Hm.
  apply Z.shiftr_nonneg, Hm.
Qed.

Lemma shr_fexp_pos (m : positive) (e : Z) (l : location) :
  (emin <= e)%Z ->
  (0 < shr_m (shr_fexp prec emax (Z.pos m) e l).1)%Z /\
  (emin <= (shr_fexp prec emax (Z.pos m) e l).2)%Z.
Proof.
  intros He. unfold shr_fexp, shr. cbn [Zdigits2].
  destruct (fexp prec emax (Z.pos (digits2_pos m) + e) - e)%Z as [|p|p] eqn:En; cbn [fst snd];
    rewrite ?shr_m_of_loc; try (split; lia).
  rewrite shr_m_iter by (rewrite shr_m_of_loc; lia). rewrite shr_m_of_loc.
  assert (Hp : (Z.pos p <= Z.pos (digits2_pos m) - 1)%Z).
  { unfold fexp, emin, SpecFloat.emin, prec, emax in *. lia. }
  split; [|lia].
  rewrite Z.shiftr_div_pow2 by lia. apply Z.div_str_pos. split; [apply Z.pow_pos_nonneg; lia|].
  etransitivity; [|apply pow_digits_le]. apply Z.pow_le_mono_r; lia.
Qed.

Lemma round_nearest_even_ge (m : Z) (l : location) : (m <= round_nearest_even m l)%Z.
Proof. destruct l as [|[]]; simpl; try lia. destruct (Z.even m); lia. Qed.

Lemma binary_round_aux_not_nan (s : bool) (m e : Z) (l : location) :
  (0 <= m)%Z -> isnan (binary_round_aux prec emax s m e l) = false.
Proof.
  intros Hm. unfold binary_round_aux.
  pose proof (shr_fexp_nonneg m e l Hm) as H1.
  destruct (shr_fexp prec emax m e l) as [mrs' e'] eqn:E1. cbn [fst] in H1.
  pose proof (round_nearest_even_ge (shr_m mrs') (loc_of_shr_record mrs')) as Hr.
  pose proof (shr_fexp_nonneg (round_nearest_even (shr_m mrs') (loc_of_shr_record mrs'))
                e' loc_Exact ltac:(lia)) as H2.
  destruct (shr_fexp prec emax _ e' loc_Exact) as [mrs'' e''] eqn:E2. cbn [fst] in H2.
  destruct (shr_m mrs'') as [|p|p]; [reflexivity| |lia].
  destruct (e'' <=? _)%Z; reflexivity.
Qed.

Lemma binary_round_aux_not_zero (s : bool) (m : positive) (e : Z) (l : location) :
  (emin <= e)%Z -> is_zero (binary_round_aux prec emax s (Z.pos m) e l) = false.
Proof.
  intros He. unfold binary_round_aux.
  destruct (shr_fexp_pos m e l He) as [H1 He1].
  destruct (shr_fexp prec emax (Z.pos m) e l) as [mrs' e'] eqn:E1. cbn [fst snd] in H1, He1.
  pose proof (round_nearest_even_ge (shr_m mrs') (loc_of_shr_record mrs')) as Hr.
  destruct (round_nearest_even (shr_m mrs') (loc_of_shr_record mrs')) as [|m1|m1] eqn:Em;
    try lia.
  destruct (shr_fexp_pos m1 e' loc_Exact He1) as [H2 _].
  destruct (shr_fexp prec emax (Z.pos m1) e' loc_Exact) as [mrs'' e''] eqn:E2. cbn [fst] in H2.
  destruct (shr_m mrs'') as [|p|p]; try lia.
  destruct (e'' <=? _)%Z; reflexivity.
Qed.

Lemma binary_round_not_zero (s : bool) (m : positive) (e : Z) :
  (emin <= e)%Z -> is_zero (binary_round prec emax s m e) = false.
Proof.
  intros He. unfold binary_round, shl_align.
  destruct (fexp prec emax (Z.pos (digits2_pos m) + e) - e)%Z as [|p|p] eqn:En;
    apply binary_round_aux_not_zero; try exact He.
  unfold fexp, emin, SpecFloat.emin, prec, emax in *. lia.
Qed.

Lemma valid_exponent (s : bool) (m : positive) (e : Z) :
  valid (S754_finite s m e) = true ->
  fexp prec emax (Z.pos (digits2_pos m) + e) = e /\ (emin <= e)%Z.
Proof.
  unfold valid, valid_binary, bounded, canonical_mantissa. intros H.
  apply andb_true_iff in H as [H _]. apply Z.eqb_eq in H. split; [exact H|].
  unfold fexp, emin, SpecFloat.emin, prec, emax in *. lia.
Qed.

(** The difference of a float that is not NaN and a number is not NaN. *)
Lemma sub_not_nan (x y : float) :
  isnan x = false -> finite y = true -> isnan (sub x y) = false.
Proof.
  destruct x as [sx|sx| |sx mx ex], y as [sy|sy| |sy my ey]; try discriminate; intros _ _;
    try (destruct sx, sy; reflexivity); try reflexivity.
  unfold sub, SFsub, binary_normalize.
  destruct (_ - _)%Z as [|p|p]; [reflexivity| |];
    unfold binary_round; destruct (shl_align _ _ _) as [mz ez];
    apply binary_round_aux_not_nan; lia.
Qed.

(** A float that equals a number has the difference zero with it. *)
Lemma sub_of_equal (x y : float) :
  finite y = true -> eqb x y = true -> is_zero (sub x y) = true.
Proof.
  destruct x as [sx|sx| |sx mx ex], y as [sy|sy| |sy my ey]; try discriminate; intros _ H;
    try (destruct sx, sy; reflexivity); try (destruct sx; discriminate H);
    try (destruct sy; discriminate H).
  assert (Heq : sx = sy /\ ex = ey /\ mx = my).
  { unfold eqb, SFeqb, SFcompare in H.
    change (Pos.compare_cont Eq mx my) with (Pos.compare mx my) in H.
    destruct sx, sy; try discriminate H;
      destruct (Z.compare_spec ex ey); try discriminate H;
      destruct (Pos.compare_spec mx my); try discriminate H; auto. }
  destruct Heq as (-> & -> & ->).
  unfold sub, SFsub. rewrite Z.sub_diag. reflexivity.
Qed.

(** With gradual underflow, two float64 numbers that differ have a
    difference that is not zero. *)
Lemma sub_zero_equal (x y : float) :
  valid x = true -> valid y = true -> finite x = true -> finite y = true ->
  is_zero (sub x y) = true -> eqb x y = true.
Proof.
  destruct x as [sx|sx| |sx mx ex], y as [sy|sy| |sy my ey]; try discriminate;
    intros Hx Hy _ _ H; try reflexivity; try discriminate H.
  apply valid_exponent in Hx as [Hcx Hex]. apply valid_exponent in Hy as [Hcy Hey].
  unfold sub, SFsub, binary_normalize in H.
  set (ez := Z.min ex ey) in H.
  destruct (_ - _)%Z as [|p|p] eqn:Ez.
  2,3: rewrite binary_round_not_zero in H by (subst ez; lia); discriminate H.
  clear H. unfold shl_align in Ez.
  assert (Hsame : sx = sy /\ ex = ey /\ mx = my).
  { subst ez. destruct (Z.min_spec ex ey) as [[Hlt Hmin]|[Hle Hmin]]; rewrite Hmin in Ez.
    - rewrite Z.sub_diag in Ez. destruct (ex - ey)%Z as [|d|d] eqn:Ed; try lia.
      cbn [fst] in Ez.
      assert (mx = Pos.iter xO my d) by (destruct sx, sy; cbn in Ez; lia). subst mx.
      rewrite digits2_iter_xO in Hcx. rewrite Pos2Z.inj_add in Hcx.
      replace (Z.pos (digits2_pos my) + Z.pos d + ex)%Z
        with (Z.pos (digits2_pos my) + ey)%Z in Hcx by lia.
      lia.
    - rewrite Z.sub_diag in Ez. destruct (ey - ex)%Z as [|d|d] eqn:Ed; try lia.
      + cbn [fst] in Ez. assert (ex = ey) by lia. subst ey.
        destruct sx, sy; cbn in Ez; try lia; split; try reflexivity; split; try reflexivity; lia.
      + cbn [fst] in Ez.
        assert (my = Pos.iter xO mx d) by (destruct sx, sy; cbn in Ez; lia). subst my.
        rewrite digits2_iter_xO in Hcy. rewrite Pos2Z.inj_add in Hcy.
        replace (Z.pos (digits2_pos mx) + Z.pos d + ey)%Z
          with (Z.pos (digits2_pos mx) + ex)%Z in Hcy by lia.
        lia. }
  destruct Hsame as (-> & -> & ->).
  unfold eqb, SFeqb, SFcompare.
  change (Pos.compare_cont Eq my my) with (Pos.compare my my).
  rewrite Z.compare_refl, Pos.compare_refl. destruct sy; reflexivity.
Qed.

(** ** Binary64: make_essentiality_matrix, row by row *)

Lemma b64_filter_absent (rs : list row) (l : string) :
  l ∉ rs.*1 -> List.filter (has_label l) rs = [].
Proof.
  induction rs as [|[l' v'] rs IH]; intros Hnotin; [reflexivity|].
  simpl. apply not_elem_of_cons in Hnotin as [Hne Hnotin].
  unfold has_label at 1. simpl in Hne.
  rewrite bool_decide_eq_false_2 by (simpl; congruence).
  apply IH, Hnotin.
Qed.

Lemma b64_filter_unique (rs : list row) (l : string) (v : list float) :
  NoDup rs.*1 -> (l, v) ∈ rs -> List.filter (has_label l) rs = [(l, v)].
Proof.
  induction rs as [|[l' v'] rs IH]; intros Hnd Hin; [inversion Hin|].
  apply NoDup_cons in Hnd as [Hnotin Hnd]. simpl.
  unfold has_label at 1. simpl.
  apply elem_of_cons in Hin as [Heq|Hin].
  - injection Heq as <- <-. rewrite bool_decide_eq_true_2 by reflexivity.
    f_equal. apply b64_filter_absent, Hnotin.
  - rewrite bool_decide_eq_false_2.
    + apply IH; assumption.
    + intros ->. apply Hnotin. apply (list_elem_of_fmap_2 fst _ _ Hin).
Qed.

Lemma b64_ix_row_Ok (df : DataFrame) (l : string) (v : list float) :
  ix_row df l = Ok v -> (l, v) ∈ rows df.
Proof.
  unfold ix_row. destruct (List.filter (has_label l) (rows df)) as [|r [|r' rs]] eqn:E;
    intros H; try discriminate H.
  injection H as <-.
  assert (Hin : In r (List.filter (has_label l) (rows df))) by (rewrite E; left; reflexivity).
  apply filter_In in Hin as [Hin Hl]. unfold has_label in Hl.
  apply bool_decide_eq_true_1 in Hl. apply list_elem_of_In.
  destruct r as [l' v]. simpl in *. subst l'. exact Hin.
Qed.

Lemma b64_ix_rows_unique (df : DataFrame) (ls : list string) :
  NoDup (index df) -> (forall l, l ∈ ls -> l ∈ index df) ->
  Forall2 (fun l (r : row) => r.1 = l /\ r ∈ rows df) ls (rows (ix_rows df ls)).
Proof.
  intros Hnd. induction ls as [|l ls IH]; intros Hsub; [constructor|].
  simpl. assert (Hl : l ∈ index df) by (apply Hsub; left).
  apply list_elem_of_fmap in Hl as ([l' v] & Heq & Hin). simpl in Heq. subst l'.
  unfold ix_label at 1. rewrite (b64_filter_unique _ _ _ Hnd Hin). simpl.
  constructor; [split; [reflexivity|exact Hin]|].
  apply IH. intros l' Hl'. apply Hsub. right. exact Hl'.
Qed.

Lemma b64_labels (P : row -> Prop) (ls : list string) (rs : list row) :
  Forall2 (fun l (r : row) => r.1 = l /\ P r) ls rs -> rs.*1 = ls /\ Forall P rs.
Proof.
  induction 1 as [|l r ls rs [Hl HP] _ [IH1 IH2]]; [split; [reflexivity|constructor]|].
  split; [rewrite fmap_cons, Hl, IH1; reflexivity|constructor; assumption].
Qed.

Lemma b64_common_indices_in (m f : DataFrame) (l : string) :
  l ∈ common_indices m f -> l ∈ index m /\ l ∈ index f.
Proof.
  unfold common_indices. intros H. apply list_elem_of_In, filter_In in H as [Hf Hm].
  apply bool_decide_eq_true_1 in Hm. split; [exact Hm|apply list_elem_of_In, Hf].
Qed.

Lemma b64_setitem_row (a : list (list float)) (i : nat) (r old : list float) :
  a !! i = Some old -> length r = length old -> setitem_row a i r = Ok (<[i := r]> a).
Proof.
  intros Hold Hlen. unfold setitem_row. rewrite Hold, Hlen, Nat.eqb_refl. reflexivity.
Qed.

Lemma b64_length_empty (uninit : nat -> nat -> float) (n_rows n_columns : nat) :
  length (empty uninit n_rows n_columns) = n_rows /\
  Forall (fun b => length b = n_columns) (empty uninit n_rows n_columns).
Proof.
  unfold empty. split.
  - rewrite length_map, length_seq. reflexivity.
  - apply Forall_forall. intros b Hb. apply list_elem_of_In, in_map_iff in Hb as (i & <- & _).
    rewrite length_map, length_seq. reflexivity.
Qed.

Section Binary64Build.

Variable pdf : float -> float -> float -> float -> float -> float.
Variable reflect : list float -> list float -> result (list float).
Variable ratio : list float -> list float -> list float -> direction -> result (list float).

Lemma b64_essentiality_row_inv n_x_grids factor vector df shape location scale cells :
  essentiality_row pdf reflect ratio n_x_grids factor vector df shape location scale
    = Ok cells ->
  exists x_grids curve,
    make_x_grids vector n_x_grids = Ok x_grids /\
    make_essentiality_indices pdf reflect ratio x_grids df shape location scale
      = Ok curve /\
    Forall2 (fun v c => essentiality_cell factor shape x_grids curve v = Ok c)
      vector cells.
Proof.
  unfold essentiality_row. intros H. bind_inv H. bind_inv H.
  eexists _, _. split; [reflexivity|]. split; [eassumption|].
  apply mapM_Forall2, H.
Qed.

Lemma b64_feature_row_inv n_x_grids factor (gene_x_sample : DataFrame) (fit : row) cells :
  feature_row pdf reflect ratio n_x_grids factor gene_x_sample fit = Ok cells ->
  exists vector N df shape location scale,
    fit.2 = [N; df; shape; location; scale] /\
    (fit.1, vector) ∈ rows gene_x_sample /\
    essentiality_row pdf reflect ratio n_x_grids factor vector df shape location scale
      = Ok cells.
Proof.
  unfold feature_row. intros H.
  destruct fit.2 as [|N [|df [|shape [|location [|scale [|]]]]]]; try discriminate H.
  bind_inv H. eexists _, N, df, shape, location, scale.
  split; [reflexivity|]. split; [apply b64_ix_row_Ok; eassumption|exact H].
Qed.

Lemma b64_feature_row_length n_x_grids factor (gene_x_sample : DataFrame) (fit : row) cells :
  rectangular gene_x_sample ->
  feature_row pdf reflect ratio n_x_grids factor gene_x_sample fit = Ok cells ->
  length cells = length (columns gene_x_sample).
Proof.
  intros Hrect H.
  apply b64_feature_row_inv in H as (vector & N & df & shape & location & scale & _ & Hin & H).
  apply b64_essentiality_row_inv in H as (x_grids & curve & _ & _ & Hcells).
  rewrite <- (Forall2_length _ _ _ Hcells).
  unfold rectangular in Hrect. rewrite Forall_forall in Hrect.
  exact (Hrect _ Hin).
Qed.

Lemma b64_fill_rows_eq n_x_grids factor (gene_x_sample : DataFrame) (fs : list row) :
  rectangular gene_x_sample ->
  forall (i : nat) (buf : list (list float)),
    Forall (fun b => length b = length (columns gene_x_sample)) buf ->
    (i + length fs <= length buf)%nat ->
    fill_rows pdf reflect ratio n_x_grids factor gene_x_sample i fs buf =
    let* rs := mapM (feature_row pdf reflect ratio n_x_grids factor gene_x_sample) fs in
    Ok (take i buf ++ rs ++ drop (i + length fs) buf).
Proof.
  intros Hrect. induction fs as [|fit fs IH]; intros i buf Hbuf Hlen.
  - simpl. rewrite Nat.add_0_r, take_drop. reflexivity.
  - simpl in Hlen |- *.
    destruct (feature_row pdf reflect ratio n_x_grids factor gene_x_sample fit) as [r|e] eqn:Er;
      [simpl|reflexivity].
    destruct (lookup_lt_is_Some_2 buf i) as [old Hold]; [lia|].
    rewrite (b64_setitem_row buf i r old Hold).
    2:{ rewrite (b64_feature_row_length _ _ _ _ _ Hrect Er).
        rewrite Forall_forall in Hbuf. symmetry. apply Hbuf.
        eapply list_elem_of_lookup_2, Hold. }
    simpl. rewrite IH.
    + destruct (mapM (feature_row pdf reflect ratio n_x_grids factor gene_x_sample) fs)
        as [rs|e]; [simpl|reflexivity].
      f_equal. rewrite (take_S_r (<[i:=r]> buf) i r).
      2:{ apply list_lookup_insert_eq. eapply lookup_lt_Some, Hold. }
      rewrite take_insert_ge by lia. rewrite drop_insert_lt by lia.
      rewrite <- app_assoc. simpl.
      replace (i + S (length fs))%nat with (S (i + length fs)) by lia. reflexivity.
    + apply Forall_insert; [exact Hbuf|].
      apply (b64_feature_row_length _ _ _ _ _ Hrect Er).
    + rewrite length_insert. lia.
Qed.

Lemma b64_rectangular_ix_rows (m : DataFrame) (ls : list string) :
  rectangular m -> NoDup (index m) -> (forall l, l ∈ ls -> l ∈ index m) ->
  rectangular (ix_rows m ls).
Proof.
  intros Hrect Hnd Hsub. unfold rectangular.
  destruct (b64_labels _ _ _ (b64_ix_rows_unique m ls Hnd Hsub)) as [_ Hin].
  rewrite Forall_forall in Hin |- *. intros r Hr.
  unfold rectangular in Hrect. rewrite Forall_forall in Hrect.
  simpl. apply Hrect, Hin, Hr.
Qed.

Lemma b64_make_essentiality_matrix_rows uninit (m f : DataFrame) n_x_grids factor :
  rectangular m -> NoDup (index m) -> NoDup (index f) ->
  make_essentiality_matrix pdf reflect ratio uninit m f n_x_grids factor =
  let common := common_indices m f in
  let* rs := mapM (feature_row pdf reflect ratio n_x_grids factor (ix_rows m common))
               (rows (ix_rows f common)) in
  Ok (mkDataFrame (columns m) (List.combine common rs)).
Proof.
  intros Hrect Hm Hf. unfold make_essentiality_matrix.
  set (common := common_indices m f).
  assert (Hcm : forall l, l ∈ common -> l ∈ index m)
    by (intros l Hl; apply (b64_common_indices_in m f l Hl)).
  assert (Hcf : forall l, l ∈ common -> l ∈ index f)
    by (intros l Hl; apply (b64_common_indices_in m f l Hl)).
  destruct (b64_labels _ _ _ (b64_ix_rows_unique m common Hm Hcm)) as [Him _].
  destruct (b64_labels _ _ _ (b64_ix_rows_unique f common Hf Hcf)) as [Hif _].
  assert (Hlm : length (rows (ix_rows m common)) = length common).
  { rewrite <- Him at 2. rewrite length_fmap. reflexivity. }
  assert (Hlf : length (rows (ix_rows f common)) = length common).
  { rewrite <- Hif at 2. rewrite length_fmap. reflexivity. }
  destruct (b64_length_empty uninit (length (rows (ix_rows m common)))
              (length (columns (ix_rows m common)))) as [Hlen Hall].
  rewrite b64_fill_rows_eq.
  - destruct (mapM _ _) as [rs|e] eqn:E; [cbn [bind]|reflexivity].
    rewrite Nat.add_0_l. rewrite drop_ge by (rewrite Hlen, Hlf, Hlm; lia).
    rewrite app_nil_r. cbn [take app]. unfold index. rewrite Him. reflexivity.
  - apply b64_rectangular_ix_rows; assumption.
  - exact Hall.
  - rewrite Hlen. lia.
Qed.

(** The row of a feature in the matrix that comes back: the cells computed
    from its scores, its grid and its curve. *)
Lemma b64_make_essentiality_matrix_cells uninit (m f : DataFrame) n_x_grids factor out :
  rectangular m -> NoDup (index m) -> NoDup (index f) ->
  make_essentiality_matrix pdf reflect ratio uninit m f n_x_grids factor = Ok out ->
  forall g cells, (g, cells) ∈ rows out ->
  exists vector N df shape location scale x_grids curve,
    (g, vector) ∈ rows m /\ (g, [N; df; shape; location; scale]) ∈ rows f /\
    make_x_grids vector n_x_grids = Ok x_grids /\
    make_essentiality_indices pdf reflect ratio x_grids df shape location scale
      = Ok curve /\
    Forall2 (fun v c => essentiality_cell factor shape x_grids curve v = Ok c)
      vector cells.
Proof.
  intros Hrect Hm Hf H g cells Hin.
  rewrite b64_make_essentiality_matrix_rows in H by assumption.
  cbv zeta in H. bind_inv H. injection H as <-. simpl in Hin.
  set (common := common_indices m f) in *.
  assert (Hcm : forall l, l ∈ common -> l ∈ index m)
    by (intros l Hl; apply (b64_common_indices_in m f l Hl)).
  assert (Hcf : forall l, l ∈ common -> l ∈ index f)
    by (intros l Hl; apply (b64_common_indices_in m f l Hl)).
  apply elem_of_combine in Hin as (i & Hg & Hcells).
  apply mapM_Forall2 in E.
  destruct (Forall2_lookup_r _ _ _ _ _ E Hcells) as (fit & Hfit & Hrow).
  pose proof (b64_ix_rows_unique f common Hf Hcf) as Hfits.
  destruct (Forall2_lookup_lr _ _ _ _ _ _ Hfits Hg Hfit) as [Hlabel Hfitin].
  apply b64_feature_row_inv in Hrow
    as (vector & N & df & shape & location & scale & Hparams & Hvec & Hrow).
  apply b64_essentiality_row_inv in Hrow as (x_grids & curve & Hgrid & Hcurve & Hall).
  exists vector, N, df, shape, location, scale, x_grids, curve.
  destruct fit as [l params]. simpl in Hlabel, Hparams. subst l params.
  split; [|split; [exact Hfitin|auto]].
  destruct (b64_labels _ _ _ (b64_ix_rows_unique m common Hm Hcm)) as [_ Hsub].
  rewrite Forall_forall in Hsub. apply Hsub, Hvec.
Qed.

End Binary64Build.

(** ** Binary64: the cell of a score *)

Lemma sign_spec (shape : float) : sign_of shape (sign shape).
Proof.
  unfold sign_of, sign.
  destruct shape as [[]|[]| |[] m e]; cbn; repeat split; intros H;
    try discriminate H; reflexivity.
Qed.

Lemma abs_le_zero (x : float) : leb (abs x) zero = true -> is_zero x = true.
Proof. destruct x as [[]|[]| |[] m e]; cbn; intros H; try discriminate H; reflexivity. Qed.

Lemma abs_of_zero (x : float) : is_zero x = true -> abs x = zero.
Proof. destruct x as [[]|[]| |[] m e]; cbn; intros H; try discriminate H; reflexivity. Qed.

Lemma isnan_abs (x : float) : isnan (abs x) = isnan x.
Proof. destruct x as [[]|[]| |[] m e]; reflexivity. Qed.

Lemma eqb_finite (x y : float) : eqb x y = true -> finite y = true -> finite x = true.
Proof. float_cases; compare_cases. Qed.

Lemma nearest_first_least (x_grids : list float) (v : float) (j : nat) :
  nearest x_grids v = Ok j -> first_least (distances x_grids v) j.
Proof. apply argmin_first_least. Qed.

(** At a number [v] that is a grid point, on a grid without NaN, the
    chosen index is the first one at which the computed difference from
    [v] is zero; the float64 there, as a float64 that is well formed,
    equals [v]. *)
Lemma nearest_at_grid_point (x_grids : list float) (v : float) (j k : nat) (g_k : float) :
  first_least (distances x_grids v) j ->
  finite v = true -> Forall (fun g => isnan g = false) x_grids ->
  x_grids !! k = Some g_k -> eqb g_k v = true ->
  exists g_j, x_grids !! j = Some g_j /\ (j <= k)%nat /\
              is_zero (sub g_j v) = true /\
              (valid g_j = true -> valid v = true -> eqb g_j v = true).
Proof.
  intros (d_j & Hj & Hlt & Hle) Hv Hgrid Hk Heq.
  unfold distances in Hj, Hlt, Hle. rewrite lookup_map in Hj.
  destruct (x_grids !! j) as [g_j|] eqn:Egj; [|discriminate Hj].
  injection Hj as <-.
  rewrite Forall_forall in Hgrid.
  assert (Hgj : isnan g_j = false) by (eapply Hgrid, list_elem_of_lookup_2, Egj).
  assert (Hdk : distances x_grids v !! k = Some zero).
  { unfold distances. rewrite lookup_map, Hk. cbn.
    rewrite (abs_of_zero _ (sub_of_equal _ _ Hv Heq)). reflexivity. }
  unfold distances in Hdk.
  assert (Hnan : isnan (abs (sub g_j v)) = false)
    by (rewrite isnan_abs; apply sub_not_nan; assumption).
  assert (Hzero : is_zero (sub g_j v) = true).
  { apply abs_le_zero. apply not_ltb_leb; [reflexivity|exact Hnan|].
    exact (Hlt k zero Hdk). }
  exists g_j. split; [reflexivity|]. split; [|split; [exact Hzero|]].
  - destruct (Nat.le_gt_cases j k) as [Hjk|Hkj]; [exact Hjk|].
    specialize (Hle k zero Hkj Hdk). rewrite (abs_of_zero _ Hzero) in Hle.
    discriminate Hle.
  - intros Hvj Hvv. apply sub_zero_equal; try assumption.
    destruct g_j; try reflexivity; try discriminate Hgj.
    destruct v; try discriminate Hv; destruct s; discriminate Hzero.
Qed.

Section Binary64Cells.

Variable pdf : float -> float -> float -> float -> float -> float.
Variable reflect : list float -> list float -> result (list float).
Variable ratio : list float -> list float -> list float -> direction -> result (list float).

(** C4, as the code has it: in the matrix that [make_essentiality_matrix]
    returns, the cell of a score [v] is factor * sign(Shape) *
    curve[j] in float64, where [j] is the first index at which the
    distance |grid[j] - v|, as float64 computes it, is least.  When [v] is
    a number and equals a grid point, on a grid without NaN, [j] is not
    after that point, the computed difference of the grid point at [j]
    from [v] is zero, and that grid point equals [v]. *)
Theorem nearest_computed_distance_cell uninit (m f : DataFrame) n_x_grids factor out :
  rectangular m -> NoDup (index m) -> NoDup (index f) ->
  make_essentiality_matrix pdf reflect ratio uninit m f n_x_grids factor = Ok out ->
  forall g cells, (g, cells) ∈ rows out ->
  exists vector N df shape location scale x_grids curve,
    (g, vector) ∈ rows m /\ (g, [N; df; shape; location; scale]) ∈ rows f /\
    make_x_grids vector n_x_grids = Ok x_grids /\
    make_essentiality_indices pdf reflect ratio x_grids df shape location scale
      = Ok curve /\
    Forall2 (fun v c =>
               exists j e s,
                 first_least (distances x_grids v) j /\ curve !! j = Some e /\
                 sign_of shape s /\ c = mul (mul factor s) e /\
                 (finite v = true -> Forall (fun x => isnan x = false) x_grids ->
                  forall k g_k, x_grids !! k = Some g_k -> eqb g_k v = true ->
                    exists g_j, x_grids !! j = Some g_j /\ (j <= k)%nat /\
                                is_zero (sub g_j v) = true /\
                                (valid g_j = true -> valid v = true ->
                                 eqb g_j v = true)))
      vector cells.
Proof.
  intros Hrect Hm Hf H g cells Hin.
  destruct (b64_make_essentiality_matrix_cells pdf reflect ratio _ _ _ _ _ _
              Hrect Hm Hf H g cells Hin)
    as (vector & N & df & shape & location & scale & x_grids & curve
        & Hvec & Hfit & Hgrid & Hcurve & Hall).
  exists vector, N, df, shape, location, scale, x_grids, curve.
  repeat (split; [assumption|]).
  eapply Forall2_impl; [exact Hall|]. clear Hall.
  intros v c Hc. simpl in Hc. unfold essentiality_cell in Hc.
  bind_inv Hc. rename a into j. bind_inv Hc. rename a into e.
  injection Hc as <-. exists j, e, (sign shape).
  pose proof (nearest_first_least _ _ _ E) as Hnear.
  split; [exact Hnear|]. split.
  { unfold getitem in E0. destruct (curve !! j); [injection E0 as ->; reflexivity|discriminate]. }
  split; [apply sign_spec|]. split; [reflexivity|].
  intros Hv Hnan k g_k Hk Heq.
  exact (nearest_at_grid_point _ _ _ _ _ Hnear Hv Hnan Hk Heq).
Qed.

End Binary64Cells.

(** C4 as stated fails.  The scores of a gene are -1, 1e-300 and 1, and the
    grid has the two points -1 and 1.  The grid point 1 is nearer to
    1e-300 than the grid point -1, but both distances are 1.0 in float64,
    and [argmin] takes the first: the cell of 1e-300 is the cell of -1,
    not that of 1. *)
Lemma nearest_by_rounded_distance :
  make_x_grids [of_Z (-1); tiny; of_Z 1] 2 = Ok [of_Z (-1); of_Z 1] /\
  Qabs (value (of_Z 1) - value tiny) < Qabs (value (of_Z (-1)) - value tiny) /\
  distances [of_Z (-1); of_Z 1] tiny = [of_Z 1; of_Z 1] /\
  nearest [of_Z (-1); of_Z 1] tiny = Ok 0%nat /\
  make_essentiality_indices bell_pdf spec_define_x_coordinates_for_reflection
    spec_define_cumulative_area_ratio_function [of_Z (-1); of_Z 1]
    (of_Z 1) (of_Z 2) (of_Z 0) (of_Z 1) = Ok [of_Z 1; ldexp 1 (-1)] /\
  build zeros scores_around_zero fit_of_A 2 (of_Z 1)
  = Ok (mkDataFrame ["s1"; "s2"; "s3"]%string
          [("A"%string, [of_Z 1; of_Z 1; ldexp 1 (-1)])]).
Proof. repeat split; vm_compute; reflexivity. Qed.

Lemma nearest_computed_distance_cell_witness :
  exists out cells,
    build zeros scores fit_of_B 5 (of_Z 2) = Ok out /\
    ("B"%string, cells) ∈ rows out /\
    exists vector N df shape location scale x_grids curve,
      ("B"%string, vector) ∈ rows scores /\
      ("B"%string, [N; df; shape; location; scale]) ∈ rows fit_of_B /\
      make_x_grids vector 5 = Ok x_grids /\
      make_essentiality_indices bell_pdf spec_define_x_coordinates_for_reflection
        spec_define_cumulative_area_ratio_function x_grids df shape location scale
        = Ok curve /\
      Forall2 (fun v c =>
                 exists j e s,
                   first_least (distances x_grids v) j /\ curve !! j = Some e /\
                   sign_of shape s /\ c = mul (mul (of_Z 2) s) e /\
                   (finite v = true -> Forall (fun x => isnan x = false) x_grids ->
                    forall k g_k, x_grids !! k = Some g_k -> eqb g_k v = true ->
                      exists g_j, x_grids !! j = Some g_j /\ (j <= k)%nat /\
                                  is_zero (sub g_j v) = true /\
                                  (valid g_j = true -> valid v = true ->
                                   eqb g_j v = true)))
        vector cells.
Proof.
  eexists _, _. split; [vm_compute; reflexivity|]. split; [left|].
  refine (nearest_computed_distance_cell bell_pdf spec_define_x_coordinates_for_reflection
            spec_define_cumulative_area_ratio_function zeros scores fit_of_B 5 (of_Z 2) _
            _ _ _ _ "B"%string _ _).
  - repeat constructor.
  - apply (bool_decide_unpack _). vm_compute. exact I.
  - apply (bool_decide_unpack _). vm_compute. exact I.
  - vm_compute. reflexivity.
  - left.
Defined.

(** ** Binary64: the grid of a feature *)













End Binary64Properties.

(** ** Sorting the fit table *)

Definition Shape_le (r1 r2 : row) : Prop := shape_le (Shape r1) (Shape r2) = true.

Lemma shape_le_total (a b : num) : shape_le a b = true \/ shape_le b a = true.
Proof.
  destruct a as [|p], b as [|q]; simpl; auto.
  destruct (Qle_bool p q) eqn:E; [left; exact E|right].
  apply Qle_bool_iff. assert (q < p) by (apply nle_false_Fin; exact E). lra.
Qed.

Lemma shape_le_trans (a b c : num) :
  shape_le a b = true -> shape_le b c = true -> shape_le a c = true.
Proof.
  destruct a as [|p], b as [|q], c as [|r]; simpl; intros H1 H2;
    try reflexivity; try discriminate.
  apply Qle_bool_iff in H1, H2. apply Qle_bool_iff. lra.
Qed.

Lemma insert_after_perm (r : row) (t : list row) :
  Permutation (insert_after r t) (r :: t).
Proof.
  induction t as [|r' t IH]; simpl; [reflexivity|].
  destruct (shape_le (Shape r') (Shape r)); [|reflexivity].
  rewrite IH. apply perm_swap.
Qed.

Lemma insert_before_perm (r : row) (t : list row) :
  Permutation (insert_before r t) (r :: t).
Proof.
  induction t as [|r' t IH]; simpl; [reflexivity|].
  destruct (shape_le (Shape r) (Shape r')); [reflexivity|].
  rewrite IH. apply perm_swap.
Qed.

Lemma insert_after_sorted (r : row) (t : list row) :
  StronglySorted Shape_le t -> StronglySorted Shape_le (insert_after r t).
Proof.
  induction 1 as [|r' t Hsorted IH Hall]; simpl; [repeat constructor|].
  destruct (shape_le (Shape r') (Shape r)) eqn:E.
  - constructor; [exact IH|].
    rewrite (insert_after_perm r t). constructor; assumption.
  - assert (Hr : Shape_le r r').
    { destruct (shape_le_total (Shape r) (Shape r')); [assumption|congruence]. }
    constructor; [constructor; assumption|].
    constructor; [exact Hr|].
    eapply Forall_impl; [exact Hall|]. intros x Hx. eapply shape_le_trans; eassumption.
Qed.

Lemma insert_before_sorted (r : row) (t : list row) :
  StronglySorted Shape_le t -> StronglySorted Shape_le (insert_before r t).
Proof.
  induction 1 as [|r' t Hsorted IH Hall]; simpl; [repeat constructor|].
  destruct (shape_le (Shape r) (Shape r')) eqn:E.
  - constructor; [constructor; assumption|].
    constructor; [exact E|].
    eapply Forall_impl; [exact Hall|]. intros x Hx. eapply shape_le_trans; eassumption.
  - assert (Hr : Shape_le r' r).
    { destruct (shape_le_total (Shape r') (Shape r)); [assumption|congruence]. }
    constructor; [exact IH|].
    rewrite (insert_before_perm r t). constructor; assumption.
Qed.

Lemma fold_insert_contract (insert : row -> list row -> list row) :
  (forall r t, Permutation (insert r t) (r :: t)) ->
  (forall r t, StronglySorted Shape_le t -> StronglySorted Shape_le (insert r t)) ->
  forall t acc, StronglySorted Shape_le acc ->
    Permutation (List.fold_left (fun acc r => insert r acc) t acc) (t ++ acc) /\
    StronglySorted Shape_le (List.fold_left (fun acc r => insert r acc) t acc).
Proof.
  intros Hperm Hsorted. induction t as [|r t IH]; intros acc Hacc; simpl.
  - split; [reflexivity|exact Hacc].
  - destruct (IH (insert r acc) (Hsorted r acc Hacc)) as [IHp IHs].
    split; [|exact IHs]. rewrite IHp, Hperm. symmetry. apply Permutation_middle.
Qed.

Lemma StronglySorted_by_Shape (t : list row) :
  StronglySorted Shape_le t -> sorted_by_Shape t.
Proof.
  induction 1 as [|r t Hsorted IH Hall]; intros i j r1 r2 Hij H1 H2.
  - discriminate H1.
  - destruct j as [|j]; [lia|]. simpl in H2.
    destruct i as [|i]; simpl in H1.
    + injection H1 as <-. rewrite Forall_forall in Hall.
      apply Hall. eapply list_elem_of_lookup_2, H2.
    + apply (IH i j); [lia|assumption|assumption].
Qed.

Lemma sort_keeping_ties_contract : sort_values_contract sort_keeping_ties.
Proof.
  intros t. unfold sort_keeping_ties.
  destruct (fold_insert_contract insert_after insert_after_perm insert_after_sorted t [])
    as [Hp Hs]; [constructor|].
  split; [rewrite Hp, app_nil_r; reflexivity|apply StronglySorted_by_Shape, Hs].
Qed.

Lemma sort_reversing_ties_contract : sort_values_contract sort_reversing_ties.
Proof.
  intros t. unfold sort_reversing_ties.
  destruct (fold_insert_contract insert_before insert_before_perm insert_before_sorted t [])
    as [Hp Hs]; [constructor|].
  split; [rewrite Hp, app_nil_r; reflexivity|apply StronglySorted_by_Shape, Hs].
Qed.

(** ** Selecting the features to fit *)

Lemma dropna_nil_existsb (v : list num) : dropna v = [] <-> existsb notnan v = false.
Proof.
  unfold dropna. induction v as [|x v IH]; simpl; [tauto|].
  destruct (notnan x); simpl; [split; discriminate|exact IH].
Qed.

Lemma dropna_nan_row (df : DataFrame) : dropna (nan_row df) = [].
Proof. unfold nan_row. induction (columns df); [reflexivity|assumption]. Qed.

(** The rows that [df.ix[[l], :]] yields all carry the label [l], and are
    rows of [df] or the row of NaN. *)
Lemma ix_label_rows (df : DataFrame) (l : string) (r : row) :
  r ∈ ix_label df l -> r.1 = l /\ (r ∈ rows df \/ r.2 = nan_row df).
Proof.
  unfold ix_label. intros Hr.
  destruct (List.filter (has_label l) (rows df)) as [|r0 rs] eqn:E.
  - apply list_elem_of_singleton in Hr as ->. split; [reflexivity|right; reflexivity].
  - rewrite <- E in Hr. apply list_elem_of_In, filter_In in Hr as [Hin Hl].
    apply bool_decide_eq_true_1 in Hl. split; [exact Hl|left; apply list_elem_of_In, Hin].
Qed.

Lemma ix_label_present (df : DataFrame) (l : string) (v : list num) :
  (l, v) ∈ rows df -> (l, v) ∈ ix_label df l.
Proof.
  intros Hin. unfold ix_label.
  assert (H : In (l, v) (List.filter (has_label l) (rows df))).
  { apply filter_In. split; [apply list_elem_of_In, Hin|].
    apply bool_decide_eq_true_2. reflexivity. }
  destruct (List.filter (has_label l) (rows df)); [destruct H|apply list_elem_of_In, H].
Qed.

Lemma select_features_all_missing (m : DataFrame) (features : selection) :
  selection_truth features = true ->
  (forall f, f ∈ selection_list features -> f ∉ index m \/ all_missing m f) ->
  select_features m features = Raise SelectionError.
Proof.
  intros Htruth Hall. unfold select_features. rewrite Htruth.
  assert (Hnone : rows (dropna_all (ix_rows m (selection_list features))) = []).
  { simpl. induction (selection_list features) as [|f fs IH]; [reflexivity|].
    simpl. rewrite List.filter_app, IH.
    2:{ intros f' Hf'. apply Hall. right. exact Hf'. }
    rewrite app_nil_r.
    destruct (List.filter _ (ix_label m f)) as [|r rs] eqn:E; [reflexivity|exfalso].
    assert (Hr : In r (List.filter (fun r : row => existsb notnan r.2) (ix_label m f)))
      by (rewrite E; left; reflexivity).
    apply filter_In in Hr as [Hr Hex].
    apply list_elem_of_In, ix_label_rows in Hr as [Hl [Hin|Hnan]].
    - destruct r as [l v]. simpl in Hl, Hex. subst l.
      destruct (Hall f) as [Habsent|Hmiss]; [left| |].
      + apply Habsent. apply (list_elem_of_fmap_2 fst _ _ Hin).
      + apply Hmiss, dropna_nil_existsb in Hin. congruence.
    - rewrite Hnan in Hex. pose proof (dropna_nan_row m) as Hd.
      apply dropna_nil_existsb in Hd. congruence. }
  unfold index. rewrite Hnone. reflexivity.
Qed.

Lemma select_features_present (m : DataFrame) (features : selection) (f : string)
  (v : list num) :
  f ∈ selection_list features -> truthy f = true ->
  (f, v) ∈ rows m -> dropna v <> [] ->
  exists df, select_features m features = Ok df /\ (f, v) ∈ rows df.
Proof.
  intros Hf Htruthy Hin Hv. unfold select_features.
  assert (Htruth : selection_truth features = true).
  { destruct features as [|f'|fs]; simpl in *.
    - inversion Hf.
    - apply list_elem_of_singleton in Hf as <-. exact Htruthy.
    - destruct fs; [inversion Hf|reflexivity]. }
  rewrite Htruth.
  assert (Hrow : (f, v) ∈ rows (dropna_all (ix_rows m (selection_list features)))).
  { simpl. apply list_elem_of_In, filter_In. split.
    - apply in_flat_map. exists f. split; [apply list_elem_of_In, Hf|].
      apply list_elem_of_In, ix_label_present, Hin.
    - simpl. destruct (existsb notnan v) eqn:E; [reflexivity|].
      apply dropna_nil_existsb in E. contradiction. }
  assert (Hany : any (index (dropna_all (ix_rows m (selection_list features)))) = true).
  { unfold any. apply existsb_exists. exists f. split; [|exact Htruthy].
    apply list_elem_of_In. apply (list_elem_of_fmap_2 fst _ _ Hrow). }
  rewrite Hany. eexists. split; [reflexivity|exact Hrow].
Qed.

Lemma filter_has_label_drop_other (rs : list row) (f l : string) :
  l <> f ->
  List.filter (has_label l) (List.filter (fun r => negb (has_label f r)) rs) =
  List.filter (has_label l) rs.
Proof.
  intros Hne. induction rs as [|r rs IH]; [reflexivity|]. simpl.
  destruct (has_label f r) eqn:Ef; simpl.
  - apply bool_decide_eq_true_1 in Ef.
    assert (El : has_label l r = false) by (apply bool_decide_eq_false_2; congruence).
    rewrite El. exact IH.
  - destruct (has_label l r); [f_equal|]; exact IH.
Qed.

Lemma filter_has_label_dropped (rs : list row) (f : string) :
  List.filter (has_label f) (List.filter (fun r => negb (has_label f r)) rs) = [].
Proof.
  induction rs as [|r rs IH]; [reflexivity|]. simpl.
  destruct (has_label f r) eqn:Ef; simpl; [exact IH|]. rewrite Ef. exact IH.
Qed.

(** A feature without any score is selected like a feature that the matrix
    does not have. *)
Lemma select_features_drop (m : DataFrame) (features : selection) (f : string) :
  selection_truth features = true -> all_missing m f ->
  select_features m features = select_features (drop_feature f m) features.
Proof.
  intros Htruth Hmiss. unfold select_features. rewrite Htruth.
  assert (Hsame : dropna_all (ix_rows m (selection_list features)) =
                  dropna_all (ix_rows (drop_feature f m) (selection_list features))).
  { unfold dropna_all, ix_rows. simpl. f_equal.
    induction (selection_list features) as [|l ls IH]; [reflexivity|].
    simpl. rewrite !List.filter_app, IH. f_equal.
    destruct (decide (l = f)) as [->|Hne].
    - unfold ix_label at 2. simpl. rewrite filter_has_label_dropped. simpl.
      pose proof (dropna_nan_row m) as Hd. apply dropna_nil_existsb in Hd.
      unfold nan_row in Hd |- *. simpl. rewrite Hd.
      destruct (List.filter _ (ix_label m f)) as [|r rs] eqn:E; [reflexivity|exfalso].
      assert (Hr : In r (List.filter (fun r : row => existsb notnan r.2) (ix_label m f)))
        by (rewrite E; left; reflexivity).
      apply filter_In in Hr as [Hr Hex].
      apply list_elem_of_In, ix_label_rows in Hr as [Hl [Hin|Hnan]].
      + destruct r as [l v]. simpl in Hl, Hex. subst l.
        apply Hmiss, dropna_nil_existsb in Hin. congruence.
      + rewrite Hnan in Hex. unfold nan_row in Hex. congruence.
    - unfold ix_label. simpl. rewrite filter_has_label_drop_other by exact Hne.
      reflexivity. }
  rewrite Hsame. reflexivity.
Qed.

Lemma select_features_excludes (m : DataFrame) (features : selection) (f : string)
  (df : DataFrame) :
  selection_truth features = true -> all_missing m f ->
  select_features m features = Ok df -> f ∉ index df.
Proof.
  intros Htruth Hmiss. unfold select_features. rewrite Htruth.
  destruct (any _); [|discriminate]. intros H. injection H as <-.
  intros Hin. apply list_elem_of_fmap in Hin as ([l v] & Hl & Hin). simpl in Hl. subst l.
  simpl in Hin. apply list_elem_of_In, filter_In in Hin as [Hin Hex]. simpl in Hex.
  apply in_flat_map in Hin as (l & _ & Hin).
  apply list_elem_of_In, ix_label_rows in Hin as [_ [Hin|Hnan]].
  - apply Hmiss, dropna_nil_existsb in Hin. congruence.
  - simpl in Hnan. subst v. pose proof (dropna_nan_row m) as Hd.
    apply dropna_nil_existsb in Hd. congruence.
Qed.

(** ** fit_essentiality *)

Section Fit.

Variable pdf : num -> num -> num -> num -> num -> num.
Variable skew_t_fit : list num -> result (num * num * num * num).
Variable histogram_max : list num -> nat -> result num.
Variable sort_values_Shape : list row -> list row.
Variable reflect : list num -> list num -> result (list num).
Variable ratio : list num -> list num -> list num -> direction -> result (list num).

Abbreviation fit_rows' := (fit_rows pdf skew_t_fit histogram_max reflect ratio).
Abbreviation fit_features' :=
  (fit_features pdf skew_t_fit histogram_max sort_values_Shape reflect ratio).
Abbreviation fit_essentiality' :=
  (fit_essentiality pdf skew_t_fit histogram_max sort_values_Shape reflect ratio).

Lemma set_fit_labels (f : string) (params : list num) (t : list row) :
  (set_fit f params t).*1 = t.*1.
Proof.
  unfold set_fit. induction t as [|r t IH]; [reflexivity|].
  cbn [List.map]. rewrite !fmap_cons. f_equal; [destruct (has_label f r); reflexivity|exact IH].
Qed.

Lemma set_fit_rows (f : string) (params : list num) (t : list row) (r : row) :
  r ∈ set_fit f params t -> r = (f, params) \/ (r ∈ t /\ r.1 <> f).
Proof.
  unfold set_fit. intros Hr. apply list_elem_of_In, in_map_iff in Hr as (r0 & Hr & Hin).
  destruct (has_label f r0) eqn:E.
  - apply bool_decide_eq_true_1 in E. left. subst r. rewrite E. reflexivity.
  - apply bool_decide_eq_false_1 in E. right. subst r.
    split; [apply list_elem_of_In, Hin|exact E].
Qed.

(** One turn of the loop that returned. *)
Lemma fit_rows_step (m bar : DataFrame) plot n f_i f_v todo tbl t :
  fit_rows' m bar plot n ((f_i, f_v) :: todo) tbl = Ok t ->
  exists p, skew_t_fit (dropna f_v) = Ok p /\
            fit_rows' m bar plot n todo (set_fit f_i (record_of f_v p) tbl) = Ok t.
Proof.
  cbn [fit_rows]. intros H.
  destruct (skew_t_fit (dropna f_v)) as [[[[df shape] location] scale]|e] eqn:E;
    [|discriminate H].
  cbn [bind] in H. exists (df, shape, location, scale). split; [reflexivity|].
  match type of H with bind ?r _ = _ => destruct r; [|discriminate H] end.
  exact H.
Qed.

Lemma fit_rows_labels (m bar : DataFrame) plot n todo :
  forall tbl t, fit_rows' m bar plot n todo tbl = Ok t -> t.*1 = tbl.*1.
Proof.
  induction todo as [|[f_i f_v] todo IH]; intros tbl t H.
  - injection H as <-. reflexivity.
  - apply fit_rows_step in H as (p & _ & H).
    rewrite (IH _ _ H). apply set_fit_labels.
Qed.

Lemma fit_rows_fitted (m bar : DataFrame) plot n todo :
  forall tbl t, fit_rows' m bar plot n todo tbl = Ok t ->
  forall f v, (f, v) ∈ todo -> exists p, skew_t_fit (dropna v) = Ok p.
Proof.
  induction todo as [|[f_i f_v] todo IH]; intros tbl t H f v Hin; [inversion Hin|].
  apply fit_rows_step in H as (p & Hp & H).
  apply elem_of_cons in Hin as [Heq|Hin].
  - injection Heq as -> ->. exists p. exact Hp.
  - exact (IH _ _ H f v Hin).
Qed.

Lemma fit_rows_records (m bar : DataFrame) plot n todo :
  forall tbl t, fit_rows' m bar plot n todo tbl = Ok t ->
  forall f params, (f, params) ∈ t ->
    ((f, params) ∈ tbl /\ f ∉ todo.*1) \/
    exists v p, (f, v) ∈ todo /\ skew_t_fit (dropna v) = Ok p /\ params = record_of v p.
Proof.
  induction todo as [|[f_i f_v] todo IH]; intros tbl t H f params Hin.
  - injection H as <-. left. split; [exact Hin|inversion 1].
  - apply fit_rows_step in H as (p & Hp & H).
    destruct (IH _ _ H f params Hin) as [[Hin' Hnotin]|(v & q & Hv & Hq & Hparams)].
    + apply set_fit_rows in Hin' as [Heq|[Hin' Hne]].
      * injection Heq as -> ->. right. exists f_v, p. split; [left|auto].
      * left. split; [exact Hin'|]. rewrite fmap_cons. simpl in Hne |- *.
        apply not_elem_of_cons. split; assumption.
    + right. exists v, q. split; [right; exact Hv|auto].
Qed.

Lemma fit_features_inv (df bar : DataFrame) n plot t :
  fit_features' df bar n plot = Ok t ->
  exists t', fit_rows' df bar plot n (rows df)
               (List.map (fun f => (f, List.map (fun _ => NaN) fit_columns)) (index df))
             = Ok t' /\
             rows t = sort_values_Shape t' /\ t'.*1 = index df.
Proof.
  unfold fit_features. intros H. bind_inv H. injection H as <-.
  exists a. split; [reflexivity|]. split; [reflexivity|].
  rewrite (fit_rows_labels _ _ _ _ _ _ _ E).
  generalize (index df) as ls. induction ls as [|l ls IH]; [reflexivity|].
  cbn [List.map]. rewrite fmap_cons. f_equal. exact IH.
Qed.

End Fit.

Section FitProperties.

Variable pdf : num -> num -> num -> num -> num -> num.
Variable skew_t_fit : list num -> result (num * num * num * num).
Variable histogram_max : list num -> nat -> result num.
Variable sort_values_Shape : list row -> list row.
Variable reflect : list num -> list num -> result (list num).
Variable ratio : list num -> list num -> list num -> direction -> result (list num).

Abbreviation fit_features' :=
  (fit_features pdf skew_t_fit histogram_max sort_values_Shape reflect ratio).
Abbreviation fit_essentiality' :=
  (fit_essentiality pdf skew_t_fit histogram_max sort_values_Shape reflect ratio).

(** C5, as the code has it: with a selection, the call raises the
    selection error when every requested identifier is absent from the
    matrix or has no score at all; when a requested identifier (a
    non-empty string) has a score, the selection keeps it and the fitting
    proceeds on the selected rows. *)
Theorem selection_error_when_nothing_to_fit (m bar : DataFrame) (features : selection)
  n_xgrids plot :
  selection_truth features = true ->
  ((forall f, f ∈ selection_list features -> f ∉ index m \/ all_missing m f) ->
   fit_essentiality' m bar features n_xgrids plot = Raise SelectionError) /\
  (forall f v, f ∈ selection_list features -> truthy f = true ->
     (f, v) ∈ rows m -> dropna v <> [] ->
     exists df, select_features m features = Ok df /\ f ∈ index df /\
       fit_essentiality' m bar features n_xgrids plot =
       fit_features' df bar n_xgrids plot).
Proof.
  intros Htruth. split.
  - intros Hall. unfold fit_essentiality.
    rewrite (select_features_all_missing m features Htruth Hall). reflexivity.
  - intros f v Hf Htruthy Hin Hv.
    destruct (select_features_present m features f v Hf Htruthy Hin Hv) as (df & Hdf & Hrow).
    exists df. split; [exact Hdf|]. split.
    + apply (list_elem_of_fmap_2 fst _ _ Hrow).
    + unfold fit_essentiality. rewrite Hdf. reflexivity.
Qed.

(** C10, as the code has it: with a selection, a feature of the matrix
    that has no score at all is dropped before the fitting, as if the
    matrix did not have it: the call returns what it returns on the matrix
    without the feature, the selected rows do not include it and neither
    does a returned fit table.  The selection error is raised when no
    requested feature has a score, and it is not raised when a requested
    feature with a non-empty name has one.  Without a selection the
    feature is fitted, on the empty vector of its scores: a call that
    returns has fitted the empty vector and lists the feature; when the
    fitter raises on the empty vector the call raises, with the fitter's
    exception if the feature is the first row. *)
Theorem all_missing_feature_dropped (m bar : DataFrame) (features : selection)
  (f : string) n_xgrids plot :
  sort_values_contract sort_values_Shape ->
  f ∈ index m -> all_missing m f ->
  (selection_truth features = true ->
   fit_essentiality' m bar features n_xgrids plot =
     fit_essentiality' (drop_feature f m) bar features n_xgrids plot /\
   (forall df, select_features m features = Ok df -> f ∉ index df) /\
   (forall t, fit_essentiality' m bar features n_xgrids plot = Ok t -> f ∉ index t) /\
   ((forall f', f' ∈ selection_list features -> f' ∉ index m \/ all_missing m f') ->
    fit_essentiality' m bar features n_xgrids plot = Raise SelectionError) /\
   (forall f' v', f' ∈ selection_list features -> truthy f' = true ->
      (f', v') ∈ rows m -> dropna v' <> [] ->
      exists df, select_features m features = Ok df /\
        fit_essentiality' m bar features n_xgrids plot =
        fit_features' df bar n_xgrids plot)) /\
  ((forall t, fit_essentiality' m bar SelNone n_xgrids plot = Ok t ->
      f ∈ index t /\ exists p, skew_t_fit [] = Ok p) /\
   (forall e, skew_t_fit [] = Raise e ->
      (exists e', fit_essentiality' m bar SelNone n_xgrids plot = Raise e') /\
      (forall v rest, rows m = (f, v) :: rest ->
         fit_essentiality' m bar SelNone n_xgrids plot = Raise e))).
Proof.
  intros Hsort Hin Hmiss.
  assert (Hfitted : forall t, fit_essentiality' m bar SelNone n_xgrids plot = Ok t ->
                      f ∈ index t /\ exists p, skew_t_fit [] = Ok p).
  { intros t H. unfold fit_essentiality in H. simpl in H.
    apply fit_features_inv in H as (t' & Hfit & Hrows & Hlabels).
    destruct (Hsort t') as [Hperm _]. split.
    + unfold index. rewrite Hrows, (fmap_Permutation fst _ _ Hperm), Hlabels. exact Hin.
    + apply list_elem_of_fmap in Hin as ([l v] & Hl & Hrow). simpl in Hl. subst l.
      destruct (fit_rows_fitted _ _ _ _ _ _ _ _ _ _ _ _ Hfit f v Hrow) as (p & Hp).
      rewrite (Hmiss v Hrow) in Hp. exists p. exact Hp. }
  split.
  - intros Htruth. split; [|split; [|split; [|split]]].
    + unfold fit_essentiality.
      rewrite (select_features_drop m features f Htruth Hmiss). reflexivity.
    + intros df. apply select_features_excludes; assumption.
    + intros t H. unfold fit_essentiality in H. bind_inv H.
      pose proof (select_features_excludes _ _ _ _ Htruth Hmiss E) as Hnotin.
      apply fit_features_inv in H as (t' & _ & Hrows & Hlabels).
      intros Hf. apply Hnotin. rewrite <- Hlabels.
      unfold index in Hf. rewrite Hrows in Hf.
      destruct (Hsort t') as [Hperm _].
      rewrite <- (fmap_Permutation fst _ _ Hperm). exact Hf.
    + intros Hall. unfold fit_essentiality.
      rewrite (select_features_all_missing m features Htruth Hall). reflexivity.
    + intros f' v' Hf' Htruthy Hin' Hv'.
      destruct (select_features_present m features f' v' Hf' Htruthy Hin' Hv')
        as (df & Hdf & _).
      exists df. split; [exact Hdf|]. unfold fit_essentiality. rewrite Hdf. reflexivity.
  - split; [exact Hfitted|]. intros e He. split.
    + destruct (fit_essentiality' m bar SelNone n_xgrids plot) as [t|e'] eqn:Ecall;
        [|exists e'; reflexivity].
      destruct (Hfitted t eq_refl) as [_ [p Hp]]. congruence.
    + intros v rest Hrows.
      assert (Hv : dropna v = []).
      { apply Hmiss. rewrite Hrows. left. }
      unfold fit_essentiality, fit_features. cbn [select_features selection_truth bind].
      rewrite Hrows. cbn [fit_rows]. rewrite Hv, He. reflexivity.
Qed.

(** C3, as the code has it: the fit table that comes back holds the fit
    records of the selected features, one row per selected row, in
    ascending order of Shape with missing shapes last.  Nothing more is
    known of the order of the rows: the order of rows with equal Shape is
    the one [sort_values] picks. *)
Theorem fit_table_sorted_by_Shape (m bar : DataFrame) (features : selection)
  n_xgrids plot (t : DataFrame) :
  sort_values_contract sort_values_Shape ->
  fit_essentiality' m bar features n_xgrids plot = Ok t ->
  sorted_by_Shape (rows t) /\
  exists df,
    select_features m features = Ok df /\
    Permutation (index t) (index df) /\
    forall f params, (f, params) ∈ rows t ->
      exists v p, (f, v) ∈ rows df /\ skew_t_fit (dropna v) = Ok p /\
                  params = record_of v p.
Proof.
  intros Hsort H. unfold fit_essentiality in H. bind_inv H. rename a into df.
  apply fit_features_inv in H as (t' & Hfit & Hrows & Hlabels).
  destruct (Hsort t') as [Hperm Hsorted].
  split; [rewrite Hrows; exact Hsorted|].
  exists df. split; [reflexivity|]. split.
  - unfold index at 1. rewrite Hrows, (fmap_Permutation fst _ _ Hperm), Hlabels. reflexivity.
  - intros f params Hin. rewrite Hrows, Hperm in Hin.
    destruct (fit_rows_records _ _ _ _ _ _ _ _ _ _ _ _ Hfit f params Hin)
      as [[Hinit Hnotin]|Hfitted]; [exfalso|exact Hfitted].
    apply Hnotin. fold (index df). rewrite <- Hlabels.
    rewrite (fit_rows_labels _ _ _ _ _ _ _ _ _ _ _ _ Hfit).
    apply (list_elem_of_fmap_2 fst _ _ Hinit).
Qed.

End FitProperties.

(** C5 as stated fails: G is a feature of the matrix, and selecting it
    raises the selection error, because G has no score. *)
Lemma selection_error_for_present_feature :
  "G"%string ∈ index scores_with_empty_G /\
  fitAll sort_keeping_ties scores_with_empty_G no_bars (SelOne "G") 5 false =
  Raise SelectionError.
Proof. split; [left|vm_compute; reflexivity]. Qed.

Lemma all_missing_G : all_missing scores_with_empty_G "G".
Proof.
  intros v Hv. apply list_elem_of_In in Hv. simpl in Hv.
  destruct Hv as [Hv|[Hv|[]]]; [injection Hv as <-; reflexivity|discriminate Hv].
Qed.

Lemma selection_error_when_nothing_to_fit_witness :
  ((forall f, f ∈ ["G"; "H"]%string ->
              f ∉ index scores_with_empty_G \/ all_missing scores_with_empty_G f) ->
   fitAll sort_keeping_ties scores_with_empty_G no_bars (SelMany ["G"; "H"]%string) 5 false
   = Raise SelectionError) /\
  (forall f v, f ∈ ["G"; "H"]%string -> truthy f = true ->
     (f, v) ∈ rows scores_with_empty_G -> dropna v <> [] ->
     exists df, select_features scores_with_empty_G (SelMany ["G"; "H"]%string) = Ok df /\
       f ∈ index df /\
       fitAll sort_keeping_ties scores_with_empty_G no_bars (SelMany ["G"; "H"]%string) 5 false
       = fit_features bell_pdf first_value_fit count_histogram_max sort_keeping_ties
           spec_define_x_coordinates_for_reflection
           spec_define_cumulative_area_ratio_function df no_bars 5 false).
Proof.
  apply (selection_error_when_nothing_to_fit bell_pdf first_value_fit count_histogram_max
           sort_keeping_ties spec_define_x_coordinates_for_reflection
           spec_define_cumulative_area_ratio_function
           scores_with_empty_G no_bars (SelMany ["G"; "H"]%string) 5 false).
  reflexivity.
Defined.

(** C10 as stated fails: G, a feature of the matrix without any score, is
    the one feature in the list of requested features, and the call raises
    the selection error. *)
Lemma all_missing_feature_selection_error :
  "G"%string ∈ index scores_with_empty_G /\
  all_missing scores_with_empty_G "G" /\
  fitAll sort_keeping_ties scores_with_empty_G no_bars (SelMany ["G"]%string) 5 true =
  Raise SelectionError.
Proof. split; [left|]. split; [exact all_missing_G|vm_compute; reflexivity]. Qed.

(** Without a selection the feature without scores reaches the fitter,
    here one that refuses an empty vector; with G and H selected only H is
    fitted. *)
Example all_missing_feature_is_fitted_without_selection :
  fitAll sort_keeping_ties scores_with_empty_G no_bars SelNone 5 false =
    Raise (ValueError "fit of an empty vector") /\
  fitAll sort_keeping_ties scores_with_empty_G no_bars (SelMany ["G"; "H"]%string) 5 false =
    Ok (mkDataFrame fit_columns [("H"%string, [Fin 2; Fin 1; Fin 1; Fin 0; Fin 1])]).
Proof. split; vm_compute; reflexivity. Qed.

Lemma all_missing_feature_dropped_witness :
  (selection_truth (SelMany ["G"; "H"]%string) = true ->
   fitAll sort_keeping_ties scores_with_empty_G no_bars (SelMany ["G"; "H"]%string) 5 false =
     fitAll sort_keeping_ties (drop_feature "G" scores_with_empty_G) no_bars
       (SelMany ["G"; "H"]%string) 5 false /\
   (forall df, select_features scores_with_empty_G (SelMany ["G"; "H"]%string) = Ok df ->
               "G"%string ∉ index df) /\
   (forall t, fitAll sort_keeping_ties scores_with_empty_G no_bars
                (SelMany ["G"; "H"]%string) 5 false = Ok t -> "G"%string ∉ index t) /\
   ((forall f', f' ∈ selection_list (SelMany ["G"; "H"]%string) ->
       f' ∉ index scores_with_empty_G \/ all_missing scores_with_empty_G f') ->
    fitAll sort_keeping_ties scores_with_empty_G no_bars (SelMany ["G"; "H"]%string) 5 false
    = Raise SelectionError) /\
   (forall f' v', f' ∈ selection_list (SelMany ["G"; "H"]%string) -> truthy f' = true ->
      (f', v') ∈ rows scores_with_empty_G -> dropna v' <> [] ->
      exists df, select_features scores_with_empty_G (SelMany ["G"; "H"]%string) = Ok df /\
        fitAll sort_keeping_ties scores_with_empty_G no_bars
          (SelMany ["G"; "H"]%string) 5 false =
        fit_features bell_pdf first_value_fit count_histogram_max sort_keeping_ties
          spec_define_x_coordinates_for_reflection
          spec_define_cumulative_area_ratio_function df no_bars 5 false)) /\
  ((forall t, fitAll sort_keeping_ties scores_with_empty_G no_bars SelNone 5 false = Ok t ->
      "G"%string ∈ index t /\ exists p, first_value_fit [] = Ok p) /\
   (forall e, first_value_fit [] = Raise e ->
      (exists e', fitAll sort_keeping_ties scores_with_empty_G no_bars SelNone 5 false
                  = Raise e') /\
      (forall v rest, rows scores_with_empty_G = ("G"%string, v) :: rest ->
         fitAll sort_keeping_ties scores_with_empty_G no_bars SelNone 5 false = Raise e))).
Proof.
  apply (all_missing_feature_dropped bell_pdf first_value_fit count_histogram_max
           sort_keeping_ties spec_define_x_coordinates_for_reflection
           spec_define_cumulative_area_ratio_function
           scores_with_empty_G no_bars (SelMany ["G"; "H"]%string) "G"%string 5 false
           sort_keeping_ties_contract).
  - left.
  - exact all_missing_G.
Defined.

(** C3 as stated fails for a sort that meets the contract of
    [sort_values]: eighteen features with the same Shape, 0.5, come back
    in the reverse of their input order. *)
Lemma equal_shapes_out_of_input_order :
  sort_values_contract sort_reversing_ties /\
  exists t,
    fitAll sort_reversing_ties scores_all_tied no_bars SelNone 5 false = Ok t /\
    Forall (fun r => Shape r = Fin (1 # 2)) (rows t) /\
    index scores_all_tied =
      ["g01"; "g02"; "g03"; "g04"; "g05"; "g06"; "g07"; "g08"; "g09"; "g10"; "g11"; "g12"; "g13"; "g14"; "g15"; "g16"; "g17"; "g18"]%string /\
    index t =
      ["g18"; "g17"; "g16"; "g15"; "g14"; "g13"; "g12"; "g11"; "g10"; "g09"; "g08"; "g07"; "g06"; "g05"; "g04"; "g03"; "g02"; "g01"]%string.
Proof.
  split; [exact sort_reversing_ties_contract|].
  eexists. split; [vm_compute; reflexivity|].
  split; [repeat constructor|]. split; reflexivity.
Qed.

Lemma fit_table_sorted_by_Shape_witness :
  let t := mkDataFrame fit_columns
             [("f4"%string, [Fin 2; Fin 1; Fin (-9 # 10); Fin 0; Fin 1]);
              ("f2"%string, [Fin 2; Fin 1; Fin (-1 # 5); Fin 0; Fin 1]);
              ("f1"%string, [Fin 2; Fin 1; Fin (1 # 2); Fin 0; Fin 1]);
              ("f3"%string, [Fin 2; Fin 1; Fin (1 # 2); Fin 0; Fin 1])] in
  sorted_by_Shape (rows t) /\
  exists df,
    select_features scores_with_ties SelNone = Ok df /\
    Permutation (index t) (index df) /\
    forall f params, (f, params) ∈ rows t ->
      exists v p, (f, v) ∈ rows df /\ first_value_fit (dropna v) = Ok p /\
                  params = record_of v p.
Proof.
  intros t.
  apply (fit_table_sorted_by_Shape bell_pdf first_value_fit count_histogram_max
           sort_keeping_ties spec_define_x_coordinates_for_reflection
           spec_define_cumulative_area_ratio_function
           scores_with_ties no_bars SelNone 5 true t sort_keeping_ties_contract).
  vm_compute. reflexivity.
Defined.

(** * More properties *)

(** ** get_amp_mut_del on any table *)

Lemma suffix_injective (gene s1 s2 : string) :
  gene +:+ s1 = gene +:+ s2 -> s1 = s2.
Proof.
  induction gene as [|c gene IH]; simpl; [auto|].
  intros H. injection H as H. exact (IH H).
Qed.

Lemma values_of_present (tbl : DataFrame) (l : string) :
  NoDup (index tbl) -> l ∈ index tbl ->
  (l, values_of tbl l) ∈ rows tbl /\ present tbl l = true.
Proof.
  intros Hnd Hin. unfold values_of.
  destruct (ix_row_cases tbl l Hnd) as [[Hp [v Hv]]|[Hp _]].
  - rewrite Hv. split; [apply (ix_row_Ok _ _ _ Hv)|exact Hp].
  - unfold present in Hp. apply bool_decide_eq_false_1 in Hp. contradiction.
Qed.

Lemma values_of_absent (tbl : DataFrame) (l : string) :
  NoDup (index tbl) -> l ∉ index tbl -> values_of tbl l = nan_row tbl.
Proof.
  intros Hnd Hout. unfold values_of.
  destruct (ix_row_cases tbl l Hnd) as [[Hp _]|[_ ->]]; [|reflexivity].
  unfold present in Hp. apply bool_decide_eq_true_1 in Hp. contradiction.
Qed.

(** X1: on a table with one row per name the call returns, with three
    rows over the columns of the table; the row of a suffix holds the
    values of the table's row when the table has one, under its name, and
    missing values only, one per column, when it has none. *)
Theorem get_amp_mut_del_three_rows (tbl : DataFrame) (gene : string) :
  NoDup (index tbl) ->
  exists n_amp v_amp n_mut v_mut n_del v_del,
    get_amp_mut_del tbl gene =
      Ok (mkDataFrame (columns tbl) [(n_amp, v_amp); (n_mut, v_mut); (n_del, v_del)]) /\
    Forall (fun '(suffix, n, v) =>
              (gene +:+ suffix ∈ index tbl ->
               n = gene +:+ suffix /\ (gene +:+ suffix, v) ∈ rows tbl) /\
              (gene +:+ suffix ∉ index tbl ->
               v = List.map (fun _ => NaN) (columns tbl)))
      [("_AMP"%string, n_amp, v_amp); ("_MUT"%string, n_mut, v_mut);
       ("_DEL"%string, n_del, v_del)].
Proof.
  intros Hnd. eexists _, _, _, _, _, _.
  split; [apply get_amp_mut_del_rows, Hnd|].
  repeat match goal with
         | |- Forall _ (_ :: _) => constructor
         | |- Forall _ [] => constructor
         end; cbn beta iota; split.
  all: first [ intros Hin; destruct (values_of_present tbl _ Hnd Hin) as [Hrow Hp];
               unfold row_name; rewrite Hp; split; [reflexivity|exact Hrow]
             | intros Hout; apply (values_of_absent tbl _ Hnd Hout) ].
Qed.

Lemma get_amp_mut_del_three_rows_witness :
  exists n_amp v_amp n_mut v_mut n_del v_del,
    get_amp_mut_del genex_table "GENEX" =
      Ok (mkDataFrame (columns genex_table) [(n_amp, v_amp); (n_mut, v_mut); (n_del, v_del)]) /\
    Forall (fun '(suffix, n, v) =>
              ("GENEX" +:+ suffix ∈ index genex_table ->
               n = "GENEX" +:+ suffix /\ ("GENEX" +:+ suffix, v) ∈ rows genex_table) /\
              ("GENEX" +:+ suffix ∉ index genex_table ->
               v = List.map (fun _ => NaN) (columns genex_table)))
      [("_AMP"%string, n_amp, v_amp); ("_MUT"%string, n_mut, v_mut);
       ("_DEL"%string, n_del, v_del)].
Proof.
  apply (get_amp_mut_del_three_rows genex_table "GENEX").
  apply (bool_decide_unpack _). vm_compute. exact I.
Defined.

(** X2: the three rows bear the names gene_AMP, gene_MUT, gene_DEL exactly
    when the table lacks at most one of them; when it lacks two or three,
    the rows substituted for them all bear the name of the last one. *)
Theorem get_amp_mut_del_names (tbl : DataFrame) (gene : string) :
  NoDup (index tbl) ->
  exists out,
    get_amp_mut_del tbl gene = Ok out /\
    (index out = [gene +:+ "_AMP"; gene +:+ "_MUT"; gene +:+ "_DEL"] <->
     (present tbl (gene +:+ "_AMP") && present tbl (gene +:+ "_MUT")
      || present tbl (gene +:+ "_AMP") && present tbl (gene +:+ "_DEL")
      || present tbl (gene +:+ "_MUT") && present tbl (gene +:+ "_DEL")) = true).
Proof.
  intros Hnd. eexists. split; [apply get_amp_mut_del_rows, Hnd|].
  unfold index, row_name, substitute_name. simpl.
  destruct (present tbl (gene +:+ "_AMP")), (present tbl (gene +:+ "_MUT")),
    (present tbl (gene +:+ "_DEL")); simpl; split; try reflexivity; try discriminate;
    intros H; exfalso; injection H; intros;
    repeat match goal with
           | Heq : gene +:+ _ = gene +:+ _ |- _ =>
               apply suffix_injective in Heq; try discriminate Heq
           end.
Qed.

Lemma get_amp_mut_del_names_witness :
  exists out,
    get_amp_mut_del genex_table "GENEX" = Ok out /\
    (index out = ["GENEX" +:+ "_AMP"; "GENEX" +:+ "_MUT"; "GENEX" +:+ "_DEL"] <->
     (present genex_table ("GENEX" +:+ "_AMP") && present genex_table ("GENEX" +:+ "_MUT")
      || present genex_table ("GENEX" +:+ "_AMP") && present genex_table ("GENEX" +:+ "_DEL")
      || present genex_table ("GENEX" +:+ "_MUT") && present genex_table ("GENEX" +:+ "_DEL"))
     = true).
Proof.
  apply (get_amp_mut_del_names genex_table "GENEX").
  apply (bool_decide_unpack _). vm_compute. exact I.
Defined.

(** ** make_essentiality_matrix: shape, edge cases, scaling *)

Lemma combine_labels {A B} (l : list A) (k : list B) :
  length l = length k -> (List.combine l k).*1 = l.
Proof.
  revert k. induction l as [|a l IH]; intros [|b k] H; try discriminate H; [reflexivity|].
  cbn [List.combine]. rewrite fmap_cons. simpl. f_equal. apply IH. simpl in H. lia.
Qed.

Lemma common_indices_elem (m f : DataFrame) (l : string) :
  l ∈ common_indices m f <-> l ∈ index m /\ l ∈ index f.
Proof.
  split; [apply common_indices_in|]. intros [Hm Hf].
  unfold common_indices. apply list_elem_of_In, filter_In.
  split; [apply list_elem_of_In, Hf|apply bool_decide_eq_true_2, Hm].
Qed.

Lemma row_unique (df : DataFrame) (l : string) (v1 v2 : list num) :
  NoDup (index df) -> (l, v1) ∈ rows df -> (l, v2) ∈ rows df -> v1 = v2.
Proof.
  intros Hnd H1 H2.
  pose proof (filter_has_label_unique _ _ _ Hnd H1) as E1.
  pose proof (filter_has_label_unique _ _ _ Hnd H2) as E2.
  rewrite E1 in E2. congruence.
Qed.

Lemma nearest_of_missing_grid (x_grids : list num) (v : num) (j : nat) :
  Forall (fun x => isnan x = true) x_grids -> nearest x_grids v = Ok j -> j = 0%nat.
Proof.
  unfold nearest. destruct x_grids as [|x xs]; [discriminate|].
  intros Hnan. inversion Hnan as [|? ? Hx _]; subst.
  destruct x; [|discriminate]. simpl. congruence.
Qed.

Lemma nearest_needs_grid (x_grids : list num) (v : num) (j : nat) :
  nearest x_grids v = Ok j -> x_grids <> [].
Proof. intros H ->. discriminate H. Qed.

Lemma linspace_nonempty (lo hi : num) (n : Z) (g : list num) :
  linspace lo hi n = Ok g -> g <> [] -> (1 <= n)%Z.
Proof.
  unfold linspace. destruct (n <? 0)%Z eqn:En; [discriminate|].
  apply Z.ltb_ge in En. destruct (Z.to_nat n) eqn:E.
  - intros H. injection H as <-. congruence.
  - intros _ _. lia.
Qed.

Lemma mapM_related {A B} (R : B -> B -> Prop) (f f1 : A -> result B) (l : list A) :
  (forall a y, a ∈ l -> f a = Ok y -> exists y1, f1 a = Ok y1 /\ R y1 y) ->
  forall ys, mapM f l = Ok ys -> exists ys1, mapM f1 l = Ok ys1 /\ Forall2 R ys1 ys.
Proof.
  induction l as [|a l IH]; intros Hrel ys H; simpl in H.
  - injection H as <-. exists []. split; [reflexivity|constructor].
  - bind_inv H. bind_inv H. injection H as <-.
    destruct (Hrel a _ (list_elem_of_here _ _) E) as (y1 & Hy1 & Hr).
    destruct (IH (fun a' y Ha => Hrel a' y (list_elem_of_further _ _ _ Ha)) _ eq_refl)
      as (ys1 & Hys1 & Hall).
    exists (y1 :: ys1). simpl. rewrite Hy1, Hys1. split; [reflexivity|].
    constructor; assumption.
Qed.

Lemma nmul_factor (factor s e : num) :
  num_eq (nmul (nmul factor s) e) (nmul factor (nmul (nmul (Fin 1) s) e)).
Proof.
  destruct factor as [|a], s as [|b], e as [|c]; simpl; try exact I.
  rewrite !Qred_correct. ring.
Qed.

Section Matrix.

Variable pdf : num -> num -> num -> num -> num -> num.
Variable reflect : list num -> list num -> result (list num).
Variable ratio : list num -> list num -> list num -> direction -> result (list num).

Abbreviation make_essentiality_matrix' := (make_essentiality_matrix pdf reflect ratio).

Lemma make_essentiality_matrix_Ok uninit (m f : DataFrame) n_x_grids factor out :
  rectangular m -> NoDup (index m) -> NoDup (index f) ->
  make_essentiality_matrix' uninit m f n_x_grids factor = Ok out ->
  exists rs,
    mapM (feature_row pdf reflect ratio n_x_grids factor (ix_rows m (common_indices m f)))
      (rows (ix_rows f (common_indices m f))) = Ok rs /\
    out = mkDataFrame (columns m) (List.combine (common_indices m f) rs) /\
    length rs = length (common_indices m f) /\
    Forall (fun r => length r = length (columns m)) rs.
Proof.
  intros Hrect Hm Hf H.
  rewrite make_essentiality_matrix_rows in H by assumption. cbv zeta in H.
  bind_inv H. injection H as <-. exists a. split; [reflexivity|]. split; [reflexivity|].
  assert (Hcm : forall l, l ∈ common_indices m f -> l ∈ index m)
    by (intros l Hl; apply (common_indices_in m f l Hl)).
  assert (Hcf : forall l, l ∈ common_indices m f -> l ∈ index f)
    by (intros l Hl; apply (common_indices_in m f l Hl)).
  pose proof (mapM_Forall2 _ _ _ E) as Hall. split.
  - rewrite <- (Forall2_length _ _ _ Hall).
    symmetry. apply (Forall2_length _ _ _ (ix_rows_unique f _ Hf Hcf)).
  - apply Forall_forall. intros r Hr.
    apply list_elem_of_lookup in Hr as [i Hi].
    destruct (Forall2_lookup_r _ _ _ _ _ Hall Hi) as (fit & _ & Hfit).
    apply (feature_row_length pdf reflect ratio _ _ _ _ _
             (rectangular_ix_rows m _ Hrect Hm Hcm) Hfit).
Qed.

(** X3: the matrix that comes back has the columns of the score matrix and
    one row, with one cell per column, for each feature identifier that
    both tables carry, and for no other. *)
Theorem essentiality_matrix_shape uninit (m f : DataFrame) n_x_grids factor out :
  rectangular m -> NoDup (index m) -> NoDup (index f) ->
  make_essentiality_matrix' uninit m f n_x_grids factor = Ok out ->
  columns out = columns m /\ rectangular out /\ NoDup (index out) /\
  forall l, l ∈ index out <-> l ∈ index m /\ l ∈ index f.
Proof.
  intros Hrect Hm Hf H.
  destruct (make_essentiality_matrix_Ok _ _ _ _ _ _ Hrect Hm Hf H)
    as (rs & _ & -> & Hlen & Hcells).
  assert (Hindex : index (mkDataFrame (columns m) (List.combine (common_indices m f) rs))
                   = common_indices m f).
  { unfold index. simpl. apply combine_labels. symmetry. exact Hlen. }
  split; [reflexivity|]. split; [|split].
  - unfold rectangular. simpl. apply Forall_forall. intros [l r] Hr.
    apply list_elem_of_In, in_combine_r in Hr. simpl.
    rewrite Forall_forall in Hcells. apply Hcells, list_elem_of_In, Hr.
  - rewrite Hindex. apply NoDup_common_indices, Hf.
  - intros l. rewrite Hindex. apply common_indices_elem.
Qed.

(** X4: when a feature has a missing score, every cell of its row in the
    matrix holds one and the same value: the grid of the feature is
    missing throughout, and every score looks up the index value of the
    first grid point. *)
Theorem missing_score_levels_the_row uninit (m f : DataFrame) n_x_grids factor out
  (g : string) (vector cells : list num) :
  rectangular m -> NoDup (index m) -> NoDup (index f) ->
  make_essentiality_matrix' uninit m f n_x_grids factor = Ok out ->
  (g, vector) ∈ rows m -> Exists (fun v => isnan v = true) vector ->
  (g, cells) ∈ rows out ->
  exists c, Forall (fun x => x = c) cells.
Proof.
  intros Hrect Hm Hf H Hvec Hnan Hcells.
  destruct (make_essentiality_matrix_cells _ _ _ _ _ _ _ _ _ Hrect Hm Hf H g cells Hcells)
    as (vector' & N & df & shape & location & scale & x_grids & curve
        & Hvec' & _ & Hgrid & _ & Hall).
  rewrite <- (row_unique m g vector vector' Hm Hvec Hvec') in *.
  pose proof (make_x_grids_nan _ _ _ Hnan Hgrid) as Hgnan.
  destruct (curve !! 0%nat) as [e|] eqn:Ee.
  - exists (nmul (nmul factor (sign shape)) e).
    apply Forall_forall. intros c Hc.
    apply list_elem_of_lookup in Hc as [k Hk].
    destruct (Forall2_lookup_r _ _ _ _ _ Hall Hk) as (v & _ & Hcell).
    unfold essentiality_cell in Hcell. bind_inv Hcell. bind_inv Hcell.
    injection Hcell as <-.
    rewrite (nearest_of_missing_grid _ _ _ Hgnan E) in E0.
    unfold getitem in E0. rewrite Ee in E0. congruence.
  - exists NaN. apply Forall_forall. intros c Hc. exfalso.
    apply list_elem_of_lookup in Hc as [k Hk].
    destruct (Forall2_lookup_r _ _ _ _ _ Hall Hk) as (v & _ & Hcell).
    unfold essentiality_cell in Hcell. bind_inv Hcell. bind_inv Hcell.
    rewrite (nearest_of_missing_grid _ _ _ Hgnan E) in E0.
    unfold getitem in E0. rewrite Ee in E0. discriminate E0.
Qed.

(** X5: a matrix with a row comes back only for a grid of at least one
    point and a score matrix with at least one sample: with
    [n_x_grids <= 0], or without columns, the call raises as soon as the
    tables share a feature. *)
Theorem essentiality_matrix_needs_grid_and_samples
  uninit (m f : DataFrame) n_x_grids factor out :
  rectangular m -> NoDup (index m) -> NoDup (index f) ->
  make_essentiality_matrix' uninit m f n_x_grids factor = Ok out ->
  rows out <> [] -> (1 <= n_x_grids)%Z /\ columns m <> [].
Proof.
  intros Hrect Hm Hf H Hrows.
  destruct (rows out) as [|[g cells] rest] eqn:Eout; [congruence|].
  assert (Hin : (g, cells) ∈ rows out) by (rewrite Eout; left).
  destruct (make_essentiality_matrix_cells _ _ _ _ _ _ _ _ _ Hrect Hm Hf H g cells Hin)
    as (vector & N & df & shape & location & scale & x_grids & curve
        & Hvec & _ & Hgrid & _ & Hall).
  assert (Hne : vector <> []).
  { intros ->. discriminate Hgrid. }
  split.
  - destruct vector as [|v vs]; [congruence|].
    inversion Hall as [|? c ? cs Hcell _]; subst.
    unfold essentiality_cell in Hcell. bind_inv Hcell.
    apply nearest_needs_grid in E.
    unfold make_x_grids in Hgrid. cbn [array_min array_max bind] in Hgrid.
    exact (linspace_nonempty _ _ _ _ Hgrid E).
  - intros Hcols. apply Hne.
    unfold rectangular in Hrect. rewrite Forall_forall in Hrect.
    specialize (Hrect _ Hvec). simpl in Hrect. rewrite Hcols in Hrect.
    destruct vector; [reflexivity|discriminate Hrect].
Qed.

Lemma essentiality_cell_scaled factor shape x_grids curve v c :
  essentiality_cell factor shape x_grids curve v = Ok c ->
  exists c1, essentiality_cell (Fin 1) shape x_grids curve v = Ok c1 /\
             num_eq c (nmul factor c1).
Proof.
  unfold essentiality_cell. intros H. bind_inv H. bind_inv H. injection H as <-.
  eexists. split; [cbn [bind]; rewrite E0; reflexivity|]. apply nmul_factor.
Qed.

Lemma feature_row_scaled n_x_grids factor (gxs : DataFrame) (fit : row) r :
  feature_row pdf reflect ratio n_x_grids factor gxs fit = Ok r ->
  exists r1, feature_row pdf reflect ratio n_x_grids (Fin 1) gxs fit = Ok r1 /\
             Forall2 (fun c1 c => num_eq c (nmul factor c1)) r1 r.
Proof.
  unfold feature_row.
  destruct fit.2 as [|N [|df [|shape [|location [|scale [|]]]]]]; try discriminate.
  intros H. bind_inv H. unfold essentiality_row in H |- *.
  bind_inv H. bind_inv H. cbn [bind]. rewrite E0. cbn [bind]. rewrite E1. cbn [bind].
  apply (mapM_related (fun c1 c => num_eq c (nmul factor c1))
           (essentiality_cell factor shape a0 a1)
           (essentiality_cell (Fin 1) shape a0 a1)); [|exact H].
  intros v c _. apply essentiality_cell_scaled.
Qed.

(** X6: the scale factor multiplies every cell: a call that returns a
    matrix returns the matrix of the call with factor 1, cell by cell
    times the factor. *)
Theorem essentiality_matrix_scales uninit (m f : DataFrame) n_x_grids factor out :
  rectangular m -> NoDup (index m) -> NoDup (index f) ->
  make_essentiality_matrix' uninit m f n_x_grids factor = Ok out ->
  exists unit,
    make_essentiality_matrix' uninit m f n_x_grids (Fin 1) = Ok unit /\
    scaled_by factor unit out.
Proof.
  intros Hrect Hm Hf H.
  destruct (make_essentiality_matrix_Ok _ _ _ _ _ _ Hrect Hm Hf H)
    as (rs & Hrs & -> & Hlen & _).
  destruct (mapM_related (Forall2 (fun c1 c => num_eq c (nmul factor c1)))
              (feature_row pdf reflect ratio n_x_grids factor (ix_rows m (common_indices m f)))
              (feature_row pdf reflect ratio n_x_grids (Fin 1) (ix_rows m (common_indices m f)))
              (rows (ix_rows f (common_indices m f)))
              (fun fit r _ => feature_row_scaled _ _ _ fit r) rs Hrs)
    as (rs1 & Hrs1 & Hall).
  exists (mkDataFrame (columns m) (List.combine (common_indices m f) rs1)). split.
  - rewrite make_essentiality_matrix_rows by assumption. cbv zeta.
    rewrite Hrs1. reflexivity.
  - split; [reflexivity|]. simpl.
    clear Hrs Hrs1 Hlen H. revert rs rs1 Hall.
    induction (common_indices m f) as [|l ls IH]; intros rs rs1 Hall; [constructor|].
    destruct Hall as [|r1 r rs1 rs Hr Hall]; [constructor|].
    simpl. constructor; [split; [reflexivity|exact Hr]|apply IH, Hall].
Qed.

End Matrix.

Lemma essentiality_matrix_shape_witness :
  exists out,
    build zeros scores fits 5 (Fin 2) = Ok out /\
    columns out = columns scores /\ rectangular out /\ NoDup (index out) /\
    forall l, l ∈ index out <-> l ∈ index scores /\ l ∈ index fits.
Proof.
  eexists. split; [vm_compute; reflexivity|].
  apply (essentiality_matrix_shape bell_pdf spec_define_x_coordinates_for_reflection
           spec_define_cumulative_area_ratio_function zeros scores fits 5 (Fin 2)).
  - exact rectangular_scores.
  - apply (bool_decide_unpack _). vm_compute. exact I.
  - apply (bool_decide_unpack _). vm_compute. exact I.
  - vm_compute. reflexivity.
Defined.

Lemma missing_score_levels_the_row_witness :
  exists out cells,
    build zeros scores_with_empty_G fits_of_G_and_H 5 (Fin 2) = Ok out /\
    ("G"%string, cells) ∈ rows out /\
    exists c, Forall (fun x => x = c) cells.
Proof.
  eexists _, _. split; [vm_compute; reflexivity|]. split; [left|].
  refine (missing_score_levels_the_row bell_pdf spec_define_x_coordinates_for_reflection
            spec_define_cumulative_area_ratio_function zeros scores_with_empty_G
            fits_of_G_and_H 5 (Fin 2) _ "G"%string [NaN; NaN] _ _ _ _ _ _ _ _).
  - repeat constructor.
  - apply (bool_decide_unpack _). vm_compute. exact I.
  - apply (bool_decide_unpack _). vm_compute. exact I.
  - vm_compute. reflexivity.
  - left.
  - left. reflexivity.
  - left.
Defined.

Lemma essentiality_matrix_needs_grid_and_samples_witness :
  exists out,
    build zeros scores fits 5 (Fin 2) = Ok out /\
    (1 <= 5)%Z /\ columns scores <> [].
Proof.
  eexists. split; [vm_compute; reflexivity|].
  refine (essentiality_matrix_needs_grid_and_samples bell_pdf
            spec_define_x_coordinates_for_reflection
            spec_define_cumulative_area_ratio_function zeros scores fits 5 (Fin 2) _
            rectangular_scores _ _ _ _).
  - apply (bool_decide_unpack _). vm_compute. exact I.
  - apply (bool_decide_unpack _). vm_compute. exact I.
  - vm_compute. reflexivity.
  - discriminate.
Defined.

Lemma essentiality_matrix_scales_witness :
  exists out,
    build zeros scores fits 5 (Fin 2) = Ok out /\
    exists unit,
      build zeros scores fits 5 (Fin 1) = Ok unit /\ scaled_by (Fin 2) unit out.
Proof.
  eexists. split; [vm_compute; reflexivity|].
  apply (essentiality_matrix_scales bell_pdf spec_define_x_coordinates_for_reflection
           spec_define_cumulative_area_ratio_function zeros scores fits 5 (Fin 2)).
  - exact rectangular_scores.
  - apply (bool_decide_unpack _). vm_compute. exact I.
  - apply (bool_decide_unpack _). vm_compute. exact I.
  - vm_compute. reflexivity.
Defined.

(** ** The selection of fit_essentiality *)

Lemma existsb_filter {A} (p q : A -> bool) (l : list A) :
  existsb (fun x => p x && q x) l = existsb q (List.filter p l).
Proof.
  induction l as [|x l IH]; [reflexivity|]. simpl.
  destruct (p x); simpl; rewrite IH; reflexivity.
Qed.

Lemma has_scores_spec (m : DataFrame) (f : string) :
  has_scores m f = true <-> exists v, (f, v) ∈ rows m /\ existsb notnan v = true.
Proof.
  unfold has_scores. rewrite existsb_exists. split.
  - intros ([l v] & Hin & Hp). apply andb_prop in Hp as [Hl Hv].
    apply bool_decide_eq_true_1 in Hl. simpl in Hl, Hv. subst l.
    exists v. split; [apply list_elem_of_In, Hin|exact Hv].
  - intros (v & Hin & Hv). exists (f, v). split; [apply list_elem_of_In, Hin|].
    apply andb_true_intro. split; [apply bool_decide_eq_true_2; reflexivity|exact Hv].
Qed.

Lemma selected_rows (m : DataFrame) (fs : list string) (l : string) (v : list num) :
  (l, v) ∈ rows (dropna_all (ix_rows m fs)) <->
  l ∈ fs /\ (l, v) ∈ rows m /\ existsb notnan v = true.
Proof.
  unfold dropna_all, ix_rows. cbn [rows columns]. split.
  - intros H. apply list_elem_of_In, filter_In in H as [H Hv]. simpl in Hv.
    apply in_flat_map in H as (f & Hf & Hin).
    apply list_elem_of_In, ix_label_rows in Hin as [Hl [Hin|Hnan]]; simpl in Hl; subst f.
    + split; [apply list_elem_of_In, Hf|]. split; assumption.
    + simpl in Hnan. subst v. pose proof (dropna_nan_row m) as Hd.
      apply dropna_nil_existsb in Hd. congruence.
  - intros (Hf & Hin & Hv). apply list_elem_of_In, filter_In. split; [|exact Hv].
    apply in_flat_map. exists l. split; [apply list_elem_of_In, Hf|].
    apply list_elem_of_In, ix_label_present, Hin.
Qed.

(** X7: with a selection, the call raises the selection error exactly when
    every requested feature that has a score in the matrix is named by the
    empty string (in particular when none has a score); in every other
    case the selection returns rows, and it raises nothing else. *)
Theorem selection_error_iff (m : DataFrame) (features : selection) :
  selection_truth features = true ->
  (select_features m features = Raise SelectionError <->
   forall f, f ∈ selection_list features -> has_scores m f = true -> f = ""%string) /\
  (forall e, select_features m features = Raise e -> e = SelectionError).
Proof.
  intros Htruth. unfold select_features. rewrite Htruth.
  set (selected := dropna_all (ix_rows m (selection_list features))).
  split.
  - destruct (any (index selected)) eqn:Eany; split.
    + discriminate.
    + intros Hall. exfalso. unfold any in Eany. apply existsb_exists in Eany as (l & Hl & Ht).
      apply list_elem_of_In, list_elem_of_fmap in Hl as ([l' v] & Heq & Hin).
      simpl in Heq. subst l'. apply selected_rows in Hin as (Hf & Hin & Hv).
      assert (Hs : has_scores m l = true) by (apply has_scores_spec; eauto).
      rewrite (Hall l Hf Hs) in Ht. discriminate Ht.
    + intros _ f Hf Hs. apply has_scores_spec in Hs as (v & Hin & Hv).
      assert (Hsel : (f, v) ∈ rows selected) by (apply selected_rows; auto).
      destruct (truthy f) eqn:Et.
      * exfalso. assert (Hany : any (index selected) = true); [|congruence].
        apply existsb_exists. exists f. split; [|exact Et].
        apply list_elem_of_In. apply (list_elem_of_fmap_2 fst _ _ Hsel).
      * unfold truthy in Et. apply negb_false_iff, bool_decide_eq_true_1 in Et. exact Et.
    + reflexivity.
  - intros e. destruct (any (index selected)); [discriminate|]. congruence.
Qed.

Lemma selection_error_iff_witness :
  (select_features scores (SelMany ["C"]%string) = Raise SelectionError <->
   forall f, f ∈ selection_list (SelMany ["C"]%string) ->
             has_scores scores f = true -> f = ""%string) /\
  (forall e, select_features scores (SelMany ["C"]%string) = Raise e -> e = SelectionError).
Proof.
  apply (selection_error_iff scores (SelMany ["C"]%string)). reflexivity.
Defined.

Lemma ix_label_one_row (m : DataFrame) (l : string) :
  NoDup (index m) ->
  exists v, ix_label m l = [(l, v)] /\
            existsb notnan v = has_scores m l /\
            ((l, v) ∈ rows m \/ ((l ∉ index m) /\ v = nan_row m)).
Proof.
  intros Hnd. unfold has_scores. rewrite existsb_filter. unfold ix_label.
  destruct (decide (l ∈ index m)) as [Hin|Hout].
  - apply list_elem_of_fmap in Hin as ([l' v] & Heq & Hin). simpl in Heq. subst l'.
    rewrite (filter_has_label_unique _ _ _ Hnd Hin). exists v.
    split; [reflexivity|]. split; [simpl; rewrite orb_false_r; reflexivity|left; exact Hin].
  - rewrite (filter_has_label_absent _ _ Hout). exists (nan_row m).
    split; [reflexivity|]. split; [|right; auto].
    simpl. apply dropna_nil_existsb, dropna_nan_row.
Qed.

(** X8: with a selection over a matrix with one row per feature, the rows
    that are fitted are rows of the matrix, in the order of the request
    (not of the matrix), once for each time a feature is requested: the
    requested features that have a score. *)
Theorem selected_in_request_order (m : DataFrame) (features : selection) (df : DataFrame) :
  NoDup (index m) -> selection_truth features = true ->
  select_features m features = Ok df ->
  index df = List.filter (has_scores m) (selection_list features) /\
  columns df = columns m /\
  forall r, r ∈ rows df -> r ∈ rows m.
Proof.
  intros Hnd Htruth. unfold select_features. rewrite Htruth.
  destruct (any _); [|discriminate]. intros H. injection H as <-.
  split; [|split; [reflexivity|]].
  - unfold index. simpl. induction (selection_list features) as [|l ls IH]; [reflexivity|].
    simpl. rewrite List.filter_app, fmap_app, IH.
    destruct (ix_label_one_row m l Hnd) as (v & -> & <- & _). simpl.
    destruct (existsb notnan v); reflexivity.
  - intros [l v] Hr. apply selected_rows in Hr as (_ & Hin & _). exact Hin.
Qed.

Lemma selected_in_request_order_witness :
  exists df,
    select_features scores (SelMany ["B"; "C"; "A"]%string) = Ok df /\
    index df = List.filter (has_scores scores) (selection_list (SelMany ["B"; "C"; "A"]%string)) /\
    columns df = columns scores /\
    forall r, r ∈ rows df -> r ∈ rows scores.
Proof.
  eexists. split; [vm_compute; reflexivity|].
  apply (selected_in_request_order scores (SelMany ["B"; "C"; "A"]%string)).
  - apply (bool_decide_unpack _). vm_compute. exact I.
  - reflexivity.
  - vm_compute. reflexivity.
Defined.

(** ** plot_essentiality *)

Lemma ix_rows_labels (df : DataFrame) (ls : list string) :
  NoDup (index df) -> (rows (ix_rows df ls)).*1 = ls.
Proof.
  intros Hnd. simpl. induction ls as [|l ls IH]; [reflexivity|].
  simpl. rewrite fmap_app, IH.
  destruct (ix_label_one_row df l Hnd) as (v & -> & _). reflexivity.
Qed.

Section PlotProperties.

Variable pdf : num -> num -> num -> num -> num -> num.
Variable histogram_max : list num -> nat -> result num.
Variable reflect : list num -> list num -> result (list num).
Variable ratio : list num -> list num -> list num -> direction -> result (list num).

Abbreviation _plot_essentiality' := (_plot_essentiality pdf histogram_max reflect ratio).
Abbreviation plot_feature' := (plot_feature pdf histogram_max reflect ratio).
Abbreviation plot_essentiality' := (plot_essentiality pdf histogram_max reflect ratio).

Lemma _plot_essentiality_needs_grid vector df shape location scale n_bins n_xgrids curve :
  _plot_essentiality' vector df shape location scale n_bins n_xgrids = Ok curve ->
  (1 <= n_xgrids)%Z.
Proof.
  unfold _plot_essentiality. intros H. bind_inv H. bind_inv H. bind_inv H.
  apply (linspace_nonempty _ _ _ _ E). intros ->. discriminate E1.
Qed.

Lemma plot_feature_inv (m bar : DataFrame) n_xgrids (fit : row) fig :
  plot_feature' m bar n_xgrids fit = Ok fig ->
  exists N df shape location scale vector,
    fit.2 = [N; df; shape; location; scale] /\ (fit.1, vector) ∈ rows m /\
    fig.1 = fit.1 /\
    _plot_essentiality' vector df shape location scale 50 n_xgrids = Ok fig.2.
Proof.
  unfold plot_feature. intros H.
  destruct fit.2 as [|N [|df [|shape [|location [|scale [|]]]]]]; try discriminate H.
  bind_inv H. bind_inv H. bind_inv H. injection H as <-.
  exists N, df, shape, location, scale, (data a).
  split; [reflexivity|]. split; [apply (ix_row_Ok _ _ _ E)|]. split; [reflexivity|exact E1].
Qed.

(** X9: a call that returns has drawn one figure for each requested
    feature, in the order of the request (the features of the score matrix
    when none is requested); every requested feature is a feature of the
    score matrix, and the grid has at least one point if anything was
    drawn. *)
Theorem plot_essentiality_figures (m fit bar : DataFrame) (features : selection)
  n_xgrids figs :
  NoDup (index fit) ->
  plot_essentiality' m fit bar features n_xgrids = Ok figs ->
  figs.*1 = features_to_plot m features /\
  (forall f, f ∈ features_to_plot m features -> f ∈ index m) /\
  (figs <> [] -> (1 <= n_xgrids)%Z).
Proof.
  intros Hnd H. unfold plot_essentiality in H. apply mapM_Forall2 in H.
  pose proof (ix_rows_labels fit (features_to_plot m features) Hnd) as Hlabels.
  assert (Hfst : figs.*1 = (rows (ix_rows fit (features_to_plot m features))).*1).
  { clear Hlabels. induction H as [|r fig rs figs Hfig _ IH]; [reflexivity|].
    rewrite !fmap_cons, IH. f_equal.
    apply plot_feature_inv in Hfig as (? & ? & ? & ? & ? & ? & _ & _ & Hl & _). exact Hl. }
  split; [rewrite Hfst; exact Hlabels|]. split.
  - intros f Hf. rewrite <- Hlabels in Hf.
    apply list_elem_of_fmap in Hf as (r & -> & Hr).
    apply list_elem_of_lookup in Hr as [i Hi].
    destruct (Forall2_lookup_l _ _ _ _ _ H Hi) as (fig & _ & Hfig).
    apply plot_feature_inv in Hfig as (? & ? & ? & ? & ? & v & _ & Hin & _).
    apply (list_elem_of_fmap_2 fst _ _ Hin).
  - intros Hne. destruct H as [|r fig rs figs' Hfig _]; [congruence|].
    apply plot_feature_inv in Hfig as (? & ? & ? & ? & ? & ? & _ & _ & _ & Hplot).
    exact (_plot_essentiality_needs_grid _ _ _ _ _ _ _ _ Hplot).
Qed.

(** X10: a requested feature that the fit table does not have is not
    skipped: its figure is drawn from its scores with all five fit
    parameters missing. *)
Theorem plot_essentiality_without_fit (m fit bar : DataFrame) (features : selection)
  n_xgrids figs (f : string) :
  NoDup (index fit) -> length (columns fit) = 5%nat ->
  plot_essentiality' m fit bar features n_xgrids = Ok figs ->
  f ∈ features_to_plot m features -> f ∉ index fit ->
  exists vector curve,
    (f, vector) ∈ rows m /\ (f, curve) ∈ figs /\
    _plot_essentiality' vector NaN NaN NaN NaN 50 n_xgrids = Ok curve.
Proof.
  intros Hnd Hcols H Hf Hout. unfold plot_essentiality in H. apply mapM_Forall2 in H.
  assert (Hrow : (f, nan_row fit) ∈ rows (ix_rows fit (features_to_plot m features))).
  { simpl. apply list_elem_of_In, in_flat_map. exists f.
    split; [apply list_elem_of_In, Hf|].
    unfold ix_label. rewrite (filter_has_label_absent _ _ Hout). left. reflexivity. }
  apply list_elem_of_lookup in Hrow as [i Hi].
  destruct (Forall2_lookup_l _ _ _ _ _ H Hi) as ([l curve] & Hfig & Hplot).
  apply plot_feature_inv in Hplot
    as (N & df & shape & location & scale & vector & Hparams & Hin & Hl & Hplot).
  simpl in Hparams, Hin, Hl, Hplot. subst l.
  unfold nan_row in Hparams.
  destruct (columns fit) as [|c1 [|c2 [|c3 [|c4 [|c5 [|]]]]]]; try discriminate Hcols.
  simpl in Hparams. injection Hparams as <- <- <- <- <-.
  exists vector, curve. split; [exact Hin|]. split; [|exact Hplot].
  eapply list_elem_of_lookup_2, Hfig.
Qed.

End PlotProperties.

Lemma plot_essentiality_figures_witness :
  exists figs,
    plotAll scores fits no_bars (SelMany ["B"; "A"]%string) 5 = Ok figs /\
    figs.*1 = features_to_plot scores (SelMany ["B"; "A"]%string) /\
    (forall f, f ∈ features_to_plot scores (SelMany ["B"; "A"]%string) -> f ∈ index scores) /\
    (figs <> [] -> (1 <= 5)%Z).
Proof.
  eexists. split; [vm_compute; reflexivity|].
  apply (plot_essentiality_figures bell_pdf count_histogram_max
           spec_define_x_coordinates_for_reflection
           spec_define_cumulative_area_ratio_function scores fits no_bars
           (SelMany ["B"; "A"]%string) 5).
  - apply (bool_decide_unpack _). vm_compute. exact I.
  - vm_compute. reflexivity.
Defined.

Lemma plot_essentiality_without_fit_witness :
  exists figs,
    plotAll scores fits no_bars (SelMany ["B"; "A"]%string) 5 = Ok figs /\
    exists vector curve,
      ("B"%string, vector) ∈ rows scores /\ ("B"%string, curve) ∈ figs /\
      _plot_essentiality bell_pdf count_histogram_max
        spec_define_x_coordinates_for_reflection
        spec_define_cumulative_area_ratio_function vector NaN NaN NaN NaN 50 5 = Ok curve.
Proof.
  eexists. split; [vm_compute; reflexivity|].
  apply (plot_essentiality_without_fit bell_pdf count_histogram_max
           spec_define_x_coordinates_for_reflection
           spec_define_cumulative_area_ratio_function scores fits no_bars
           (SelMany ["B"; "A"]%string) 5).
  - apply (bool_decide_unpack _). vm_compute. exact I.
  - reflexivity.
  - vm_compute. reflexivity.
  - left.
  - apply (bool_decide_unpack _). vm_compute. exact I.
Defined.

(** ** ccal/support/d2.py *)

(** *** Boolean masks *)

Lemma select_all {A} (a : list A) (mask : list bool) :
  Forall (fun b => b = true) mask -> (length a <= length mask)%nat -> select mask a = a.
Proof.
  intros Hall. revert a. induction Hall as [|b mask -> _ IH]; intros [|x a] Hlen;
    simpl in *; try reflexivity; try lia.
  f_equal. apply IH. lia.
Qed.

Lemma length_select {A} (a : list A) (mask : list bool) :
  length mask = length a -> length (select mask a) = length (List.filter id mask).
Proof.
  revert a. induction mask as [|b mask IH]; intros [|x a] Hlen; simpl in *;
    try reflexivity; try lia.
  destruct b; simpl; rewrite IH by lia; reflexivity.
Qed.

Lemma select_seq_Forall {A} (P : nat -> bool) (Q : A -> Prop) (d : A) (a : list A) (s : nat) :
  (forall j, (j < length a)%nat -> P (s + j)%nat = true -> Q (List.nth j a d)) ->
  Forall Q (select (List.map P (seq s (length a))) a).
Proof.
  revert s. induction a as [|x a IH]; intros s H; simpl.
  - constructor.
  - assert (Hrest : Forall Q (select (List.map P (seq (S s) (length a))) a)).
    { apply IH. intros j Hj HP. apply (H (S j)); [simpl; lia|].
      replace (s + S j)%nat with (S s + j)%nat by lia. exact HP. }
    destruct (P s) eqn:HP; [|exact Hrest].
    constructor; [|exact Hrest].
    apply (H 0%nat); [simpl; lia|]. rewrite Nat.add_0_r. exact HP.
Qed.

Lemma map_nth_seq {A} (d : A) (l : list A) :
  List.map (fun j => List.nth j l d) (seq 0 (length l)) = l.
Proof.
  induction l as [|x l IH]; [reflexivity|].
  cbn [length seq List.map List.nth]. f_equal.
  rewrite <- seq_shift, List.map_map. exact IH.
Qed.

Lemma mapM_map {A B} (f : A -> result B) (g : A -> B) (l : list A) :
  Forall (fun x => f x = Ok (g x)) l -> mapM f l = Ok (List.map g l).
Proof.
  induction 1 as [|x l Hx _ IH]; [reflexivity|].
  simpl. rewrite Hx. simpl. rewrite IH. reflexivity.
Qed.

(** *** drop_nan_columns *)

Lemma nth_iand (f : list bool) (a : list num) (j : nat) :
  length f = length a ->
  iand f (List.map notnan a)
  = Ok (List.map (fun p : bool * bool => p.1 && p.2) (List.combine f (List.map notnan a))) /\
  List.nth j (List.map (fun p : bool * bool => p.1 && p.2) (List.combine f (List.map notnan a))) false
  = List.nth j f false && notnan (List.nth j a NaN).
Proof.
  intros Hlen. split.
  - unfold iand. rewrite length_map, <- Hlen, Nat.eqb_refl. reflexivity.
  - revert a j Hlen. induction f as [|b f IH]; intros [|x a] j Hlen; simpl in *; try lia.
    + destruct j; reflexivity.
    + destruct j; [reflexivity|]. apply IH. lia.
Qed.

Lemma and_not_nan_eq (n : nat) (arrays : list (list num)) :
  Forall (fun a => length a = n) arrays ->
  forall f, length f = n ->
  and_not_nan f arrays
  = Ok (List.map (fun j => List.nth j f false && present_at arrays j) (seq 0 n)).
Proof.
  induction 1 as [|a arrays Ha _ IH]; intros f Hf.
  - simpl. f_equal. rewrite <- (map_nth_seq false f) at 1. rewrite Hf.
    apply List.map_ext. intros j. rewrite andb_true_r. reflexivity.
  - cbn [and_not_nan].
    destruct (nth_iand f a 0%nat ltac:(congruence)) as [-> _]. cbn [bind].
    rewrite IH.
    + f_equal. apply List.map_ext. intros j.
      destruct (nth_iand f a j ltac:(congruence)) as [_ ->].
      unfold present_at. cbn [forallb]. rewrite andb_assoc. reflexivity.
    + rewrite length_map, length_combine, length_map. lia.
Qed.

Lemma drop_nan_columns_eq (n : nat) (arrays : list (list num)) :
  arrays <> [] ->
  Forall (fun a => length a = n) arrays ->
  drop_nan_columns arrays
  = Ok (List.map (select (List.map (present_at arrays) (seq 0 n))) arrays).
Proof.
  intros Hne Hall. destruct arrays as [|a0 rest]; [congruence|].
  assert (Ha0 : length a0 = n) by (inversion Hall; assumption).
  remember (a0 :: rest) as arrays eqn:E.
  assert (Hd : drop_nan_columns arrays
               = let* f := and_not_nan (List.map (fun _ => true) a0) arrays in
                 mapM (fun a => getitem_mask a f) arrays) by (subst; reflexivity).
  rewrite Hd. clear Hd E Hne.
  rewrite (and_not_nan_eq n) by (try rewrite length_map; assumption).
  cbn [bind].
  assert (Hmask : List.map (fun j => List.nth j (List.map (fun _ : num => true) a0) false
                                     && present_at arrays j) (seq 0 n)
                  = List.map (present_at arrays) (seq 0 n)).
  { apply List.map_ext_in. intros j Hj. apply in_seq in Hj.
    rewrite (List.nth_indep _ false true) by (rewrite length_map; lia).
    rewrite (List.map_nth (fun _ : num => true) a0 NaN j). reflexivity. }
  rewrite Hmask. apply mapM_map.
  eapply Forall_impl; [exact Hall|]. intros a Ha. cbn beta in *.
  unfold getitem_mask. rewrite length_map, length_seq, Ha, Nat.eqb_refl. reflexivity.
Qed.

Lemma present_at_all (n : nat) (arrays : list (list num)) :
  Forall (fun a => length a = n) arrays ->
  Forall (Forall (fun x => notnan x = true)) arrays ->
  List.map (present_at arrays) (seq 0 n) = List.map (fun _ => true) (seq 0 n).
Proof.
  intros Hlen Hclean. apply List.map_ext_in. intros j Hj. apply in_seq in Hj.
  unfold present_at. apply forallb_forall. intros a Ha.
  apply list_elem_of_In in Ha.
  pose proof (proj1 (Forall_forall _ _) Hlen a Ha) as Hn. cbn beta in Hn.
  pose proof (proj1 (Forall_forall _ _) Hclean a Ha) as Hc. cbn beta in Hc.
  apply (proj1 (Forall_forall _ _) Hc). apply list_elem_of_In, List.nth_In. lia.
Qed.

Lemma drop_nan_columns_clean (n : nat) (arrays : list (list num)) :
  arrays <> [] ->
  Forall (fun a => length a = n) arrays ->
  Forall (Forall (fun x => notnan x = true)) arrays ->
  drop_nan_columns arrays = Ok arrays.
Proof.
  intros Hne Hlen Hclean.
  rewrite (drop_nan_columns_eq n) by assumption. f_equal.
  rewrite (present_at_all n) by assumption.
  rewrite <- (List.map_id arrays) at 2.
  apply List.map_ext_in. intros a Ha. apply list_elem_of_In in Ha.
  pose proof (proj1 (Forall_forall _ _) Hlen a Ha) as Hn. cbn beta in Hn.
  apply select_all.
  - apply Forall_forall. intros b Hb. apply list_elem_of_In, in_map_iff in Hb.
    destruct Hb as (? & <- & _). reflexivity.
  - rewrite length_map, length_seq. lia.
Qed.

Lemma drop_nan_columns_no_nan (n : nat) (arrays : list (list num)) :
  Forall (fun a => length a = n) arrays ->
  Forall (Forall (fun x => notnan x = true))
    (List.map (select (List.map (present_at arrays) (seq 0 n))) arrays) /\
  Forall (fun b => length b = length (List.filter id (List.map (present_at arrays) (seq 0 n))))
    (List.map (select (List.map (present_at arrays) (seq 0 n))) arrays).
Proof.
  intros Hlen. split; apply Forall_forall; intros b Hb;
    apply list_elem_of_In, in_map_iff in Hb; destruct Hb as (a & <- & Ha);
    pose proof (proj1 (Forall_forall _ _) Hlen a (proj2 (list_elem_of_In _ _) Ha)) as Hn;
    cbn beta in Hn.
  - rewrite <- Hn. apply (select_seq_Forall _ _ NaN). intros j Hj Hp. simpl in Hp.
    unfold present_at in Hp. rewrite forallb_forall in Hp. apply Hp. exact Ha.
  - apply length_select. rewrite length_map, length_seq. congruence.
Qed.

(** X11.  Given arrays of one length, [drop_nan_columns] succeeds and keeps
    in each array the positions at which every array holds a value: the
    arrays it returns hold no NaN and have one common length, at most that
    of the arrays given. *)
Theorem drop_nan_columns_keeps_complete_positions (n : nat) (arrays : list (list num)) :
  arrays <> [] ->
  Forall (fun a => length a = n) arrays ->
  exists out n',
    drop_nan_columns arrays = Ok out /\
    out = List.map (select (List.map (present_at arrays) (seq 0 n))) arrays /\
    Forall (Forall (fun x => isnan x = false)) out /\
    Forall (fun b => length b = n') out /\ (n' <= n)%nat.
Proof.
  intros Hne Hlen.
  destruct (drop_nan_columns_no_nan n arrays Hlen) as [Hclean Hsame].
  eexists _, _. split; [apply (drop_nan_columns_eq n); assumption|].
  split; [reflexivity|]. split; [|split; [exact Hsame|]].
  - eapply Forall_impl; [exact Hclean|]. intros b Hb. cbn beta in *.
    eapply Forall_impl; [exact Hb|]. intros x Hx. cbn beta in *.
    unfold notnan in Hx. destruct (isnan x); [discriminate|reflexivity].
  - etransitivity; [apply List.filter_length_le|]. rewrite length_map, length_seq. lia.
Qed.

Lemma drop_nan_columns_keeps_complete_positions_witness :
  exists out n',
    drop_nan_columns measurements = Ok out /\
    out = List.map (select (List.map (present_at measurements) (seq 0 4))) measurements /\
    Forall (Forall (fun x => isnan x = false)) out /\
    Forall (fun b => length b = n') out /\ (n' <= 4)%nat.
Proof.
  apply (drop_nan_columns_keeps_complete_positions 4 measurements).
  - discriminate.
  - repeat constructor.
Defined.

(** X12.  Arrays of one length that hold no NaN are returned as they are;
    hence what [drop_nan_columns] returns for arrays of one length, it
    returns again when applied to it. *)
Theorem drop_nan_columns_idempotent (n : nat) (arrays : list (list num)) :
  arrays <> [] ->
  Forall (fun a => length a = n) arrays ->
  (Forall (Forall (fun x => isnan x = false)) arrays -> drop_nan_columns arrays = Ok arrays) /\
  (forall out, drop_nan_columns arrays = Ok out -> drop_nan_columns out = Ok out).
Proof.
  intros Hne Hlen. split.
  - intros Hclean. apply (drop_nan_columns_clean n); try assumption.
    eapply Forall_impl; [exact Hclean|]. intros b Hb. cbn beta in *.
    eapply Forall_impl; [exact Hb|]. intros x Hx. cbn beta in *.
    unfold notnan. rewrite Hx. reflexivity.
  - intros out Hout. rewrite (drop_nan_columns_eq n) in Hout by assumption.
    injection Hout as <-.
    destruct (drop_nan_columns_no_nan n arrays Hlen) as [Hclean Hsame].
    eapply drop_nan_columns_clean; [|exact Hsame|exact Hclean].
    destruct arrays; [congruence|discriminate].
Qed.

Lemma drop_nan_columns_idempotent_witness :
  (Forall (Forall (fun x => isnan x = false)) measurements ->
   drop_nan_columns measurements = Ok measurements) /\
  (forall out, drop_nan_columns measurements = Ok out -> drop_nan_columns out = Ok out).
Proof.
  apply (drop_nan_columns_idempotent 4 measurements).
  - discriminate.
  - repeat constructor.
Defined.

(** *** split_dataframe *)

Lemma split_dataframe_inv (df : DataFrame) (n_split : Z) (parts : list DataFrame) :
  split_dataframe df n_split = Ok parts ->
  exists k n : nat,
    n_split = Z.of_nat k /\ (1 <= k <= length (rows df))%nat /\
    n = (length (rows df) / k)%nat /\
    parts = List.map (fun i => iloc_rows df (i * n) ((i + 1) * n)) (seq 0 k)
            ++ (if (n * k <? length (rows df))%nat
                then [mkDataFrame (columns df) (drop (n * k) (rows df))] else []).
Proof.
  unfold split_dataframe. intros H.
  destruct (Z.ltb_spec (Z.of_nat (length (rows df))) n_split) as [|Hle]; [discriminate|].
  destruct (Z.leb_spec n_split 0) as [|Hpos]; [discriminate|].
  exists (Z.to_nat n_split), (length (rows df) / Z.to_nat n_split)%nat.
  assert (Hn : Z.to_nat (Z.of_nat (length (rows df)) / n_split)
               = (length (rows df) / Z.to_nat n_split)%nat).
  { rewrite <- (Z2Nat.id n_split) at 1 by lia.
    rewrite <- Nat2Z.inj_div, Nat2Z.id. reflexivity. }
  rewrite Hn in H. injection H as <-.
  split; [lia|]. split; [lia|]. split; [reflexivity|].
  destruct (_ <? _)%nat; [reflexivity|]. rewrite app_nil_r. reflexivity.
Qed.

Lemma blocks_concat (df : DataFrame) (n k : nat) :
  List.concat (List.map rows (List.map (fun i => iloc_rows df (i * n) ((i + 1) * n)) (seq 0 k)))
  = take (k * n) (rows df).
Proof.
  induction k as [|k IH]; [reflexivity|].
  rewrite seq_S, !List.map_app, List.concat_app, IH. cbn [List.map List.concat rows iloc_rows].
  rewrite app_nil_r. replace ((0 + k + 1) * n - (0 + k) * n)%nat with n by nia.
  replace (S k * n)%nat with (k * n + n)%nat by nia.
  apply take_take_drop.
Qed.

Lemma div_block (L k : nat) :
  (1 <= k <= L)%nat -> (1 <= L / k)%nat /\ (L / k * k <= L)%nat /\ (L - L / k * k = L mod k)%nat.
Proof.
  intros Hk. pose proof (Nat.div_mod_eq L k) as Hdm.
  pose proof (Nat.mod_upper_bound L k ltac:(lia)) as Hm.
  repeat split; nia.
Qed.

(** X13.  [split_dataframe] returns blocks exactly when
    [0 < n_split <= number of rows], and raises a ValueError otherwise; in
    particular a table without rows cannot be split. *)
Theorem split_dataframe_error_iff (df : DataFrame) (n_split : Z) :
  ((exists parts, split_dataframe df n_split = Ok parts) <->
   (0 < n_split <= Z.of_nat (length (rows df)))%Z) /\
  (forall e, split_dataframe df n_split = Raise e -> exists msg, e = ValueError msg) /\
  (rows df = [] -> exists msg, split_dataframe df n_split = Raise (ValueError msg)).
Proof.
  unfold split_dataframe.
  destruct (Z.ltb_spec (Z.of_nat (length (rows df))) n_split) as [Hgt|Hle];
    [|destruct (Z.leb_spec n_split 0) as [Hneg|Hpos]].
  - split; [split|split].
    + intros [? ?]; discriminate.
    + lia.
    + intros e [= <-]. eauto.
    + eauto.
  - split; [split|split].
    + intros [? ?]; discriminate.
    + lia.
    + intros e [= <-]. eauto.
    + eauto.
  - split; [split|split].
    + lia.
    + intros _. eauto.
    + intros e ?; discriminate.
    + intros Hnil. rewrite Hnil in Hle. simpl in Hle. lia.
Qed.

(** X14.  The blocks that [split_dataframe] returns partition the table:
    their rows, put end to end, are the rows of the table in order, no
    block is empty, and every block has the columns of the table. *)
Theorem split_dataframe_partition (df : DataFrame) (n_split : Z) (parts : list DataFrame) :
  split_dataframe df n_split = Ok parts ->
  List.concat (List.map rows parts) = rows df /\
  Forall (fun p => columns p = columns df /\ rows p <> []) parts.
Proof.
  intros H. apply split_dataframe_inv in H.
  destruct H as (k & n & -> & Hk & -> & ->).
  destruct (div_block _ _ Hk) as (Hn1 & Hle & Hmod).
  set (n := (length (rows df) / k)%nat) in *.
  split.
  - rewrite List.map_app, List.concat_app, blocks_concat.
    destruct (Nat.ltb_spec (n * k) (length (rows df))) as [Hlt|Hge].
    + cbn [List.map List.concat rows]. rewrite app_nil_r.
      replace (n * k)%nat with (k * n)%nat by lia. apply take_drop.
    + cbn [List.map List.concat]. rewrite app_nil_r. apply take_ge. lia.
  - apply Forall_app. split.
    + apply Forall_forall. intros p Hp. apply list_elem_of_In, in_map_iff in Hp.
      destruct Hp as (i & <- & Hi). apply in_seq in Hi.
      split; [reflexivity|]. cbn [rows iloc_rows]. intros Hnil.
      apply (f_equal length) in Hnil. rewrite length_take, length_drop in Hnil.
      simpl in Hnil. nia.
    + destruct (Nat.ltb_spec (n * k) (length (rows df))) as [Hlt|Hge]; [|constructor].
      constructor; [|constructor]. split; [reflexivity|]. cbn [rows]. intros Hnil.
      apply (f_equal length) in Hnil. rewrite length_drop in Hnil. simpl in Hnil. lia.
Qed.

Lemma split_dataframe_partition_witness :
  exists parts,
    split_dataframe ranking 2 = Ok parts /\
    List.concat (List.map rows parts) = rows ranking /\
    Forall (fun p => columns p = columns ranking /\ rows p <> []) parts.
Proof.
  eexists. split; [vm_compute; reflexivity|].
  apply (split_dataframe_partition ranking 2). vm_compute. reflexivity.
Defined.

(** X15.  [split_dataframe] returns [n_split] blocks of
    [number of rows // n_split] rows each and, when [n_split] does not
    divide the number of rows, one more block with the remaining rows: the
    number of blocks is then [n_split + 1]. *)
Theorem split_dataframe_sizes (df : DataFrame) (n_split : Z) (parts : list DataFrame) :
  split_dataframe df n_split = Ok parts ->
  let n_rows := Z.of_nat (length (rows df)) in
  Z.of_nat (length parts) = (n_split + (if (n_rows mod n_split =? 0) then 0 else 1))%Z /\
  Forall (fun p => Z.of_nat (length (rows p)) = (n_rows / n_split)%Z)
    (take (Z.to_nat n_split) parts) /\
  Forall (fun p => Z.of_nat (length (rows p)) = (n_rows mod n_split)%Z)
    (drop (Z.to_nat n_split) parts).
Proof.
  intros H. apply split_dataframe_inv in H.
  destruct H as (k & n & -> & Hk & -> & ->).
  destruct (div_block _ _ Hk) as (Hn1 & Hle & Hmod).
  cbv zeta. rewrite Nat2Z.id, <- Nat2Z.inj_div, <- Nat2Z.inj_mod.
  set (L := length (rows df)) in *. set (n := (L / k)%nat) in *.
  set (blocks := List.map (fun i => iloc_rows df (i * n) ((i + 1) * n)) (seq 0 k)).
  assert (Hlen : length blocks = k) by (unfold blocks; rewrite length_map, length_seq; reflexivity).
  assert (Hrem : (n * k <? L)%nat = negb (L mod k =? 0)%nat).
  { destruct (Nat.ltb_spec (n * k) L), (Nat.eqb_spec (L mod k) 0); simpl; lia. }
  rewrite Hrem. split; [|split].
  - rewrite length_app, Hlen.
    destruct (Nat.eqb_spec (L mod k) 0) as [E|E]; simpl.
    + rewrite E. simpl. lia.
    + destruct (Z.eqb_spec (Z.of_nat (L mod k)) 0); simpl; lia.
  - rewrite take_app_length' by (symmetry; exact Hlen).
    apply Forall_forall. intros p Hp. apply list_elem_of_In, in_map_iff in Hp.
    destruct Hp as (i & <- & Hi). apply in_seq in Hi.
    cbn [rows iloc_rows]. rewrite length_take, length_drop. fold L. f_equal. nia.
  - rewrite drop_app_length' by (symmetry; exact Hlen).
    destruct (Nat.eqb_spec (L mod k) 0) as [E|E]; simpl; [constructor|].
    constructor; [|constructor]. cbn [rows]. rewrite length_drop. fold L. f_equal. lia.
Qed.

Lemma split_dataframe_sizes_witness :
  exists parts,
    split_dataframe ranking 2 = Ok parts /\
    let n_rows := Z.of_nat (length (rows ranking)) in
    Z.of_nat (length parts) = (2 + (if (n_rows mod 2 =? 0) then 0 else 1))%Z /\
    Forall (fun p => Z.of_nat (length (rows p)) = (n_rows / 2)%Z) (take (Z.to_nat 2) parts) /\
    Forall (fun p => Z.of_nat (length (rows p)) = (n_rows mod 2)%Z) (drop (Z.to_nat 2) parts).
Proof.
  eexists. split; [vm_compute; reflexivity|].
  apply (split_dataframe_sizes ranking 2). vm_compute. reflexivity.
Defined.

(** *** drop_uniform_slice_from_dataframe *)

Lemma select_map_filter {A} (P : A -> bool) (l : list A) :
  select (List.map P l) l = List.filter P l.
Proof.
  induction l as [|x l IH]; [reflexivity|].
  simpl. rewrite IH. reflexivity.
Qed.

Lemma select_In {A} (mask : list bool) (a : list A) (x : A) :
  In x (select mask a) -> In x a.
Proof.
  revert a. induction mask as [|b mask IH]; intros [|y a] H; simpl in *; try contradiction.
  destruct b; [destruct H as [->|H]|]; auto.
Qed.

Lemma select_nth {A} (d : A) (mask : list bool) (a : list A) (s : nat) :
  length mask = length a ->
  select mask a = List.map (fun j => List.nth (j - s) a d) (select mask (seq s (length a))).
Proof.
  revert a s. induction mask as [|b mask IH]; intros [|x a] s Hlen; simpl in *;
    try reflexivity; try lia.
  assert (Hrest : select mask a
                  = List.map (fun j => List.nth (j - s) (x :: a) d)
                      (select mask (seq (S s) (length a)))).
  { rewrite (IH a (S s)) by lia. apply List.map_ext_in. intros j Hj.
    apply select_In, in_seq in Hj.
    replace (j - s)%nat with (S (j - S s)) by lia. reflexivity. }
  destruct b; [|exact Hrest].
  cbn [List.map]. rewrite Nat.sub_diag. cbn [List.nth]. f_equal. exact Hrest.
Qed.

Lemma select_none {A} (mask : list bool) (a : list A) :
  Forall (fun b => b = false) mask -> select mask a = [].
Proof.
  intros Hall. revert a. induction Hall as [|b mask -> _ IH]; intros [|x a];
    simpl; auto.
Qed.

Lemma cell_eqb_NaN (x : num) : cell_eqb x NaN = false.
Proof. destruct x; reflexivity. Qed.

(** The columns that [drop_uniform_slice_from_dataframe] keeps along
    axis 0. *)
Lemma kept_columns (df : DataFrame) (value : num) :
  List.map negb (all_axis0 df value)
  = List.map (fun j => negb (forallb (fun x => cell_eqb x value) (column_cells df j)))
      (seq 0 (length (columns df))).
Proof. unfold all_axis0. rewrite List.map_map. reflexivity. Qed.

Lemma column_cells_select (df : DataFrame) (mask : list bool) (j : nat) :
  rectangular df ->
  length mask = length (columns df) ->
  (j < length (select mask (seq 0 (length (columns df)))))%nat ->
  List.map (fun r : row => List.nth j (select mask r.2) NaN) (rows df)
  = column_cells df (List.nth j (select mask (seq 0 (length (columns df)))) 0%nat).
Proof.
  intros Hrect Hmask Hj. unfold column_cells. apply List.map_ext_in. intros r Hr.
  apply list_elem_of_In in Hr.
  pose proof (proj1 (Forall_forall _ _) Hrect r Hr) as Hlen. cbn beta in Hlen.
  rewrite (select_nth NaN mask r.2 0) by congruence. rewrite Hlen.
  rewrite (List.nth_indep _ NaN (List.nth (0 - 0) r.2 NaN)) by (rewrite length_map; exact Hj).
  rewrite (List.map_nth (fun j => List.nth (j - 0) r.2 NaN)).
  rewrite Nat.sub_0_r. reflexivity.
Qed.

(** X16.  Along axis 1, [drop_uniform_slice_from_dataframe] keeps, in
    order, the rows with at least one cell that differs from the value, and
    leaves the columns alone; applied to its result, it returns it
    unchanged. *)
Theorem drop_uniform_rows (df : DataFrame) (value : num) :
  exists out,
    drop_uniform_slice_from_dataframe df value 1 = Some out /\
    columns out = columns df /\
    rows out = List.filter (fun r : row => existsb (fun x => negb (cell_eqb x value)) r.2) (rows df) /\
    drop_uniform_slice_from_dataframe out value 1 = Some out.
Proof.
  assert (Hfilter : forall l : list row,
             select (List.map negb (List.map (fun r : row =>
                 forallb (fun x => cell_eqb x value) r.2) l)) l
             = List.filter (fun r : row => existsb (fun x => negb (cell_eqb x value)) r.2) l).
  { intros l. rewrite List.map_map, select_map_filter. apply List.filter_ext.
    intros r. induction r.2 as [|x xs IH]; [reflexivity|].
    simpl. rewrite negb_andb, IH. reflexivity. }
  eexists. split; [reflexivity|]. split; [reflexivity|]. split.
  - cbn [rows]. apply Hfilter.
  - unfold drop_uniform_slice_from_dataframe, all_axis1. cbn [Z.eqb Pos.eqb rows columns].
    rewrite !Hfilter. f_equal. f_equal.
    induction (rows df) as [|r l IH]; [reflexivity|].
    simpl. destruct (existsb _ r.2) eqn:E; [|exact IH].
    simpl. rewrite E, IH. reflexivity.
Qed.

(** X17.  Along axis 0, on a table with one cell per column in every row,
    [drop_uniform_slice_from_dataframe] keeps the row labels and returns a
    table of the same kind in which no column is uniformly the value;
    applied to its result, it returns it unchanged. *)
Theorem drop_uniform_columns (df : DataFrame) (value : num) :
  rectangular df ->
  exists out,
    drop_uniform_slice_from_dataframe df value 0 = Some out /\
    index out = index df /\
    rectangular out /\
    Forall (fun b => b = false) (all_axis0 out value) /\
    drop_uniform_slice_from_dataframe out value 0 = Some out.
Proof.
  intros Hrect.
  set (kept := List.map negb (all_axis0 df value)).
  set (out := mkDataFrame (select kept (columns df))
                (List.map (fun r : row => (r.1, select kept r.2)) (rows df))).
  assert (Hkept : length kept = length (columns df)).
  { unfold kept, all_axis0. rewrite !length_map, length_seq. reflexivity. }
  assert (Hrect' : rectangular out).
  { unfold rectangular, out. cbn [rows columns]. apply Forall_forall. intros r' Hr'.
    apply list_elem_of_In, in_map_iff in Hr'. destruct Hr' as (r & <- & Hr).
    apply list_elem_of_In in Hr.
    pose proof (proj1 (Forall_forall _ _) Hrect r Hr) as Hlen. cbn beta in Hlen.
    cbn [snd]. rewrite !length_select by congruence. reflexivity. }
  assert (Huniform : Forall (fun b => b = false) (all_axis0 out value)).
  { unfold all_axis0. apply Forall_forall. intros b Hb.
    apply list_elem_of_In, in_map_iff in Hb. destruct Hb as (j & <- & Hj).
    apply in_seq in Hj. unfold out in Hj. cbn [columns] in Hj.
    assert (Hj' : (j < length (select kept (seq 0 (length (columns df)))))%nat).
    { rewrite length_select by (rewrite length_seq; congruence).
      rewrite length_select in Hj by congruence. lia. }
    unfold column_cells at 1. unfold out at 1. cbn [rows]. rewrite List.map_map. cbn [snd].
    rewrite (column_cells_select df kept j Hrect Hkept Hj').
    pose proof (List.nth_In _ 0%nat Hj') as Hin.
    unfold kept in Hin |- *. rewrite kept_columns, !select_map_filter in Hin |- *.
    apply filter_In in Hin. destruct Hin as [_ Hin].
    apply negb_true_iff in Hin. exact Hin. }
  exists out. split; [reflexivity|]. split; [|split; [exact Hrect'|split; [exact Huniform|]]].
  - unfold index, out. cbn [rows]. rewrite <- list_fmap_compose. reflexivity.
  - unfold drop_uniform_slice_from_dataframe. cbn [Z.eqb]. f_equal.
    assert (Hall : Forall (fun b => b = true) (List.map negb (all_axis0 out value))).
    { apply Forall_forall. intros b Hb. apply list_elem_of_In, in_map_iff in Hb.
      destruct Hb as (b' & <- & Hb'). apply list_elem_of_In in Hb'.
      rewrite (proj1 (Forall_forall _ _) Huniform b' Hb'). reflexivity. }
    assert (Hlen : length (List.map negb (all_axis0 out value)) = length (columns out)).
    { unfold all_axis0. rewrite !length_map, length_seq. reflexivity. }
    rewrite (select_all (columns out)) by (try exact Hall; lia).
    destruct out as [cols rs] eqn:E. cbn [rows columns] in *. f_equal.
    rewrite <- (List.map_id rs) at 2. apply List.map_ext_in. intros [l v] Hr.
    apply list_elem_of_In in Hr.
    pose proof (proj1 (Forall_forall _ _) Hrect' _ Hr) as Hv. cbn in Hv.
    cbn [fst snd]. rewrite select_all; [reflexivity|exact Hall|lia].
Qed.

Lemma drop_uniform_columns_witness :
  exists out,
    drop_uniform_slice_from_dataframe with_zeros (Fin 0) 0 = Some out /\
    index out = index with_zeros /\
    rectangular out /\
    Forall (fun b => b = false) (all_axis0 out (Fin 0)) /\
    drop_uniform_slice_from_dataframe out (Fin 0) 0 = Some out.
Proof.
  apply (drop_uniform_columns with_zeros (Fin 0)). repeat constructor.
Defined.

(** X18.  A row or a column whose cells are all NaN is not uniform for
    [drop_uniform_slice_from_dataframe]: with NaN as the value, a table
    that has a row is returned unchanged along axis 0, and a table whose
    rows have a cell each is returned unchanged along axis 1. *)
Theorem drop_uniform_NaN_drops_nothing (df : DataFrame) (axis : Z) :
  (axis = 0%Z /\ rectangular df /\ rows df <> []) \/
  (axis = 1%Z /\ Forall (fun r : row => r.2 <> []) (rows df)) ->
  drop_uniform_slice_from_dataframe df NaN axis = Some df.
Proof.
  intros [(-> & Hrect & Hne)|(-> & Hcells)]; unfold drop_uniform_slice_from_dataframe;
    cbn [Z.eqb Pos.eqb]; f_equal; destruct df as [cols rs]; cbn [rows columns] in *.
  - assert (Hall : Forall (fun b => b = true)
                     (List.map negb (all_axis0 (mkDataFrame cols rs) NaN))).
    { rewrite kept_columns. apply Forall_forall. intros b Hb.
      apply list_elem_of_In, in_map_iff in Hb. destruct Hb as (j & <- & _).
      unfold column_cells. cbn [rows]. destruct rs as [|r rs]; [congruence|].
      simpl. rewrite cell_eqb_NaN. reflexivity. }
    assert (Hlen : length (List.map negb (all_axis0 (mkDataFrame cols rs) NaN)) = length cols).
    { unfold all_axis0. rewrite !length_map, length_seq. reflexivity. }
    rewrite (select_all cols) by (try exact Hall; lia). f_equal.
    rewrite <- (List.map_id rs) at 2. apply List.map_ext_in. intros [l v] Hr.
    apply list_elem_of_In in Hr.
    pose proof (proj1 (Forall_forall _ _) Hrect _ Hr) as Hv. cbn in Hv.
    cbn [fst snd]. rewrite select_all; [reflexivity|exact Hall|lia].
  - f_equal. apply select_all.
    + unfold all_axis1. cbn [rows]. apply Forall_forall. intros b Hb.
      apply list_elem_of_In, in_map_iff in Hb. destruct Hb as (b' & <- & Hb').
      apply in_map_iff in Hb'. destruct Hb' as (r & <- & Hr).
      apply list_elem_of_In in Hr.
      pose proof (proj1 (Forall_forall _ _) Hcells _ Hr) as Hv. cbn beta in Hv.
      destruct r.2 as [|x xs]; [congruence|]. simpl. rewrite cell_eqb_NaN. reflexivity.
    + unfold all_axis1. rewrite !length_map. cbn [rows]. lia.
Qed.

Lemma drop_uniform_NaN_drops_nothing_witness :
  drop_uniform_slice_from_dataframe with_zeros NaN 0 = Some with_zeros.
Proof.
  apply (drop_uniform_NaN_drops_nothing with_zeros 0). left.
  split; [reflexivity|]. split; [repeat constructor|discriminate].
Defined.

(** X19.  Uniformity holds vacuously: along axis 0 a table without rows
    loses all its columns, whatever the value, and along axis 1 a table
    without columns loses all its rows. *)
Theorem drop_uniform_vacuous (df : DataFrame) (value : num) :
  (rows df = [] ->
   drop_uniform_slice_from_dataframe df value 0 = Some (mkDataFrame [] [])) /\
  (columns df = [] -> rectangular df ->
   drop_uniform_slice_from_dataframe df value 1 = Some (mkDataFrame [] [])).
Proof.
  destruct df as [cols rs]. cbn [rows columns]. split.
  - intros ->. unfold drop_uniform_slice_from_dataframe. cbn [Z.eqb rows columns List.map].
    f_equal. f_equal. apply select_none. rewrite kept_columns.
    apply Forall_forall. intros b Hb. apply list_elem_of_In, in_map_iff in Hb.
    destruct Hb as (j & <- & _). reflexivity.
  - intros -> Hrect. unfold drop_uniform_slice_from_dataframe.
    cbn [Z.eqb Pos.eqb rows columns]. f_equal. f_equal. apply select_none.
    apply Forall_forall. intros b Hb. apply list_elem_of_In, in_map_iff in Hb.
    destruct Hb as (b' & <- & Hb'). unfold all_axis1 in Hb'. cbn [rows] in Hb'.
    apply in_map_iff in Hb'. destruct Hb' as (r & <- & Hr).
    apply list_elem_of_In in Hr.
    pose proof (proj1 (Forall_forall _ _) Hrect _ Hr) as Hv. cbn in Hv.
    destruct r.2; [reflexivity|discriminate].
Qed.

(** *** get_top_and_bottom_indices *)

Lemma length_select_le {A} (mask : list bool) (a : list A) :
  (length (select mask a) <= length a)%nat.
Proof.
  revert a. induction mask as [|b mask IH]; intros [|x a]; simpl; try lia.
  specialize (IH a). destruct b; simpl; lia.
Qed.

Lemma ends_sublist {A} (l : list A) (k : nat) :
  (2 * k <= length l)%nat -> take k l ++ drop (length l - k) l `sublist_of` l.
Proof.
  intros Hk. rewrite <- (take_drop k l) at 4.
  apply sublist_app; [reflexivity|].
  replace (length l - k)%nat with (k + (length l - k - k))%nat by lia.
  rewrite <- drop_drop. apply sublist_drop.
Qed.

Section TopAndBottomProperties.

Variable quantile : list num -> num -> result num.

Lemma is_quantile_threshold (df : DataFrame) (c : string) (t : number) (max_n : option Z) :
  is_quantile t ->
  get_top_and_bottom_indices quantile df c t max_n
  = let* state := quantile_selection quantile df c t max_n in
    match state.2 with
    | Int k =>
        if (1 <=? k)%Z then
          if (2 * k <=? Z.of_nat (length (rows df)))%Z
          then Ok (take (Z.to_nat k) (index df)
                   ++ drop (length (rows df) - Z.to_nat k) (index df))
          else Ok (index df)
        else Ok state.1
    | Float q =>
        if nle (Fin 1) (Fin q) then
          if nle (nmul (Fin 2) (Fin q)) (of_Z (Z.of_nat (length (rows df))))
          then Raise NotModelled else Ok (index df)
        else Ok state.1
    end.
Proof.
  intros Ht. unfold get_top_and_bottom_indices.
  assert (Hlt : match t with
                | Int z => (z <? 1)%Z
                | Float q => nlt (Fin q) (Fin 1)
                end = true).
  { destruct t as [z|q]; simpl in Ht.
    - apply Z.ltb_lt. exact Ht.
    - apply nlt_Fin. exact Ht. }
  rewrite Hlt. destruct (quantile_selection quantile df c t max_n) as [[tb t']|e];
    reflexivity.
Qed.

Lemma is_quantile_not_rank (t : number) (tb : list string) (n : nat) (idx : list string) :
  is_quantile t ->
  match t with
  | Int k =>
      if (1 <=? k)%Z then
        if (2 * k <=? Z.of_nat n)%Z
        then Ok (take (Z.to_nat k) idx ++ drop (n - Z.to_nat k) idx)
        else Ok idx
      else Ok tb
  | Float q =>
      if nle (Fin 1) (Fin q) then
        if nle (nmul (Fin 2) (Fin q)) (of_Z (Z.of_nat n))
        then Raise NotModelled else Ok idx
      else Ok tb
  end = Ok tb.
Proof.
  intros Ht. destruct t as [z|q]; simpl in Ht.
  - destruct (Z.leb_spec 1 z); [lia|reflexivity].
  - assert (E : nle (Fin 1) (Fin q) = false) by (apply nle_false_Fin; exact Ht).
    rewrite E. reflexivity.
Qed.

Lemma quantile_selection_max_n (df : DataFrame) (c : string) (t : number) (k : Z)
  (tb : list string) (t' : number) :
  quantile_selection quantile df c t None = Ok (tb, t') ->
  t' = t /\ (length tb <= length (rows df))%nat /\
  quantile_selection quantile df c t (Some k)
  = Ok (tb, if negb (k =? 0)%Z && (k <? Z.of_nat (length tb))%Z then Int (k / 2) else t).
Proof.
  unfold quantile_selection. intros H.
  destruct (ix_column df c) as [column|]; [|discriminate]. cbn [bind] in *.
  destruct (quantile column (number_value t)) as [q_top|]; [|discriminate]. cbn [bind] in *.
  destruct (quantile column (nsub (Fin 1) (number_value t))) as [q_bottom|]; [|discriminate].
  cbn [bind] in *.
  destruct (getitem_mask (index df) _) as [top_and_bottom|] eqn:E; [|discriminate].
  cbn [bind] in *. injection H as -> ->. split; [reflexivity|]. split; [|reflexivity].
  unfold getitem_mask in E. destruct (_ =? _)%nat; [|discriminate]. injection E as <-.
  etransitivity; [apply length_select_le|]. unfold index. rewrite length_fmap. reflexivity.
Qed.

(** X20.  With an int threshold of 1 or more, [get_top_and_bottom_indices]
    reads neither the column nor [max_n]: it returns the first and the last
    [threshold] row labels when the table has twice as many rows, without
    repetition if the labels are distinct, and all the row labels
    otherwise. *)
Theorem rank_selection (df : DataFrame) (column_name : string) (k : Z) (max_n : option Z) :
  (1 <= k)%Z ->
  exists res,
    get_top_and_bottom_indices quantile df column_name (Int k) max_n = Ok res /\
    ((2 * k <= Z.of_nat (length (rows df)))%Z ->
     res = take (Z.to_nat k) (index df) ++ drop (length (rows df) - Z.to_nat k) (index df) /\
     Z.of_nat (length res) = (2 * k)%Z /\
     (NoDup (index df) -> NoDup res)) /\
    ((Z.of_nat (length (rows df)) < 2 * k)%Z -> res = index df).
Proof.
  intros Hk. unfold get_top_and_bottom_indices.
  destruct (Z.ltb_spec k 1) as [|_]; [lia|]. cbn [bind].
  destruct (Z.leb_spec 1 k) as [_|]; [|lia].
  assert (Hidx : length (index df) = length (rows df)) by (unfold index; apply length_fmap).
  destruct (Z.leb_spec (2 * k) (Z.of_nat (length (rows df)))) as [Hle|Hgt].
  - eexists. split; [reflexivity|]. split; [|lia]. intros _.
    split; [reflexivity|]. split.
    + rewrite length_app, length_take, length_drop, Hidx. lia.
    + intros Hnd. eapply sublist_NoDup; [exact Hnd|].
      rewrite <- Hidx. apply ends_sublist. lia.
  - eexists. split; [reflexivity|]. split; [lia|]. reflexivity.
Qed.

(** X21.  When the quantile at the threshold is not above the quantile at
    one minus the threshold, as for a threshold of one half or less,
    [get_top_and_bottom_indices] selects every row that has a value in the
    column, in the order of the table. *)
Theorem low_quantile_selects_every_value (df : DataFrame) (column_name : string)
  (t : number) (column : list num) (a b : Q) :
  is_quantile t ->
  ix_column df column_name = Ok column ->
  quantile column (number_value t) = Ok (Fin a) ->
  quantile column (nsub (Fin 1) (number_value t)) = Ok (Fin b) ->
  a <= b ->
  get_top_and_bottom_indices quantile df column_name t None
  = Ok (select (List.map notnan column) (index df)).
Proof.
  intros Ht Hcol Ha Hb Hab.
  rewrite is_quantile_threshold by exact Ht.
  unfold quantile_selection. rewrite Hcol. cbn [bind]. rewrite Ha. cbn [bind].
  rewrite Hb. cbn [bind].
  assert (Hmask : List.map (fun p : bool * bool => p.1 || p.2)
                    (List.combine (List.map (fun x => nge x (Fin a)) column)
                                  (List.map (fun x => nle x (Fin b)) column))
                  = List.map notnan column).
  { clear - Hab. induction column as [|x column IH]; [reflexivity|].
    cbn [List.map List.combine]. rewrite IH. f_equal. cbn [fst snd].
    destruct x as [|q]; [reflexivity|]. unfold nge. cbn [notnan isnan negb].
    destruct (nle (Fin a) (Fin q)) eqn:E1; [reflexivity|].
    apply nle_false_Fin in E1. apply nle_Fin. lra. }
  rewrite Hmask.
  assert (Hlen : length column = length (index df)).
  { unfold ix_column in Hcol. destruct (List.filter _ _) as [|p [|]]; try discriminate.
    injection Hcol as <-. unfold column_cells, index. rewrite length_map, length_fmap.
    reflexivity. }
  unfold getitem_mask. rewrite length_map, Hlen, Nat.eqb_refl. cbn [bind snd fst].
  apply is_quantile_not_rank. exact Ht.
Qed.

(** X22.  The effect of [max_n] on a quantile selection.  When the
    quantiles select more than [max_n >= 2] rows, the selection is given up
    for the first and the last [max_n // 2] row labels of the table, in the
    order of the table; otherwise it is returned as it is.  The result has
    at most [max_n] labels when [max_n >= 2], and a [max_n] of 1 or less
    changes nothing. *)
Theorem max_n_effect (df : DataFrame) (column_name : string) (t : number) (k : Z)
  (tb : list string) :
  is_quantile t ->
  get_top_and_bottom_indices quantile df column_name t None = Ok tb ->
  exists res,
    get_top_and_bottom_indices quantile df column_name t (Some k) = Ok res /\
    res = (if (2 <=? k)%Z && (k <? Z.of_nat (length tb))%Z
           then take (Z.to_nat (k / 2)) (index df)
                ++ drop (length (rows df) - Z.to_nat (k / 2)) (index df)
           else tb) /\
    ((2 <= k)%Z -> (Z.of_nat (length res) <= k)%Z) /\
    ((k <= 1)%Z -> res = tb).
Proof.
  intros Ht Hnone.
  rewrite is_quantile_threshold in Hnone |- * by exact Ht.
  destruct (quantile_selection quantile df column_name t None) as [[tb0 t']|] eqn:Hsel;
    [|discriminate].
  destruct (quantile_selection_max_n df column_name t k tb0 t' Hsel) as (-> & Hlen & ->).
  cbn [bind fst snd] in *.
  rewrite is_quantile_not_rank in Hnone by exact Ht. injection Hnone as ->.
  assert (Hidx : length (index df) = length (rows df)) by (unfold index; apply length_fmap).
  pose proof (Z.div_mod k 2 ltac:(lia)) as Hdm.
  pose proof (Z.mod_pos_bound k 2 ltac:(lia)) as Hm.
  destruct (Z.eqb_spec k 0) as [->|Hk0]; cbn [negb andb].
  - rewrite is_quantile_not_rank by exact Ht. eexists. split; [reflexivity|].
    split; [reflexivity|]. split; [lia|reflexivity].
  - destruct (Z.ltb_spec k (Z.of_nat (length tb))) as [Hlt|Hge].
    + destruct (Z.leb_spec 2 k) as [H2|H2]; cbn [andb].
      * destruct (Z.leb_spec 1 (k / 2)) as [_|]; [|lia].
        destruct (Z.leb_spec (2 * (k / 2)) (Z.of_nat (length (rows df)))) as [_|]; [|lia].
        eexists. split; [reflexivity|]. split; [reflexivity|]. split; [|lia].
        intros _. rewrite length_app, length_take, length_drop, Hidx. lia.
      * destruct (Z.leb_spec 1 (k / 2)) as [|_]; [lia|].
        eexists. split; [reflexivity|]. split; [reflexivity|]. split; [lia|reflexivity].
    + rewrite is_quantile_not_rank by exact Ht.
      rewrite andb_false_r. eexists. split; [reflexivity|]. split; [reflexivity|].
      split; [lia|reflexivity].
Qed.

End TopAndBottomProperties.

Lemma rank_selection_witness :
  exists res,
    get_top_and_bottom_indices linear_quantile ranking "score" (Int 2) None = Ok res /\
    ((2 * 2 <= Z.of_nat (length (rows ranking)))%Z ->
     res = take (Z.to_nat 2) (index ranking)
           ++ drop (length (rows ranking) - Z.to_nat 2) (index ranking) /\
     Z.of_nat (length res) = (2 * 2)%Z /\
     (NoDup (index ranking) -> NoDup res)) /\
    ((Z.of_nat (length (rows ranking)) < 2 * 2)%Z -> res = index ranking).
Proof.
  apply (rank_selection linear_quantile ranking "score" 2 None). lia.
Defined.

Lemma low_quantile_selects_every_value_witness :
  get_top_and_bottom_indices linear_quantile ranking "score" (Float (1 # 4)) None
  = Ok (select (List.map notnan [Fin 5; Fin 1; NaN; Fin 3; Fin 2]) (index ranking)).
Proof.
  apply (low_quantile_selects_every_value linear_quantile ranking "score" (Float (1 # 4))
           [Fin 5; Fin 1; NaN; Fin 3; Fin 2] (7 # 4) (7 # 2)).
  - reflexivity.
  - vm_compute. reflexivity.
  - vm_compute. reflexivity.
  - vm_compute. reflexivity.
  - vm_compute. discriminate.
Defined.

Lemma max_n_effect_witness :
  exists res,
    get_top_and_bottom_indices linear_quantile ranking "score" (Float (1 # 4)) (Some 2%Z)
    = Ok res /\
    res = (if (2 <=? 2)%Z && (2 <? Z.of_nat (length ["g1"; "g2"; "g4"; "g5"]%string))%Z
           then take (Z.to_nat (2 / 2)) (index ranking)
                ++ drop (length (rows ranking) - Z.to_nat (2 / 2)) (index ranking)
           else ["g1"; "g2"; "g4"; "g5"]%string) /\
    ((2 <= 2)%Z -> (Z.of_nat (length res) <= 2)%Z) /\
    ((2 <= 1)%Z -> res = ["g1"; "g2"; "g4"; "g5"]%string).
Proof.
  apply (max_n_effect linear_quantile ranking "score" (Float (1 # 4)) 2
           ["g1"; "g2"; "g4"; "g5"]%string).
  - reflexivity.
  - vm_compute. reflexivity.
Defined.

(** ** ccal/single_sample_gseas.py *)

Lemma mapM_length {A B} (f : A -> result B) (l : list A) (ys : list B) :
  mapM f l = Ok ys -> length ys = length l.
Proof. intros H. apply mapM_Forall2, Forall2_length in H. congruence. Qed.

Lemma mapM_Ok_iff {A B} (f : A -> result B) (l : list A) :
  (exists ys, mapM f l = Ok ys) <-> Forall (fun x => exists y, f x = Ok y) l.
Proof.
  induction l as [|x l IH]; simpl.
  - split; [constructor|eauto].
  - split.
    + intros [ys H]. bind_inv H. bind_inv H. constructor; [eauto|]. apply IH. eauto.
    + intros H. inversion H as [|? ? [y Hy] Hl]; subst.
      apply IH in Hl. destruct Hl as [ys Hys]. rewrite Hy, Hys. simpl. eauto.
Qed.

Lemma setitem_cell_middle (pre rest : list (list num)) (r : list num) (j : nat) (v : num) :
  (j < length r)%nat ->
  setitem_cell (pre ++ r :: rest) (length pre) j v = Ok ((pre ++ [<[j := v]> r]) ++ rest).
Proof.
  intros Hj. unfold setitem_cell. rewrite list_lookup_middle by reflexivity.
  destruct (Nat.ltb_spec j (length r)) as [_|]; [|lia].
  pose proof (insert_app_r pre (r :: rest) 0 (<[j := v]> r)) as H.
  rewrite Nat.add_0_r in H. rewrite H. rewrite <- app_assoc. reflexivity.
Qed.

Lemma imap_replicate {A B} (f : nat -> A -> B) (n : nat) (x : A) :
  imap f (replicate n x) = List.map (fun i => f i x) (seq 0 n).
Proof.
  revert f. induction n as [|n IH]; intros f; [reflexivity|].
  cbn [replicate seq List.map]. rewrite imap_cons, IH. f_equal.
  rewrite <- seq_shift, List.map_map. reflexivity.
Qed.

Lemma write_columns_rows (by_sample : list (list num)) :
  forall (j0 : nat) (score : list (list num)),
    Forall (fun vs => length vs = length score) by_sample ->
    Forall (fun r => (j0 + length by_sample <= length r)%nat) score ->
    write_columns j0 score by_sample
    = imap (fun i r => take j0 r ++ List.map (fun vs => List.nth i vs NaN) by_sample
                       ++ drop (j0 + length by_sample) r) score.
Proof.
  induction by_sample as [|vs cols IH]; intros j0 score Hlen Hrows.
  - cbn [write_columns]. apply list_eq. intros i. rewrite list_lookup_imap.
    destruct (score !! i) as [r|]; [|reflexivity]. cbn. f_equal.
    rewrite Nat.add_0_r. symmetry. apply take_drop.
  - cbn [write_columns]. inversion Hlen as [|? ? Hvs Hcols]; subst.
    assert (Hlen1 : length (write_column j0 score vs) = length score).
    { unfold write_column. rewrite length_zip_with. lia. }
    rewrite IH.
    + apply list_eq. intros i. rewrite !list_lookup_imap. unfold write_column.
      rewrite lookup_zip_with. destruct (score !! i) as [r|] eqn:Er; [|reflexivity].
      assert (Hr : (j0 + S (length cols) <= length r)%nat).
      { apply (proj1 (Forall_forall _ _) Hrows). eapply list_elem_of_lookup_2. exact Er. }
      destruct (lookup_lt_is_Some_2 vs i) as [v Hv].
      { rewrite Hvs. eapply lookup_lt_Some. exact Er. }
      rewrite Hv. cbn. f_equal.
      rewrite (take_S_r _ j0 v) by (apply list_lookup_insert_eq; lia).
      rewrite take_insert_ge by lia.
      rewrite drop_insert_lt by lia.
      rewrite (nth_lookup_Some _ _ NaN v Hv).
      rewrite <- app_assoc. cbn [length]. cbn [app].
      replace (j0 + S (length cols))%nat with (S (j0 + length cols)) by lia.
      reflexivity.
    + rewrite Hlen1. exact Hcols.
    + unfold write_column. apply Forall_forall. intros r' Hr'.
      apply elem_of_lookup_zip_with in Hr'. destruct Hr' as (i & r & v & -> & Er & _).
      rewrite length_insert.
      pose proof (proj1 (Forall_forall _ _) Hrows r (list_elem_of_lookup_2 _ _ _ Er)) as Hr.
      cbn beta in Hr. cbn [length] in Hr. lia.
Qed.

Section SingleSampleGSEAsProperties.

Variable gene_set : Type.
Variable statistic : Type.
Variable single_sample_gsea : Series -> gene_set -> statistic -> result num.

Lemma score_gene_sets_eq (j : nat) (sample : string * Series) (st : statistic)
  (gene_sets : list (string * gene_set)) :
  forall pre rest : list (list num),
    length rest = length gene_sets ->
    Forall (fun r => (j < length r)%nat) rest ->
    score_gene_sets single_sample_gsea (pre ++ rest) j sample.2
      (List.combine (seq (length pre) (length gene_sets)) gene_sets) st
    = let* vs := sample_scores single_sample_gsea gene_sets st sample in
      Ok (pre ++ write_column j rest vs).
Proof.
  unfold sample_scores.
  induction gene_sets as [|[nm genes] sets IH]; intros pre rest Hlen Hrows.
  - destruct rest; [|discriminate]. reflexivity.
  - destruct rest as [|r rest]; [discriminate|].
    inversion Hrows as [|? ? Hr Hrest]; subst.
    cbn [length seq List.combine score_gene_sets mapM snd].
    destruct (single_sample_gsea sample.2 genes st) as [v|e]; [|reflexivity].
    cbn [bind]. rewrite setitem_cell_middle by exact Hr. cbn [bind].
    replace (S (length pre)) with (length (pre ++ [<[j := v]> r]))
      by (rewrite length_app; simpl; lia).
    rewrite IH by (simpl in Hlen; first [lia|assumption]).
    destruct (mapM _ sets) as [vs|e]; [|reflexivity].
    cbn [bind]. unfold write_column. cbn [zip_with]. rewrite <- app_assoc. reflexivity.
Qed.

Lemma score_samples_eq (st : statistic) (gene_sets : list (string * gene_set))
  (samples : list (string * Series)) :
  forall (j0 : nat) (score : list (list num)),
    length score = length gene_sets ->
    Forall (fun r => (j0 + length samples <= length r)%nat) score ->
    score_samples single_sample_gsea score
      (List.combine (seq j0 (length samples)) samples) gene_sets st
    = let* by_sample := mapM (sample_scores single_sample_gsea gene_sets st) samples in
      Ok (write_columns j0 score by_sample).
Proof.
  induction samples as [|[nm gene_score] samples IH]; intros j0 score Hlen Hrows.
  - reflexivity.
  - cbn [length seq List.combine score_samples mapM].
    pose proof (score_gene_sets_eq j0 (nm, gene_score) st gene_sets [] score Hlen) as Hin.
    cbn [app length snd] in Hin. unfold enumerate. rewrite Hin.
    2:{ eapply Forall_impl; [exact Hrows|]. intros r Hr. cbn beta in *. cbn [length] in Hr.
        lia. }
    destruct (sample_scores single_sample_gsea gene_sets st (nm, gene_score)) as [vs|e] eqn:Evs;
      [|reflexivity].
    cbn [bind]. apply mapM_length in Evs.
    assert (Hlen1 : length (write_column j0 score vs) = length gene_sets).
    { unfold write_column. rewrite length_zip_with. lia. }
    rewrite IH.
    + destruct (mapM _ samples); reflexivity.
    + exact Hlen1.
    + unfold write_column. apply Forall_forall. intros r' Hr'.
      apply elem_of_lookup_zip_with in Hr'. destruct Hr' as (i & r & v & -> & Er & _).
      rewrite length_insert.
      pose proof (proj1 (Forall_forall _ _) Hrows r (list_elem_of_lookup_2 _ _ _ Er)) as Hr.
      cbn beta in Hr. cbn [length] in Hr. lia.
Qed.

(** X23.  [_single_sample_gseas] computes the table of scores: its loops
    over the array filled with NaN overwrite every cell, so that the cell
    of a gene set and a sample is the score of that gene set on that
    sample and an error is that of the first call of [single_sample_gsea]
    to fail, samples first; it returns a table exactly when every call
    returns a score. *)
Theorem single_sample_gseas_is_score_table (gene_x_sample : DataFrame)
  (gene_sets : list (string * gene_set)) (st : statistic) :
  _single_sample_gseas single_sample_gsea gene_x_sample gene_sets st
  = score_table single_sample_gsea gene_x_sample gene_sets st /\
  ((exists out, _single_sample_gseas single_sample_gsea gene_x_sample gene_sets st = Ok out) <->
   Forall (fun sample : string * Series =>
             Forall (fun s : string * gene_set =>
                       exists v, single_sample_gsea sample.2 s.2 st = Ok v) gene_sets)
     (items gene_x_sample)).
Proof.
  assert (Heq : _single_sample_gseas single_sample_gsea gene_x_sample gene_sets st
                = score_table single_sample_gsea gene_x_sample gene_sets st).
  { unfold _single_sample_gseas, score_table, enumerate.
    assert (Hitems : length (items gene_x_sample) = length (columns gene_x_sample)).
    { unfold items, enumerate. rewrite length_map, length_combine, length_seq. lia. }
    rewrite score_samples_eq.
    - destruct (mapM _ (items gene_x_sample)) as [by_sample|e] eqn:E; [|reflexivity].
      cbn [bind]. f_equal. f_equal. f_equal.
      pose proof (mapM_length _ _ _ E) as Hcols.
      rewrite write_columns_rows.
      + unfold full. rewrite imap_replicate. apply List.map_ext. intros i.
        rewrite take_0, drop_ge by (rewrite length_replicate; lia).
        cbn [app]. rewrite app_nil_r. reflexivity.
      + apply Forall_forall. intros vs Hvs.
        apply mapM_Forall2 in E.
        apply list_elem_of_lookup in Hvs. destruct Hvs as [j Hj].
        destruct (Forall2_lookup_r _ _ _ _ _ E Hj) as (sample & _ & Hs).
        apply mapM_length in Hs. unfold full. rewrite length_replicate. exact Hs.
      + unfold full. apply Forall_forall. intros r Hr.
        apply elem_of_replicate in Hr. destruct Hr as [-> _].
        rewrite length_replicate. lia.
    - unfold full. apply length_replicate.
    - unfold full. apply Forall_forall. intros r Hr.
      apply elem_of_replicate in Hr. destruct Hr as [-> _].
      rewrite length_replicate. lia. }
  split; [exact Heq|]. rewrite Heq. unfold score_table. split.
  - intros [out H]. bind_inv H.
    assert (Hall : exists ys, mapM (sample_scores single_sample_gsea gene_sets st)
                                (items gene_x_sample) = Ok ys) by eauto.
    apply mapM_Ok_iff in Hall. eapply Forall_impl; [exact Hall|].
    intros sample Hs. cbn beta in Hs. apply mapM_Ok_iff in Hs. exact Hs.
  - intros Hall.
    assert (Hex : exists ys, mapM (sample_scores single_sample_gsea gene_sets st)
                               (items gene_x_sample) = Ok ys).
    { apply mapM_Ok_iff. eapply Forall_impl; [exact Hall|].
      intros sample Hs. cbn beta in Hs. apply mapM_Ok_iff. exact Hs. }
    destruct Hex as [ys ->]. cbn [bind]. eauto.
Qed.

End SingleSampleGSEAsProperties.
